(** * Corner-AI report parser (lib/report-parser.ts): a shallow embedding

    The parser turns the markdown answer of the generative model into typed
    report objects.  It is written almost entirely with JavaScript strings
    and regular expressions, so the development has these layers:

    - [JsString]: JavaScript strings as lists of UTF-16 code units, with the
      [String.prototype] methods the parser calls;
    - [Regex]: a backtracking matcher that follows the continuation-passing
      semantics of ECMA-262 (22.2.2), with greedy and lazy quantifiers,
      capture groups, anchors and lookahead;
    - [Effects]: exceptions, and the identifiers, clock and case tables of
      the host;
    - the functions of report-parser.ts, one definition each, under the
      names they have in the source (the legacy wrapper
      [extractFindingsFromSections] is left out: no statement below is
      about it);
    - what surrounds the parser: the parse step of
      hooks/useOpponentAnalysis.ts, the two conversions of
      lib/video-processing.ts between timestamps and seconds, and the
      filters and sorts of the report display;
    - the vocabulary of the statements, and then the proofs: soundness of
      the matcher first, the properties of the parser after it. *)

From Stdlib Require Import List NArith ZArith Arith Lia Bool String Ascii Sorted
  Permutation.
Import ListNotations.

(* ====================================================================== *)
(** * JavaScript strings *)
(* ====================================================================== *)

Module JsString.

(** A string is a sequence of UTF-16 code units; [length], [substring] and
    the regular expressions of the parser (none has the [u] flag) all count
    code units. *)
Definition codeunit := N.
Definition jsstring := list codeunit.

(** ASCII literals of the source text. *)
Definition lit (s : string) : jsstring :=
  map N_of_ascii (list_ascii_of_string s).

Definition char (s : string) : codeunit :=
  match s with
  | String a _ => N_of_ascii a
  | EmptyString => 0%N
  end.

(** U+2022 BULLET, the one non-ASCII character of the source. *)
Definition bullet : codeunit := 8226%N.

Definition mem (c : codeunit) (cs : jsstring) : bool :=
  existsb (N.eqb c) cs.

(** WhiteSpace and LineTerminator code points: what [trim] removes and what
    [\s] matches. *)
Definition isWhiteSpace (c : codeunit) : bool :=
  mem c [9; 10; 11; 12; 13; 32; 160; 5760; 8232; 8233; 8239; 8287; 12288; 65279]%N
  || ((8192 <=? c) && (c <=? 8202))%N.

Definition isLineTerminator (c : codeunit) : bool :=
  mem c [10; 13; 8232; 8233]%N.

Definition isDigit (c : codeunit) : bool :=
  ((48 <=? c) && (c <=? 57))%N.

Fixpoint eqb (s t : jsstring) : bool :=
  match s, t with
  | [], [] => true
  | a :: s', b :: t' => N.eqb a b && eqb s' t'
  | _, _ => false
  end.

Fixpoint startsWith (p s : jsstring) : bool :=
  match p, s with
  | [], _ => true
  | a :: p', b :: s' => N.eqb a b && startsWith p' s'
  | _ :: _, [] => false
  end.

(** [s.includes(sub)] *)
Fixpoint includes (s sub : jsstring) : bool :=
  startsWith sub s ||
  match s with
  | [] => false
  | _ :: s' => includes s' sub
  end.

(** [s.substring(a, b)]: both indices are clamped to the length and
    swapped when [a > b]. *)
Definition substring (s : jsstring) (a b : nat) : jsstring :=
  firstn (Nat.max a b - Nat.min a b) (skipn (Nat.min a b) s).

Fixpoint trimStart (s : jsstring) : jsstring :=
  match s with
  | c :: s' => if isWhiteSpace c then trimStart s' else s
  | [] => []
  end.

Definition trimEnd (s : jsstring) : jsstring :=
  rev (trimStart (rev s)).

Definition trim (s : jsstring) : jsstring :=
  trimEnd (trimStart s).

(** [s.split(sep)] for a separator that is one code unit decided by [p]
    (a one-character string, or a regular expression that is a single
    class): always at least one piece. *)
Fixpoint splitBy (p : codeunit -> bool) (s : jsstring) : list jsstring :=
  match s with
  | [] => [[]]
  | c :: s' =>
      if p c then [] :: splitBy p s'
      else match splitBy p s' with
           | piece :: rest => (c :: piece) :: rest
           | [] => [[c]]
           end
  end.

Definition split (sep : codeunit) (s : jsstring) : list jsstring :=
  splitBy (N.eqb sep) s.

(** [s.lastIndexOf(c, from)] for a one-character [c]: the greatest index
    [<= from] that holds [c], or [-1]. *)
Fixpoint lastIndexOf_aux (c : codeunit) (s : jsstring) (i : nat) (from : nat)
    (best : Z) : Z :=
  match s with
  | [] => best
  | d :: s' =>
      if from <? i then best
      else lastIndexOf_aux c s' (S i) from (if N.eqb d c then Z.of_nat i else best)
  end.

Definition lastIndexOf (s : jsstring) (c : codeunit) (from : nat) : Z :=
  lastIndexOf_aux c s 0 from (-1)%Z.

(** [s.padStart(n, "0")] *)
Definition padStart (s : jsstring) (n : nat) (fill : codeunit) : jsstring :=
  repeat fill (n - List.length s) ++ s.

(** [Number.prototype.toString] on a natural number. *)
Fixpoint digitsOf (fuel n : nat) (acc : jsstring) : jsstring :=
  match fuel with
  | 0 => acc
  | S fuel' =>
      let acc' := (48 + N.of_nat (n mod 10))%N :: acc in
      if n <? 10 then acc' else digitsOf fuel' (n / 10) acc'
  end.

Definition toString (n : nat) : jsstring := digitsOf (S n) n [].

(** [Number(s)] on a string of decimal digits ([Number("")] is [0]).
    Every other argument gives [None]: the parser only converts the two
    halves of a matched [\d{1,2}:\d{2}], and the theorems below show that
    [None] is never met. *)
Fixpoint decimal (s : jsstring) (acc : nat) : option nat :=
  match s with
  | [] => Some acc
  | c :: s' =>
      if isDigit c then decimal s' (10 * acc + N.to_nat (c - 48)) else None
  end.

Definition Number (s : jsstring) : option nat := decimal s 0.

(** [s.length], and [!s] for a string. *)
Definition length (s : jsstring) : nat := List.length s.

Definition isEmpty (s : jsstring) : bool :=
  match s with [] => true | _ :: _ => false end.

(** [a || b] on strings: the first operand unless it is empty. *)
Definition orElse (a b : jsstring) : jsstring :=
  if isEmpty a then b else a.

End JsString.

(* ====================================================================== *)
(** * Regular expressions *)
(* ====================================================================== *)

Module Regex.
Import JsString.
Local Open Scope string_scope.
Local Open Scope nat_scope.
Local Open Scope list_scope.

(** Abstract syntax of the patterns.  A character class, an escape such as
    [\d] and a literal character are all [Chr] with the predicate that
    decides them; the [i] flag is compiled into the predicates of the
    letters.  [Rep min max greedy r] is the quantifier [r{min,max}], with
    [max = None] for no upper bound. *)
Inductive regex : Type :=
| Eps
| Chr (p : codeunit -> bool)
| Seq (r1 r2 : regex)
| Alt (r1 r2 : regex)
| Rep (min : nat) (max : option nat) (greedy : bool) (r : regex)
| Grp (i : nat) (r : regex)
| Bol
| Eol
| Ahead (r : regex).

(** Matcher state: [pos] is the end index reached so far, [rest] the input
    from [pos] on, [caps] the captures set so far (most recent first). *)
Record mstate : Type := MState {
  pos : nat;
  rest : jsstring;
  caps : list (nat * jsstring)
}.

Definition cont := mstate -> option mstate.

Fixpoint capture (i : nat) (cs : list (nat * jsstring)) : option jsstring :=
  match cs with
  | [] => None
  | (j, v) :: cs' => if Nat.eqb i j then Some v else capture i cs'
  end.

Definition setCapture (i : nat) (v : jsstring) (y : mstate) : mstate :=
  MState (pos y) (rest y) ((i, v) :: caps y).

Definition clearCaptures (gs : list nat) (x : mstate) : mstate :=
  MState (pos x) (rest x)
         (filter (fun e => negb (existsb (Nat.eqb (fst e)) gs)) (caps x)).

(** The capture groups that occur in a pattern. *)
Fixpoint groups (r : regex) : list nat :=
  match r with
  | Eps | Chr _ | Bol | Eol => []
  | Seq a b | Alt a b => groups a ++ groups b
  | Rep _ _ _ a | Ahead a => groups a
  | Grp i a => i :: groups a
  end.

Definition isZero (max : option nat) : bool :=
  match max with Some 0 => true | _ => false end.

Definition decr (max : option nat) : option nat :=
  match max with Some n => Some (Nat.pred n) | None => None end.

(** RepeatMatcher of ECMA-262: an iteration that is not required and
    consumes nothing is rejected, and the captures of the repeated atom are
    reset when an iteration starts.  Every iteration lowers [min] or
    consumes input, so [min + length rest + 1] iterations are never
    exceeded and the first branch is not reached from [matcher]. *)
Fixpoint repeatMatcher (m : mstate -> cont -> option mstate) (gs : list nat)
    (fuel min : nat) (max : option nat) (greedy : bool)
    (x : mstate) (c : cont) {struct fuel} : option mstate :=
  match fuel with
  | 0 => None
  | S fuel' =>
      if isZero max then c x
      else
        let d : cont := fun y =>
          if Nat.eqb min 0 && Nat.eqb (pos y) (pos x) then None
          else repeatMatcher m gs fuel' (Nat.pred min) (decr max) greedy y c in
        let xr := clearCaptures gs x in
        if negb (Nat.eqb min 0) then m xr d
        else if greedy then
          match m xr d with
          | Some z => Some z
          | None => c x
          end
        else
          match c x with
          | Some z => Some z
          | None => m xr d
          end
  end.

Fixpoint matcher (r : regex) (x : mstate) (c : cont) {struct r} : option mstate :=
  match r with
  | Eps => c x
  | Chr p =>
      match rest x with
      | ch :: tl => if p ch then c (MState (S (pos x)) tl (caps x)) else None
      | [] => None
      end
  | Seq a b => matcher a x (fun y => matcher b y c)
  | Alt a b =>
      match matcher a x c with
      | Some z => Some z
      | None => matcher b x c
      end
  | Rep min max greedy a =>
      repeatMatcher (matcher a) (groups a) (min + List.length (rest x) + 1)
                    min max greedy x c
  | Grp i a =>
      matcher a x (fun y => c (setCapture i (firstn (pos y - pos x) (rest x)) y))
  | Bol => if Nat.eqb (pos x) 0 then c x else None
  | Eol => match rest x with [] => c x | _ :: _ => None end
  | Ahead a =>
      match matcher a x Some with
      | Some y => c (MState (pos x) (rest x) (caps y))
      | None => None
      end
  end.

(** The result of a successful match: where it starts and ends, the matched
    text (group 0) and the numbered groups. *)
Record MatchResult : Type := MatchRes {
  index : nat;
  endIndex : nat;
  matched : jsstring;
  captures : list (nat * jsstring)
}.

Definition group (m : MatchResult) (i : nat) : option jsstring :=
  capture i (captures m).

(** One attempt at index [i], where [suffix] is the input from [i] on. *)
Definition matchAt (r : regex) (i : nat) (suffix : jsstring) : option MatchResult :=
  match matcher r (MState i suffix []) Some with
  | Some y => Some (MatchRes i (pos y) (firstn (pos y - i) suffix) (caps y))
  | None => None
  end.

(** The first index at or after [i] where the pattern matches. *)
Fixpoint searchFrom (r : regex) (i : nat) (suffix : jsstring) : option MatchResult :=
  match matchAt r i suffix with
  | Some m => Some m
  | None =>
      match suffix with
      | [] => None
      | _ :: tl => searchFrom r (S i) tl
      end
  end.

(** [r.exec(s)] and [s.match(r)] without the [g] flag. *)
Definition exec (r : regex) (s : jsstring) : option MatchResult :=
  searchFrom r 0 s.

(** [r.test(s)] *)
Definition test (r : regex) (s : jsstring) : bool :=
  match exec r s with Some _ => true | None => false end.

(** All matches of a pattern with the [g] flag, left to right, each search
    starting where the previous match ended ([skip] counts the characters
    of the current match still to pass).  After an empty match the search
    moves one character on, as [replace] and [matchAll] do; a [while] loop
    over [exec] would not, but the one pattern the parser loops over
    cannot match the empty string. *)
Fixpoint execAll (r : regex) (skip i : nat) (suffix : jsstring) : list MatchResult :=
  match skip with
  | S k =>
      match suffix with
      | [] => []
      | _ :: tl => execAll r k (S i) tl
      end
  | 0 =>
      match matchAt r i suffix with
      | Some m =>
          m :: match suffix with
               | [] => []
               | _ :: tl => execAll r (endIndex m - i - 1) (S i) tl
               end
      | None =>
          match suffix with
          | [] => []
          | _ :: tl => execAll r 0 (S i) tl
          end
      end
  end.

(** [s.replace(r, repl)] with the [g] flag and a replacement text without
    [$] patterns. *)
Fixpoint replaceLoop (r : regex) (repl : jsstring) (skip i : nat)
    (suffix : jsstring) : jsstring :=
  match skip with
  | S k =>
      match suffix with
      | [] => []
      | _ :: tl => replaceLoop r repl k (S i) tl
      end
  | 0 =>
      match matchAt r i suffix with
      | Some m =>
          repl ++
          match suffix with
          | [] => []
          | ch :: tl =>
              if Nat.eqb (endIndex m) i then ch :: replaceLoop r repl 0 (S i) tl
              else replaceLoop r repl (endIndex m - i - 1) (S i) tl
          end
      | None =>
          match suffix with
          | [] => []
          | ch :: tl => ch :: replaceLoop r repl 0 (S i) tl
          end
      end
  end.

Definition replaceAll (r : regex) (repl : jsstring) (s : jsstring) : jsstring :=
  replaceLoop r repl 0 0 s.

(** [s.replace(r, repl)] without the [g] flag: the first match only. *)
Definition replace (r : regex) (repl : jsstring) (s : jsstring) : jsstring :=
  match exec r s with
  | Some m => firstn (index m) s ++ repl ++ skipn (endIndex m) s
  | None => s
  end.

(** ** Pattern syntax *)

Definition exactly (c : string) : codeunit -> bool := N.eqb (char c).
Definition oneOf (cs : jsstring) : codeunit -> bool := fun c => mem c cs.
Definition noneOf (cs : jsstring) : codeunit -> bool := fun c => negb (mem c cs).

(** A letter under the [i] flag.  Without the [u] flag Canonicalize never
    maps a code unit above 127 to one below 128, so a Basic Latin letter of
    the pattern matches exactly its two cases. *)
Definition isUpper (c : codeunit) : bool := ((65 <=? c) && (c <=? 90))%N.
Definition isLower (c : codeunit) : bool := ((97 <=? c) && (c <=? 122))%N.
Definition canonicalize (c : codeunit) : codeunit :=
  if isLower c then (c - 32)%N else c.
Definition ignoreCase (c : codeunit) : codeunit -> bool :=
  fun d => ((d <? 128) && N.eqb (canonicalize d) (canonicalize c))%N.

Definition digit : regex := Chr isDigit.                     (* \d *)
Definition space : regex := Chr isWhiteSpace.                (* \s *)
Definition dot : regex := Chr (fun c => negb (isLineTerminator c)).  (* . *)
Definition anyChar : regex := Chr (fun _ => true).           (* [\s\S] *)
Definition one (c : string) : regex := Chr (exactly c).

Definition cat (rs : list regex) : regex := fold_right Seq Eps rs.
Definition alt (rs : list regex) : regex :=
  match rs with
  | [] => Eps
  | r :: rs' => fold_left Alt rs' r
  end.

Definition star (r : regex) : regex := Rep 0 None true r.        (* r*  *)
Definition plus (r : regex) : regex := Rep 1 None true r.        (* r+  *)
Definition opt (r : regex) : regex := Rep 0 (Some 1) true r.     (* r?  *)
Definition lazyStar (r : regex) : regex := Rep 0 None false r.   (* r*? *)
Definition lazyPlus (r : regex) : regex := Rep 1 None false r.   (* r+? *)
Definition times (n m : nat) (r : regex) : regex := Rep n (Some m) true r.

(** A literal text, and the same under the [i] flag. *)
Definition str (s : string) : regex := cat (map (fun c => Chr (N.eqb c)) (lit s)).
Definition stri (s : string) : regex := cat (map (fun c => Chr (ignoreCase c)) (lit s)).

End Regex.

(* ====================================================================== *)
(** * Effects: exceptions and the host environment *)
(* ====================================================================== *)

Module Effects.
Import JsString.

(** What a call can end with instead of a value: a [TypeError] (a method
    called on [undefined]), or a number that is not a natural number
    ([NaN]), which the embedding does not represent. *)
Inductive error : Type := TypeError | NotANumber.

Inductive result (A : Type) : Type :=
| Ok (a : A)
| Throw (e : error).
Arguments Ok {A} a.
Arguments Throw {A} e.

Definition bind {A B : Type} (r : result A) (f : A -> result B) : result B :=
  match r with
  | Ok a => f a
  | Throw e => Throw e
  end.

(** [xs.map(f)] and [xs.forEach(f)] where [f] may throw. *)
Fixpoint mapM {A B : Type} (f : A -> result B) (xs : list A) : result (list B) :=
  match xs with
  | [] => Ok []
  | x :: xs' =>
      bind (f x) (fun y => bind (mapM f xs') (fun ys => Ok (y :: ys)))
  end.

Fixpoint foldM {A S : Type} (f : S -> A -> result S) (xs : list A) (s : S) : result S :=
  match xs with
  | [] => Ok s
  | x :: xs' => bind (f s x) (foldM f xs')
  end.

(** [v.method()] on a value that may be [undefined]. *)
Definition defined {A : Type} (v : option A) : result A :=
  match v with
  | Some a => Ok a
  | None => Throw TypeError
  end.

Definition numeric (v : option nat) : result nat :=
  match v with
  | Some n => Ok n
  | None => Throw NotANumber
  end.

(** The host: [String.prototype.toLowerCase] (defined by the Unicode case
    tables), the identifiers [crypto.randomUUID] returns, call after call,
    and the clock [new Date()] reads. *)
Class Host : Type := {
  toLowerCase : jsstring -> jsstring;
  uuid : nat -> jsstring;
  clock : Z
}.

(** Code that draws identifiers: the state is the number of identifiers
    drawn so far. *)
Definition gen (A : Type) : Type := nat -> result (A * nat).

Definition ret {A : Type} (a : A) : gen A := fun n => Ok (a, n).

Definition genBind {A B : Type} (g : gen A) (f : A -> gen B) : gen B :=
  fun n => bind (g n) (fun an => f (fst an) (snd an)).

Definition lift {A : Type} (r : result A) : gen A :=
  fun n => bind r (fun a => Ok (a, n)).

Definition randomUUID {H : Host} : gen jsstring :=
  fun n => Ok (uuid n, S n).

Fixpoint foldG {A S : Type} (f : S -> A -> gen S) (xs : list A) (s : S) : gen S :=
  match xs with
  | [] => ret s
  | x :: xs' => genBind (f s x) (foldG f xs')
  end.

End Effects.

Declare Scope js_scope.
Delimit Scope js_scope with js.
Notation "x <- r ;; k" := (Effects.bind r (fun x => k))
  (at level 61, r at next level, right associativity) : js_scope.
Notation "x <~ g ;; k" := (Effects.genBind g (fun x => k))
  (at level 61, g at next level, right associativity) : js_scope.

(* ====================================================================== *)
(** * The data model of report-parser.ts *)
(* ====================================================================== *)

Import JsString Regex Effects.
Local Open Scope string_scope.
Local Open Scope nat_scope.
Local Open Scope list_scope.
Local Open Scope js_scope.

(** [Timestamp['category']] and [Finding['category']] *)
Inductive Category : Type :=
| striking | grappling | defensive | pattern | mental | movement | cardio | other.

Module Severity.
Inductive t : Type := critical | high | medium | low.
Definition eqb (a b : t) : bool :=
  match a, b with
  | critical, critical | high, high | medium, medium | low, low => true
  | _, _ => false
  end.
End Severity.

Module Confidence.
Inductive t : Type := high | medium | low | inconclusive.
Definition eqb (a b : t) : bool :=
  match a, b with
  | high, high | medium, medium | low, low | inconclusive, inconclusive => true
  | _, _ => false
  end.
End Confidence.

(** [Timestamp], of components/video/TimestampMarker; the optional
    [color] is never set by the parser. *)
Module Timestamp.
Record t : Type := mk {
  time : jsstring;
  seconds : nat;
  label : jsstring;
  category : Category
}.
End Timestamp.

(** The optional [subsections] are never set by the parser. *)
Module ReportSection.
Record t : Type := mk {
  id : jsstring;
  title : jsstring;
  content : jsstring;
  timestamps : list Timestamp.t
}.
End ReportSection.

Module Finding.
Record t : Type := mk {
  id : jsstring;
  title : jsstring;
  description : jsstring;
  severity : Severity.t;
  category : Category;
  instanceCount : nat;
  confidence : Confidence.t;
  timestamps : list Timestamp.t;
  counterEvidence : option jsstring
}.
End Finding.

Module PriorityImprovement.
Record t : Type := mk {
  area : Category;
  issue : jsstring;
  fix_ : jsstring;
  drillRecommendation : option jsstring;
  priority : nat
}.
End PriorityImprovement.

Module OverallAssessment.
Record t : Type := mk {
  level : jsstring;
  archetype : jsstring;
  summary : jsstring
}.
End OverallAssessment.

Module ReportMetadata.
Record t : Type := mk {
  totalFindings : nat;
  criticalCount : nat;
  highCount : nat;
  mediumCount : nat;
  lowCount : nat;
  validationWarnings : list jsstring
}.
End ReportMetadata.

Module DecisionNode.
Record t : Type := mk {
  trigger : jsstring;
  response : jsstring;
  timestamp : option Timestamp.t
}.
End DecisionNode.

Inductive AnalysisType : Type := full | quick | progress.

Module SelfScoutReport.
Record t : Type := mk {
  id : jsstring;
  generatedAt : Z;
  analysisType : AnalysisType;
  overallAssessment : OverallAssessment.t;
  findings : list Finding.t;
  strengths : list Finding.t;
  priorityImprovements : list PriorityImprovement.t;
  opponentGamePlan : option jsstring;
  sections : list ReportSection.t;
  timestamps : list Timestamp.t;
  metadata : ReportMetadata.t;
  rawContent : jsstring
}.
End SelfScoutReport.

(* ====================================================================== *)
(** * Timestamp extraction *)
(* ====================================================================== *)

(** [\d{1,2}:\d{2}] *)
Definition clockTime : regex :=
  cat [times 1 2 digit; one ":"; times 2 2 digit].

(** [/[\[\(](\d{1,2}:\d{2})(?:-\d{1,2}:\d{2})?[\]\)]/g] *)
Definition timestampRegex : regex :=
  cat [Chr (oneOf (lit "[(")); Grp 1 clockTime;
       opt (cat [one "-"; clockTime]); Chr (oneOf (lit "])"))].

(** The same pattern without the capture group, in [stripTimestamps]. *)
Definition timestampPattern : regex :=
  cat [Chr (oneOf (lit "[(")); clockTime;
       opt (cat [one "-"; clockTime]); Chr (oneOf (lit "])"))].

(** [/a|b|.../.test(s)] for literal alternatives. *)
Definition testAny (words : list string) (s : jsstring) : bool :=
  test (alt (map str words)) s.

Definition categorizeTimestampContext {H : Host} (context : jsstring) : Category :=
  let lower := toLowerCase context in
  if testAny ["punch"; "kick"; "jab"; "cross"; "hook"; "uppercut"; "overhand";
              "elbow"; "knee"; "strike"; "striking"; "boxing"] lower
  then striking
  else if testAny ["takedown"; "clinch"; "submission"; "guard"; "mount"; "choke";
                   "wrestling"; "grappl"; "ground"; "back control"; "half guard";
                   "side control"] lower
  then grappling
  else if testAny ["block"; "dodge"; "slip"; "parry"; "defense"; "defensive";
                   "head movement"; "sprawl"] lower
  then defensive
  else if testAny ["habit"; "pattern"; "always"; "tends"; "consistently";
                   "every time"; "predictable"; "telegrap"] lower
  then pattern
  else other.

(** The body of the [while] loop of [extractTimestamps], for one match. *)
Definition timestampOfMatch {H : Host} (text : jsstring) (m : MatchResult)
    : result Timestamp.t :=
  timeString <- defined (group m 1) ;;
  let parts := map Number (split (char ":") timeString) in
  secs <- defined (nth_error parts 1) ;;
  mins <- numeric (nth 0 parts None) ;;
  secs <- numeric secs ;;
  let timeStr := toString mins ++ lit ":" ++ padStart (toString secs) 2 (char "0") in
  let seconds := mins * 60 + secs in
  let start := Nat.max 0 (index m - 50) in
  let end_ := Nat.min (length text) (index m + 50) in
  let context :=
    trim (replaceAll (Chr (oneOf [10; 13]%N)) (lit " ") (substring text start end_)) in
  Ok (Timestamp.mk timeStr seconds
        (substring context 0 40 ++ (if 40 <? length context then lit "..." else []))
        (categorizeTimestampContext context)).

Definition extractTimestamps {H : Host} (text : jsstring) : result (list Timestamp.t) :=
  if isEmpty text then Ok []
  else mapM (timestampOfMatch text) (execAll timestampRegex 0 0 text).

Definition stripTimestamps (text : jsstring) : jsstring :=
  trim (replaceAll timestampPattern [] text).

(** A host for running the parser on Basic Latin text, where
    [toLowerCase] only changes the letters A-Z. *)
Definition asciiLower (c : codeunit) : codeunit :=
  if isUpper c then (c + 32)%N else c.

Definition asciiHost : Host :=
  {| toLowerCase := map asciiLower;
     uuid := fun n => lit "id-" ++ toString n;
     clock := 0%Z |}.

(* ====================================================================== *)
(** * Section parsing *)
(* ====================================================================== *)

(** [/\*\*/g], removed from titles and summaries. *)
Definition boldMarker : regex := str "**".

(** [/^(#{1,3})\s+(.+)/] *)
Definition hashHeader : regex :=
  cat [Bol; Grp 1 (times 1 3 (one "#")); plus space; Grp 2 (plus dot)].

Definition isHeaderChar (c : codeunit) : bool :=
  isUpper c || isDigit c || isWhiteSpace c || mem c (lit "&:,-").

(** [/^\*\*[A-Z0-9\s&:,-]+\*\*$/] *)
Definition boldHeader : regex :=
  cat [Bol; str "**"; plus (Chr isHeaderChar); str "**"; Eol].

Definition generateSectionId {H : Host} (title : jsstring) : jsstring :=
  let lowered := toLowerCase title in
  let kept :=
    replaceAll (Chr (fun c => negb (isLower c || isDigit c || isWhiteSpace c))) []
               lowered in
  substring (replaceAll (plus space) (lit "-") kept) 0 50.

(** The title of a header line ([isHeader] and [title] of the source), if
    the trimmed line is one. *)
Definition headerTitle (trimmedLine : jsstring) : result (option jsstring) :=
  match exec hashHeader trimmedLine with
  | Some hashMatch =>
      g <- defined (group hashMatch 2) ;;
      Ok (Some (trim (replaceAll boldMarker [] g)))
  | None =>
      match exec boldHeader trimmedLine with
      | Some _ => Ok (Some (trim (replaceAll boldMarker [] trimmedLine)))
      | None => Ok None
      end
  end.

(** What is done to a section before it is pushed. *)
Definition finalizeSection {H : Host} (s : ReportSection.t) : result ReportSection.t :=
  let content := trim (ReportSection.content s) in
  ts <- extractTimestamps content ;;
  Ok (ReportSection.mk (ReportSection.id s) (ReportSection.title s) content ts).

Definition appendContent (s : ReportSection.t) (text : jsstring) : ReportSection.t :=
  ReportSection.mk (ReportSection.id s) (ReportSection.title s)
                   (ReportSection.content s ++ text) (ReportSection.timestamps s).

(** The variables the [forEach] callback of [parseReportSections] updates:
    the sections pushed so far and the section being filled. *)
Definition parserState : Type := (list ReportSection.t * option ReportSection.t)%type.

Definition newline : jsstring := [10%N].

(** The callback, for one line. *)
Definition parseLine {H : Host} (st : parserState) (line : jsstring) : result parserState :=
  let '(sections, currentSection) := st in
  let trimmedLine := trim line in
  if isEmpty trimmedLine then
    Ok (sections, option_map (fun s => appendContent s newline) currentSection)
  else
    header <- headerTitle trimmedLine ;;
    match header with
    | Some title =>
        sections' <-
          match currentSection with
          | Some s => done <- finalizeSection s ;; Ok (sections ++ [done])
          | None => Ok sections
          end ;;
        Ok (sections',
            Some (ReportSection.mk (generateSectionId title) title [] []))
    | None =>
        match currentSection with
        | Some s => Ok (sections, Some (appendContent s (line ++ newline)))
        | None =>
            Ok (sections,
                Some (ReportSection.mk (lit "intro") (lit "Introduction")
                                       (line ++ newline) []))
        end
    end.

Definition parseReportSections {H : Host} (markdown : jsstring)
    : result (list ReportSection.t) :=
  if isEmpty markdown then Ok []
  else
    st <- foldM parseLine (split 10%N markdown) ([], None) ;;
    match snd st with
    | Some s => done <- finalizeSection s ;; Ok (fst st ++ [done])
    | None => Ok (fst st)
    end.

(* ====================================================================== *)
(** * Finding extraction *)
(* ====================================================================== *)

(** [title.toLowerCase().includes(kw)] for some [kw] of the list. *)
Definition titleHas {H : Host} (keywords : list string) (s : ReportSection.t) : bool :=
  existsb (fun kw => includes (toLowerCase (ReportSection.title s)) (lit kw)) keywords.

Definition listMarker : codeunit -> bool := oneOf (lit "-*" ++ [bullet]).

(** [/^[-*•]|\d+\.\s/]: the anchor belongs to the first alternative only. *)
Definition findingItem : regex :=
  Alt (cat [Bol; Chr listMarker]) (cat [plus digit; one "."; space]).

(** [/^[-*•]|\d+\./] *)
Definition listItem : regex :=
  Alt (cat [Bol; Chr listMarker]) (cat [plus digit; one "."]).

(** [/^[-*•]|\d+\.\s*/], the prefix that is removed. *)
Definition itemPrefix : regex :=
  Alt (cat [Bol; Chr listMarker]) (cat [plus digit; one "."; star space]).

(** [/\*\*([^*]+)\*\*/] *)
Definition boldRun : regex :=
  cat [str "**"; Grp 1 (plus (Chr (noneOf (lit "*")))); str "**"].

Definition untitled : jsstring := lit "Untitled Finding".

Definition extractTitle (text : jsstring) : result jsstring :=
  match exec boldRun text with
  | Some boldMatch =>
      g <- defined (group boldMatch 1) ;;
      let cleanTitle := stripTimestamps g in
      Ok (orElse (substring cleanTitle 0 60) untitled)
  | None =>
      let firstSentence := nth 0 (splitBy (oneOf (lit ".!?")) text) [] in
      let cleanText := stripTimestamps (orElse firstSentence text) in
      if isEmpty cleanText || (length cleanText <? 3) then Ok untitled
      else Ok (substring cleanText 0 60 ++
               (if 60 <? length cleanText then lit "..." else []))
  end.

Definition has (s : jsstring) (word : string) : bool := includes s (lit word).

Definition inferSeverity {H : Host} (sectionTitle text : jsstring) (index : nat)
    : Severity.t :=
  let lower := toLowerCase (sectionTitle ++ lit " " ++ text) in
  if has lower "critical" || has lower "major hole" || has lower "biggest"
  then Severity.critical
  else if has lower "high" || has lower "significant" || has lower "dangerous"
  then Severity.high
  else if has lower "low" || has lower "minor" || has lower "small"
  then Severity.low
  else if index <=? 2 then Severity.high
  else if index <=? 5 then Severity.medium
  else Severity.low.

Definition inferCategory {H : Host} (text : jsstring) : Category :=
  let lower := toLowerCase text in
  if testAny ["punch"; "kick"; "jab"; "cross"; "hook"; "strike"; "striking";
              "boxing"; "overhand"; "hands"; "chin"] lower
  then striking
  else if testAny ["takedown"; "clinch"; "submission"; "guard"; "mount"; "grappl";
                   "wrestling"; "ground"; "back"; "rnc"; "choke"] lower
  then grappling
  else if testAny ["stance"; "footwork"; "movement"; "balance"; "position";
                   "lateral"; "pivot"; "circle"] lower
  then movement
  else if testAny ["cardio"; "tired"; "fatigue"; "gas"; "pace"; "breathing";
                   "output"] lower
  then cardio
  else if testAny ["mental"; "frustrat"; "panic"; "composure"; "iq"; "decision"] lower
  then mental
  else pattern.

Definition inferConfidence {H : Host} (text : jsstring) (timestampCount : nat)
    : Confidence.t :=
  let lower := toLowerCase text in
  if has lower "inconclusive" || has lower "unclear" || has lower "cannot assess"
  then Confidence.inconclusive
  else if has lower "low confidence" then Confidence.low
  else if 3 <=? timestampCount then Confidence.high
  else if 1 <=? timestampCount then Confidence.medium
  else Confidence.low.

(** [/however|but|except|although|counter[- ]?evidence:?\s*([^.]+)/i] *)
Definition counterEvidenceRegex : regex :=
  alt [stri "however"; stri "but"; stri "except"; stri "although";
       cat [stri "counter"; opt (Chr (oneOf (lit "- "))); stri "evidence";
            opt (one ":"); star space; Grp 1 (plus (Chr (noneOf (lit "."))))]].

(** [counterMatch ? counterMatch[1]?.trim() : undefined] *)
Definition extractCounterEvidence (text : jsstring) : option jsstring :=
  match exec counterEvidenceRegex text with
  | Some counterMatch => option_map trim (group counterMatch 1)
  | None => None
  end.

(** [n || 1] on a number. *)
Definition orOne (n : nat) : nat :=
  match n with 0 => 1 | _ => n end.

(** The [forEach] callback of [extractFindingsFromSection], for the line at
    [index]. *)
Definition findingOfLine {H : Host} (section : ReportSection.t)
    (findings : list Finding.t) (entry : nat * jsstring) : gen (list Finding.t) :=
  let '(index, line) := entry in
  let cleanLine := trim line in
  if test findingItem cleanLine && (15 <? length cleanLine) then
    let text := trim (replace itemPrefix [] cleanLine) in
    if 10 <? length text then
      timestamps <~ lift (extractTimestamps text) ;;
      id <~ randomUUID ;;
      title <~ lift (extractTitle text) ;;
      ret (findings ++
           [Finding.mk id title text
              (inferSeverity (ReportSection.title section) text index)
              (inferCategory text)
              (orOne (List.length timestamps))
              (inferConfidence text (List.length timestamps))
              timestamps
              (extractCounterEvidence text)])
    else ret findings
  else ret findings.

(** [lines.forEach((line, index) => ...)]: the lines with their indices. *)
Definition indexed {A : Type} (xs : list A) : list (nat * A) :=
  combine (seq 0 (List.length xs)) xs.

Definition extractFindingsFromSection {H : Host} (section : ReportSection.t)
    : gen (list Finding.t) :=
  foldG (findingOfLine section)
        (indexed (split 10%N (ReportSection.content section))) [].

(** [deduplicateFindings]: [seen] is the set of keys met so far. *)
Definition dedupKey {H : Host} (f : Finding.t) : jsstring :=
  substring (toLowerCase (Finding.title f)) 0 30.

Fixpoint dedupFrom {H : Host} (seen : list jsstring) (findings : list Finding.t)
    : list Finding.t :=
  match findings with
  | [] => []
  | f :: rest =>
      if existsb (JsString.eqb (dedupKey f)) seen then dedupFrom seen rest
      else f :: dedupFrom (dedupKey f :: seen) rest
  end.

Definition deduplicateFindings {H : Host} (findings : list Finding.t) : list Finding.t :=
  dedupFrom [] findings.

(** ** Sorting *)

(** The numbers the comparators compute with: naturals, their differences,
    the infinities and NaN. *)
Inductive number : Type :=
| Fin (z : Z)
| PosInf
| NegInf
| NaN.

Definition minus (a b : number) : number :=
  match a, b with
  | NaN, _ | _, NaN => NaN
  | Fin x, Fin y => Fin (x - y)
  | Fin _, PosInf => NegInf
  | Fin _, NegInf => PosInf
  | PosInf, PosInf => NaN
  | NegInf, NegInf => NaN
  | PosInf, _ => PosInf
  | NegInf, _ => NegInf
  end.

(** [v > 0] for the value a comparator returned; SortCompare reads NaN as
    [+0]. *)
Definition positive (v : number) : bool :=
  match v with
  | Fin z => (0 <? z)%Z
  | PosInf => true
  | NegInf | NaN => false
  end.

(** [Array.prototype.sort(cmp)]: a stable sort (ECMAScript 2019), here by
    insertion from the right: an element goes behind the elements it is
    greater than.  For a consistent comparator every stable sort gives
    this order. *)
Fixpoint insertSorted {A : Type} (cmp : A -> A -> number) (x : A) (l : list A) : list A :=
  match l with
  | [] => [x]
  | y :: l' => if positive (cmp x y) then y :: insertSorted cmp x l' else x :: l
  end.

Fixpoint sort {A : Type} (cmp : A -> A -> number) (l : list A) : list A :=
  match l with
  | [] => []
  | x :: l' => insertSorted cmp x (sort cmp l')
  end.

(** [ts.length > 0 ? Math.min(...ts.map(t => t.seconds)) : Infinity] *)
Definition earliest (ts : list Timestamp.t) : number :=
  match map Timestamp.seconds ts with
  | [] => PosInf
  | s :: ss => Fin (Z.of_nat (fold_left Nat.min ss s))
  end.

Definition byEarliest (a b : Finding.t) : number :=
  minus (earliest (Finding.timestamps a)) (earliest (Finding.timestamps b)).

Definition findingSectionKeywords : list string :=
  ["weaknesses"; "exploitable patterns"; "habits"; "bad habits"; "major holes"].

(** [findingSections.forEach(section => findings.push(...))] *)
Definition collectFindings {H : Host} (findings : list Finding.t)
    (section : ReportSection.t) : gen (list Finding.t) :=
  sectionFindings <~ extractFindingsFromSection section ;;
  ret (findings ++ sectionFindings).

Definition extractFindings {H : Host} (sections : list ReportSection.t)
    (rawContent : jsstring) : gen (list Finding.t) :=
  let findingSections := filter (titleHas findingSectionKeywords) sections in
  findings <~ foldG collectFindings findingSections [] ;;
  let uniqueFindings := deduplicateFindings findings in
  ret (sort byEarliest uniqueFindings).

(* ====================================================================== *)
(** * Strength extraction *)
(* ====================================================================== *)

Definition strengthKeywords : list string :=
  ["strengths"; "good things"; "offensive threats"].

Definition strengthOfLine {H : Host} (strengths : list Finding.t) (line : jsstring)
    : gen (list Finding.t) :=
  let cleanLine := trim line in
  if test listItem cleanLine && (15 <? length cleanLine) then
    let text := trim (replace itemPrefix [] cleanLine) in
    if 10 <? length text then
      timestamps <~ lift (extractTimestamps text) ;;
      id <~ randomUUID ;;
      title <~ lift (extractTitle text) ;;
      ret (strengths ++
           [Finding.mk id title text Severity.low (inferCategory text)
              (orOne (List.length timestamps)) Confidence.high timestamps None])
    else ret strengths
  else ret strengths.

Definition collectStrengths {H : Host} (strengths : list Finding.t)
    (section : ReportSection.t) : gen (list Finding.t) :=
  foldG strengthOfLine (split 10%N (ReportSection.content section)) strengths.

Definition extractStrengths {H : Host} (sections : list ReportSection.t)
    (rawContent : jsstring) : gen (list Finding.t) :=
  let strengthSections := filter (titleHas strengthKeywords) sections in
  strengths <~ foldG collectStrengths strengthSections [] ;;
  ret (deduplicateFindings strengths).

(* ====================================================================== *)
(** * Improvement extraction *)
(* ====================================================================== *)

(** [/(?:fix|improve|work on|focus on|practice|develop)[:\s]+([^.]+)/i] *)
Definition fixRegex : regex :=
  cat [alt [stri "fix"; stri "improve"; stri "work on"; stri "focus on";
            stri "practice"; stri "develop"];
       plus (Chr (fun c => N.eqb c (char ":") || isWhiteSpace c));
       Grp 1 (plus (Chr (noneOf (lit "."))))].

(** [/(?:drill|exercise|practice)[:\s]+([^.]+)/i] *)
Definition drillRegex : regex :=
  cat [alt [stri "drill"; stri "exercise"; stri "practice"];
       plus (Chr (fun c => N.eqb c (char ":") || isWhiteSpace c));
       Grp 1 (plus (Chr (noneOf (lit "."))))].

Definition extractFix (text : jsstring) : result jsstring :=
  match exec fixRegex text with
  | Some fixMatch => g <- defined (group fixMatch 1) ;; Ok (trim g)
  | None => Ok (lit "Address this issue through focused training and drilling.")
  end.

Definition extractDrill (text : jsstring) : result (option jsstring) :=
  match exec drillRegex text with
  | Some drillMatch => g <- defined (group drillMatch 1) ;; Ok (Some (trim g))
  | None => Ok None
  end.

(** The inner [forEach] callback of [extractImprovements]; the state is the
    [improvements] array and the [priority] counter of the section. *)
Definition improvementOfLine {H : Host}
    (st : list PriorityImprovement.t * nat) (line : jsstring)
    : result (list PriorityImprovement.t * nat) :=
  let '(improvements, priority) := st in
  let cleanLine := trim line in
  if test listItem cleanLine && (15 <? length cleanLine) then
    let text := trim (replace itemPrefix [] cleanLine) in
    fix_ <- extractFix text ;;
    drill <- extractDrill text ;;
    Ok (improvements ++
        [PriorityImprovement.mk (inferCategory text) text fix_ drill priority],
        S priority)
  else Ok st.

Definition collectImprovements {H : Host}
    (improvements : list PriorityImprovement.t) (section : ReportSection.t)
    : result (list PriorityImprovement.t) :=
  st <- foldM improvementOfLine (split 10%N (ReportSection.content section))
              (improvements, List.length improvements + 1) ;;
  Ok (fst st).

Definition extractImprovements {H : Host} (sections : list ReportSection.t)
    (rawContent : jsstring) : result (list PriorityImprovement.t) :=
  let improvementSections :=
    filter (titleHas ["priority"; "improvement"; "fix"]) sections in
  improvements <- foldM collectImprovements improvementSections [] ;;
  Ok (firstn 10 improvements).

(* ====================================================================== *)
(** * Decision tree extraction *)
(* ====================================================================== *)

(** [/(?:[-*•]|\d+\.)?\s*IF\s+(.+?)\s+THEN\s+(.+)/i] *)
Definition decisionRegex : regex :=
  cat [opt (Alt (Chr listMarker) (cat [plus digit; one "."]));
       star space; stri "IF"; plus space; Grp 1 (lazyPlus dot);
       plus space; stri "THEN"; plus space; Grp 2 (plus dot)].

Definition nodeOfLine {H : Host} (nodes : list DecisionNode.t) (line : jsstring)
    : result (list DecisionNode.t) :=
  match exec decisionRegex line with
  | Some m =>
      g1 <- defined (group m 1) ;;
      let triggerText := trim (replaceAll boldMarker [] g1) in
      g2 <- defined (group m 2) ;;
      let responseText := trim g2 in
      timestamps <- extractTimestamps line ;;
      Ok (nodes ++ [DecisionNode.mk triggerText responseText (nth_error timestamps 0)])
  | None => Ok nodes
  end.

Definition extractDecisionTree {H : Host} (sections : list ReportSection.t)
    : result (list DecisionNode.t) :=
  let treeSections :=
    filter (titleHas ["decision"; "counter logic"; "tree"]) sections in
  foldM (fun nodes section =>
           foldM nodeOfLine (split 10%N (ReportSection.content section)) nodes)
        treeSections [].

(* ====================================================================== *)
(** * Overall assessment *)
(* ====================================================================== *)

Definition star1 : regex := opt (one "*").                       (* \*? *)
Definition colonOrSpace : regex :=
  Chr (fun c => N.eqb c (char ":") || isWhiteSpace c).           (* [:\s] *)
Definition valueChar : regex := Chr (noneOf (lit "*" ++ [10%N])).  (* [^*\n] *)

(** [/\*?\*?Archetype\*?\*?[:\s]*\*?\*?([^*\n]+)/i] *)
Definition archetypeRegex : regex :=
  cat [star1; star1; stri "Archetype"; star1; star1; star colonOrSpace;
       star1; star1; Grp 1 (plus valueChar)].

(** [/\*?\*?(?:Current\s+)?Level\*?\*?[:\s]*\*?\*?([^*\n]+)/i] *)
Definition levelRegex : regex :=
  cat [star1; star1; opt (cat [stri "Current"; plus space]); stri "Level";
       star1; star1; star colonOrSpace; star1; star1; Grp 1 (plus valueChar)].

(** [/\*?\*?Archetype\*?\*?[:\s]*\*?\*?[^*\n]+\*?\*?/gi] *)
Definition archetypeLine : regex :=
  cat [star1; star1; stri "Archetype"; star1; star1; star colonOrSpace;
       star1; star1; plus valueChar; star1; star1].

(** [/\*?\*?(?:Current\s+)?Level\*?\*?[:\s]*\*?\*?[^*\n]+\*?\*?/gi] *)
Definition levelLine : regex :=
  cat [star1; star1; opt (cat [stri "Current"; plus space]); stri "Level";
       star1; star1; star colonOrSpace; star1; star1; plus valueChar;
       star1; star1].

(** The truncation of the summary, [if (summaryText.length > 1500) ...]. *)
Definition truncateSummary (summaryText : jsstring) : jsstring :=
  if 1500 <? length summaryText then
    let cutoff := 1500 in
    let lastPeriod := lastIndexOf summaryText (char ".") cutoff in
    let lastQuestion := lastIndexOf summaryText (char "?") cutoff in
    let lastExclaim := lastIndexOf summaryText (char "!") cutoff in
    let bestCutoff := Z.max (Z.max lastPeriod lastQuestion) lastExclaim in
    if (500 <? bestCutoff)%Z then substring summaryText 0 (Z.to_nat (bestCutoff + 1))
    else substring summaryText 0 1500
  else summaryText.

(** [match[1].replace(/\*\*/g, '').trim().substring(0, 100)] *)
Definition fieldValue (m : MatchResult) : result jsstring :=
  g <- defined (group m 1) ;;
  Ok (substring (trim (replaceAll boldMarker [] g)) 0 100).

Definition extractOverallAssessment {H : Host} (sections : list ReportSection.t)
    (rawContent : jsstring) : result OverallAssessment.t :=
  let defaultLevel := lit "Unknown" in
  let defaultArchetype := lit "Unknown" in
  let defaultSummary := lit "No assessment available." in
  let assessmentSection := find (titleHas ["overall"; "assessment"]) sections in
  let sectionContent :=
    match assessmentSection with
    | Some s => ReportSection.content s
    | None => []
    end in
  match assessmentSection, isEmpty rawContent with
  | None, true =>
      Ok (OverallAssessment.mk defaultLevel defaultArchetype defaultSummary)
  | _, _ =>
      let content := orElse sectionContent rawContent in
      archetype <-
        match exec archetypeRegex content with
        | Some archetypeMatch => fieldValue archetypeMatch
        | None => Ok defaultArchetype
        end ;;
      level <-
        match exec levelRegex content with
        | Some levelMatch => fieldValue levelMatch
        | None => Ok defaultLevel
        end ;;
      let summary :=
        if isEmpty sectionContent then defaultSummary
        else
          let summaryText :=
            trim (replaceAll boldMarker []
                    (replaceAll levelLine []
                       (replaceAll archetypeLine [] sectionContent))) in
          orElse (truncateSummary summaryText) defaultSummary in
      Ok (OverallAssessment.mk level archetype summary)
  end.

(* ====================================================================== *)
(** * Opponent game plan *)
(* ====================================================================== *)

(** The class of the double and the single quote character, written Q in
    the patterns below. *)
Definition quote : regex := Chr (oneOf [34; 39]%N).

(** The pattern of [extractOpponentGamePlan], with the [i] flag; B stands
    for the optional group of two asterisks:
    [(?:#+|B)Q?IF I WERE YOUR OPPONENTQ?B[:\s]*\n?([\s\S]*?)(?=B Corner AI|#|---|\n\n\n|$)] *)
Definition gamePlanRegex : regex :=
  cat [Alt (plus (one "#")) (opt (str "**")); opt quote;
       stri "IF I WERE YOUR OPPONENT"; opt quote; opt (str "**");
       star colonOrSpace; opt (Chr (N.eqb 10));
       Grp 1 (lazyStar anyChar);
       Ahead (alt [cat [opt (str "**"); stri "Corner AI"]; one "#"; str "---";
                   cat [Chr (N.eqb 10); Chr (N.eqb 10); Chr (N.eqb 10)]; Eol])].

(** [/^Q|Q$/g] *)
Definition outerQuote : regex := Alt (cat [Bol; quote]) (cat [quote; Eol]).

(** [/\*\*Corner AI.*$/is] *)
Definition verdictTail : regex :=
  cat [str "**"; stri "Corner AI"; star anyChar; Eol].

Definition extractOpponentGamePlan (rawContent : jsstring) : result (option jsstring) :=
  match exec gamePlanRegex rawContent with
  | Some m =>
      g <- defined (group m 1) ;;
      Ok (Some (substring
                  (trim (replace verdictTail [] (replaceAll outerQuote [] (trim g))))
                  0 1500))
  | None => Ok None
  end.

(* ====================================================================== *)
(** * The main parse function *)
(* ====================================================================== *)

Definition countWhere {A : Type} (p : A -> bool) (l : list A) : nat :=
  List.length (filter p l).

Definition hasSeverity (s : Severity.t) (f : Finding.t) : bool :=
  Severity.eqb (Finding.severity f) s.

Definition noStrengthsWarning : jsstring :=
  lit "No strengths were identified in this analysis.".

Definition validateReport (findings strengths : list Finding.t) : list jsstring :=
  let lowEvidenceFindings :=
    filter (fun f => (Finding.instanceCount f <? 2) &&
                     negb (Confidence.eqb (Finding.confidence f) Confidence.inconclusive))
           findings in
  let w1 :=
    if 0 <? List.length lowEvidenceFindings
    then [toString (List.length lowEvidenceFindings) ++
          lit " finding(s) have limited timestamp evidence."]
    else [] in
  let w2 :=
    if Nat.eqb (List.length strengths) 0 then [noStrengthsWarning] else [] in
  let criticalCount := countWhere (hasSeverity Severity.critical) findings in
  let w3 :=
    if 5 <? criticalCount
    then [lit "High number of critical findings - review may be over-sensitive."]
    else [] in
  w1 ++ w2 ++ w3.

Definition bySeconds (a b : Timestamp.t) : number :=
  minus (Fin (Z.of_nat (Timestamp.seconds a))) (Fin (Z.of_nat (Timestamp.seconds b))).

Definition parseSelfScoutReport {H : Host} (rawContent : jsstring)
    (analysisType : AnalysisType) : gen SelfScoutReport.t :=
  sections <~ lift (parseReportSections rawContent) ;;
  extracted <~ lift (extractTimestamps rawContent) ;;
  let allTimestamps := sort bySeconds extracted in
  findings <~ extractFindings sections rawContent ;;
  strengths <~ extractStrengths sections rawContent ;;
  priorityImprovements <~ lift (extractImprovements sections rawContent) ;;
  overallAssessment <~ lift (extractOverallAssessment sections rawContent) ;;
  opponentGamePlan <~ lift (extractOpponentGamePlan rawContent) ;;
  let metadata :=
    ReportMetadata.mk
      (List.length findings)
      (countWhere (hasSeverity Severity.critical) findings)
      (countWhere (hasSeverity Severity.high) findings)
      (countWhere (hasSeverity Severity.medium) findings)
      (countWhere (hasSeverity Severity.low) findings)
      (validateReport findings strengths) in
  id <~ randomUUID ;;
  ret (SelfScoutReport.mk id clock analysisType overallAssessment findings
         strengths priorityImprovements opponentGamePlan sections allTimestamps
         metadata rawContent).

(* ====================================================================== *)
(** * Techniques and the opponent report *)
(* ====================================================================== *)

Module Technique.
Record t : Type := mk {
  name : jsstring;
  timestamps : list Timestamp.t
}.
End Technique.

(** [/^\*\*(.*?)\*\*.*$/] *)
Definition boldLead : regex :=
  cat [Bol; str "**"; Grp 1 (lazyStar dot); str "**"; star dot; Eol].

(** [s.replace(r, '$1')] without the [g] flag: the first match gives way
    to its first group (to nothing when the group took no part). *)
Definition replaceByGroup1 (r : regex) (s : jsstring) : jsstring :=
  match exec r s with
  | Some m =>
      firstn (index m) s ++
      match group m 1 with Some g => g | None => [] end ++
      skipn (endIndex m) s
  | None => s
  end.

(** The inner [forEach] callback of [extractMostUtilizedTechniques]. *)
Definition techniqueOfLine {H : Host} (techniques : list Technique.t)
    (line : jsstring) : result (list Technique.t) :=
  let cleanLine := trim line in
  if test listItem cleanLine && (5 <? length cleanLine) then
    let text := trim (replace itemPrefix [] cleanLine) in
    timestamps <- extractTimestamps text ;;
    Ok (techniques ++
        [Technique.mk (trim (replaceByGroup1 boldLead (stripTimestamps text)))
                      timestamps])
  else Ok techniques.

Definition isTechniqueSection {H : Host} (s : ReportSection.t) : bool :=
  let lower := toLowerCase (ReportSection.title s) in
  has lower "utilized" || has lower "techniques" || has lower "weapons".

Definition extractMostUtilizedTechniques {H : Host} (sections : list ReportSection.t)
    : result (list Technique.t) :=
  let relevantSections := filter isTechniqueSection sections in
  techniques <-
    foldM (fun techniques section =>
             foldM techniqueOfLine (split 10%N (ReportSection.content section))
                   techniques)
          relevantSections [] ;;
  Ok (firstn 5 techniques).

Module ReportType.
Inductive t : Type := full | quick.
End ReportType.

Module OpponentReport.
Record t : Type := mk {
  id : jsstring;
  generatedAt : Z;
  fighterName : option jsstring;
  reportType : ReportType.t;
  strengths : list Finding.t;
  weaknesses : list Finding.t;
  decisionTree : list DecisionNode.t;
  mostUtilizedTechniques : list Technique.t;
  sections : list ReportSection.t;
  timestamps : list Timestamp.t;
  rawContent : jsstring
}.
End OpponentReport.

(** Step 5 of [analyze] in hooks/useOpponentAnalysis.ts: what is done with
    the markdown once the model has answered, up to the report object. *)
Definition parseOpponentReport {H : Host} (markdown : jsstring)
    (fighterName : option jsstring) (reportType : ReportType.t)
    : gen OpponentReport.t :=
  sections <~ lift (parseReportSections markdown) ;;
  strengths <~ extractStrengths sections markdown ;;
  weaknesses <~ extractFindings sections markdown ;;
  decisionTree <~ lift (extractDecisionTree sections) ;;
  mostUtilizedTechniques <~ lift (extractMostUtilizedTechniques sections) ;;
  let timestamps := flat_map ReportSection.timestamps sections in
  id <~ randomUUID ;;
  ret (OpponentReport.mk id clock fighterName reportType strengths weaknesses
         decisionTree mostUtilizedTechniques sections timestamps markdown).

(* ====================================================================== *)
(** * lib/video-processing.ts: timestamps and seconds *)
(* ====================================================================== *)

(** The numbers of JavaScript are doubles.  The embedding represents the
    safe integers among them, the naturals below 2^53: on these the
    products, sums, quotients and remainders of the two functions are
    exact, and [toString] writes plain decimal digits.  A call that meets
    any other number ends with [NotANumber], which says that the embedding
    does not represent the result; nothing is stated of such a call. *)
Definition safeInteger (n : nat) : bool :=
  (N.of_nat n <? 9007199254740992)%N.

Definition safely (n : nat) : result nat :=
  if safeInteger n then Ok n else Throw NotANumber.

(** [Number(part)]: white space around the numeral is dropped, the empty
    string is [0] and decimal digits are read as such.  A numeral of
    another form (a sign, a point, an exponent, a radix prefix, Infinity)
    or any other text is not represented. *)
Definition toNumber (part : jsstring) : result nat :=
  n <- numeric (Number (trim part)) ;;
  safely n.

(** [timestampToSeconds]: with one part, or more than three, the result
    is [0] whatever the parts are. *)
Definition timestampToSeconds (timestamp : jsstring) : result nat :=
  match split (char ":") timestamp with
  | [p0; p1] =>
      a <- toNumber p0 ;; b <- toNumber p1 ;; safely (a * 60 + b)
  | [p0; p1; p2] =>
      a <- toNumber p0 ;; b <- toNumber p1 ;; c <- toNumber p2 ;;
      safely (a * 3600 + b * 60 + c)
  | _ => Ok 0
  end.

(** [secondsToTimestamp] on a whole number of seconds that is a safe
    integer. *)
Definition secondsToTimestamp (seconds : nat) : result jsstring :=
  seconds <- safely seconds ;;
  let mins := seconds / 60 in
  let secs := seconds mod 60 in
  Ok (padStart (toString mins) 2 (char "0") ++ lit ":" ++
      padStart (toString secs) 2 (char "0")).

(* ====================================================================== *)
(** * The report display: chronological order *)
(* ====================================================================== *)

(** [Math.min] of two numbers. *)
Definition minNumber (a b : number) : number :=
  match a, b with
  | NaN, _ | _, NaN => NaN
  | NegInf, _ | _, NegInf => NegInf
  | PosInf, x | x, PosInf => x
  | Fin x, Fin y => Fin (Z.min x y)
  end.

(** [ts.seconds || Infinity] *)
Definition secondsOrInfinity (t : Timestamp.t) : number :=
  match Timestamp.seconds t with
  | 0 => PosInf
  | n => Fin (Z.of_nat n)
  end.

(** [getEarliestTimestamp] of the self-scout report display;
    [Math.min()] of no argument is [Infinity]. *)
Definition getEarliestTimestamp (finding : Finding.t) : number :=
  match Finding.timestamps finding with
  | [] => PosInf
  | ts => fold_right minNumber PosInf (map secondsOrInfinity ts)
  end.

(** The [filteredFindings] and [sortedFindings] of the display; a filter
    is [None] when it is set to [all], and every finding of the list is an
    object, so the test [!finding] is never met. *)
Definition categoryEqb (a b : Category) : bool :=
  match a, b with
  | striking, striking | grappling, grappling | defensive, defensive
  | pattern, pattern | mental, mental | movement, movement
  | cardio, cardio | other, other => true
  | _, _ => false
  end.

Definition filteredFindings (findings : list Finding.t)
    (severityFilter : option Severity.t) (categoryFilter : option Category)
    : list Finding.t :=
  filter (fun finding =>
            match severityFilter with
            | Some s => Severity.eqb (Finding.severity finding) s
            | None => true
            end &&
            match categoryFilter with
            | Some c => categoryEqb (Finding.category finding) c
            | None => true
            end)
         findings.

Definition sortedFindings (findings : list Finding.t)
    (severityFilter : option Severity.t) (categoryFilter : option Category)
    : list Finding.t :=
  sort (fun a b => minus (getEarliestTimestamp a) (getEarliestTimestamp b))
       (filteredFindings findings severityFilter categoryFilter).

(** [sortedTimestamps], ordered by [(a.seconds || 0) - (b.seconds || 0)];
    the filter before the sort keeps every timestamp whose [seconds] is a
    number, which all of them are. *)
Definition sortedTimestamps (timestamps : list Timestamp.t) : list Timestamp.t :=
  sort (fun a b => minus (Fin (Z.of_nat (Timestamp.seconds a)))
                         (Fin (Z.of_nat (Timestamp.seconds b))))
       timestamps.

(* ====================================================================== *)
(** * Vocabulary of the statements *)
(* ====================================================================== *)

(** ** What a match of the engine is known to satisfy *)

Module RegexSpec.

(** The words of a pattern, read as a plain regular expression: greed,
    anchors and lookahead only choose among these. *)
Fixpoint lang (r : regex) (w : jsstring) : Prop :=
  match r with
  | Eps | Bol | Eol | Ahead _ => w = []
  | Chr p => exists c, w = [c] /\ p c = true
  | Seq a b => exists u v, w = u ++ v /\ lang a u /\ lang b v
  | Alt a b => lang a w \/ lang b w
  | Rep min max _ a =>
      exists ws, w = List.concat ws /\ Forall (lang a) ws /\ min <= List.length ws /\
                 match max with Some m => List.length ws <= m | None => True end
  | Grp _ a => lang a w
  end.

(** Group [i] with body [g] is met by every match of [r]: it stands under
    no alternative, quantifier or lookahead. *)
Fixpoint spine (i : nat) (g : regex) (r : regex) : Prop :=
  match r with
  | Seq a b => spine i g a \/ spine i g b
  | Grp j a => (j = i /\ a = g) \/ spine i g a
  | _ => False
  end.

Definition boundsOk (min : nat) (max : option nat) : bool :=
  match max with Some m => min <=? m | None => true end.

Fixpoint nodupb (l : list nat) : bool :=
  match l with
  | [] => true
  | x :: l' => negb (existsb (Nat.eqb x) l') && nodupb l'
  end.

Fixpoint boundsAll (r : regex) : bool :=
  match r with
  | Eps | Chr _ | Bol | Eol => true
  | Seq a b | Alt a b => boundsAll a && boundsAll b
  | Rep min max _ a => boundsOk min max && boundsAll a
  | Grp _ a | Ahead a => boundsAll a
  end.

(** A pattern JavaScript accepts: quantifier bounds in order, and no group
    number used twice. *)
Definition wellFormed (r : regex) : bool := boundsAll r && nodupb (groups r).

(** State [y] is reached from [x] by consuming [w]. *)
Definition extends (x y : mstate) (w : jsstring) : Prop :=
  rest x = w ++ rest y /\ pos y = pos x + List.length w.

Definition keeps (gs : list nat) (x y : mstate) : Prop :=
  forall i, ~ In i gs -> capture i (caps y) = capture i (caps x).

Definition sets (r : regex) (y : mstate) : Prop :=
  forall i g, spine i g r -> exists v, capture i (caps y) = Some v /\ lang g v.

(** Whenever the matcher of [r] succeeds, it has called its continuation
    on a state reached through a word of [r], with the groups on the spine
    of [r] set to words of their bodies and the other groups untouched. *)
Definition sound (r : regex) : Prop :=
  forall x c z, matcher r x c = Some z ->
    exists y w, c y = Some z /\ extends x y w /\ lang r w /\
                keeps (groups r) x y /\ sets r y.

Definition goodMatch (r : regex) (m : MatchResult) : Prop :=
  endIndex m = index m + List.length (matched m) /\
  lang r (matched m) /\
  forall j g, spine j g r -> exists v, group m j = Some v /\ lang g v.

(** The characters that can occur in a word of [r]. *)
Fixpoint letters (r : regex) (c : codeunit) : bool :=
  match r with
  | Eps | Bol | Eol | Ahead _ => false
  | Chr p => p c
  | Seq a b | Alt a b => letters a c || letters b c
  | Rep _ _ _ a | Grp _ a => letters a c
  end.

(** Two continuations that agree on every state a matcher can reach
    from [x]. *)
Definition agreeFrom (x : mstate) (c c' : cont) : Prop :=
  forall y w, extends x y w -> c y = c' y.

Definition extensional (m : mstate -> cont -> option mstate) : Prop :=
  forall x c c', agreeFrom x c c' -> m x c = m x c'.

End RegexSpec.

Import RegexSpec.

(** ** Timestamps *)

(** The token [[m:s]]. *)
Definition token (m s : jsstring) : jsstring :=
  char "[" :: m ++ char ":" :: s ++ [char "]"].

(** ** Sections *)

(** A line is a heading of the form [#], [##] or [###], white space, text. *)
Definition hashHeading (line : jsstring) : bool := test hashHeader (trim line).

(** A line the parser takes for a heading, of either convention. *)
Definition recognized (line : jsstring) : bool :=
  test hashHeader (trim line) || test boldHeader (trim line).

Definition blank (line : jsstring) : bool := isEmpty (trim line).

(** Some non-blank line that is not a heading comes before every heading. *)
Definition preamble (lines : list jsstring) : Prop :=
  exists before line after,
    lines = before ++ line :: after /\
    Forall (fun l => recognized l = false) before /\
    blank line = false /\ recognized line = false.

(** ** Headings, as the specification words them *)

(** The longest prefix of [s] whose characters satisfy [p], and what comes
    after it. *)
Fixpoint takeWhile (p : codeunit -> bool) (s : jsstring) : jsstring :=
  match s with
  | c :: s' => if p c then c :: takeWhile p s' else []
  | [] => []
  end.

Fixpoint dropWhile (p : codeunit -> bool) (s : jsstring) : jsstring :=
  match s with
  | c :: s' => if p c then dropWhile p s' else s
  | [] => []
  end.

Definition isHash (c : codeunit) : bool := N.eqb c (char "#").

(** The hash signs a line starts with, once it is trimmed, and the rest of
    the line. *)
Definition headingMarks (line : jsstring) : jsstring := takeWhile isHash (trim line).
Definition afterMarks (line : jsstring) : jsstring := dropWhile isHash (trim line).

(** A heading of the hash form: one to three hash signs, then white space,
    then text.  No regular expression takes part in this definition. *)
Definition atxHeading (line : jsstring) : bool :=
  (1 <=? List.length (headingMarks line)) &&
  (List.length (headingMarks line) <=? 3) &&
  match afterMarks line with
  | c :: _ => isWhiteSpace c
  | [] => false
  end &&
  negb (isEmpty (dropWhile isWhiteSpace (afterMarks line))).

(** The text of such a heading: what follows the white space, up to the
    end of the line (a carriage return or a Unicode line separator inside
    the line ends it). *)
Definition headingText (line : jsstring) : jsstring :=
  takeWhile (fun c => negb (isLineTerminator c))
            (dropWhile isWhiteSpace (afterMarks line)).

(** The title of the section a heading opens: its text without the bold
    markers, trimmed. *)
Definition atxTitle (line : jsstring) : jsstring :=
  trim (replaceAll boldMarker [] (headingText line)).

(** Some line that is neither blank nor a hash heading comes before every
    hash heading. *)
Definition contentFirst (lines : list jsstring) : Prop :=
  exists before line after,
    lines = before ++ line :: after /\
    Forall (fun l => atxHeading l = false) before /\
    blank line = false /\ atxHeading line = false.

(** The titles of the heading lines, in order. *)
Definition titleOfLine (line : jsstring) : list jsstring :=
  match headerTitle (trim line) with
  | Ok (Some title) => [title]
  | _ => []
  end.

Definition headingTitles (lines : list jsstring) : list jsstring :=
  flat_map titleOfLine lines.

(** A section as it is pushed: trimmed content, and the timestamps of that
    content. *)
Definition finalized {H : Host} (s : ReportSection.t) : Prop :=
  (exists raw, ReportSection.content s = trim raw) /\
  extractTimestamps (ReportSection.content s) = Ok (ReportSection.timestamps s).

(** [preamble] as a function of the lines, for the induction. *)
Fixpoint preambleb (lines : list jsstring) : bool :=
  match lines with
  | [] => false
  | l :: ls =>
      if blank l then preambleb ls
      else if recognized l then false
      else true
  end.

(** The identifier and title of each section, the part of a section that
    is fixed when it is opened. *)
Definition heads (ss : list ReportSection.t) : list (jsstring * jsstring) :=
  map (fun s => (ReportSection.id s, ReportSection.title s)) ss.

Definition optHead (cur : option ReportSection.t) : list (jsstring * jsstring) :=
  match cur with
  | Some s => [(ReportSection.id s, ReportSection.title s)]
  | None => []
  end.

Definition introHead : jsstring * jsstring := (lit "intro", lit "Introduction").

Definition headOfTitle {H : Host} (t : jsstring) : jsstring * jsstring :=
  (generateSectionId t, t).

(** ** Findings *)

(** A finding without its identifier. *)
Definition eraseId (f : Finding.t) : Finding.t :=
  Finding.mk [] (Finding.title f) (Finding.description f) (Finding.severity f)
             (Finding.category f) (Finding.instanceCount f) (Finding.confidence f)
             (Finding.timestamps f) (Finding.counterEvidence f).

(** The earliest second a finding refers to, if it has a timestamp. *)
Definition firstSeconds (f : Finding.t) : option nat :=
  match map Timestamp.seconds (Finding.timestamps f) with
  | [] => None
  | s :: ss => Some (fold_left Nat.min ss s)
  end.

(** [a] may stand before [b] in chronological order: findings without a
    timestamp come last. *)
Definition chronological (a b : Finding.t) : Prop :=
  match firstSeconds a, firstSeconds b with
  | Some x, Some y => x <= y
  | _, None => True
  | None, Some _ => False
  end.

(** The key of an item as the specification words it: the title in lower
    case, cut after 30 characters.  Neither [substring] nor the comparison
    of the parser takes part in it. *)
Definition titleKey {H : Host} (f : Finding.t) : jsstring :=
  firstn 30 (toLowerCase (Finding.title f)).

Definition sameKey {H : Host} (f g : Finding.t) : bool :=
  if list_eq_dec N.eq_dec (titleKey f) (titleKey g) then true else false.

(** Deduplication as the specification words it: an item is kept when no
    earlier item of the list has the same key. *)
Fixpoint keepFirstOfEachKey {H : Host} (earlier items : list Finding.t)
    : list Finding.t :=
  match items with
  | [] => []
  | f :: rest =>
      if existsb (fun g => sameKey g f) earlier
      then keepFirstOfEachKey (earlier ++ [f]) rest
      else f :: keepFirstOfEachKey (earlier ++ [f]) rest
  end.

(** [f] stands in [items] with no item of the same key before it. *)
Definition firstOfItsKey {H : Host} (items : list Finding.t) (f : Finding.t) : Prop :=
  exists before after,
    items = before ++ f :: after /\
    Forall (fun g => titleKey g <> titleKey f) before.

(** Two lists of findings that differ in identifiers at most. *)
Definition sameData (fs1 fs2 : list Finding.t) : Prop :=
  map eraseId fs1 = map eraseId fs2.

(** Two runs of an extractor, started with any two identifier counters,
    both return, with the same findings up to identifiers. *)
Definition agree (g1 g2 : gen (list Finding.t)) : Prop :=
  forall n1 n2, exists fs1 fs2 k1 k2,
    g1 n1 = Ok (fs1, k1) /\ g2 n2 = Ok (fs2, k2) /\ sameData fs1 fs2.

(** No severity keyword occurs in the lowercased title and text. *)
Definition noSeverityKeyword {H : Host} (sectionTitle text : jsstring) : bool :=
  let lower := toLowerCase (sectionTitle ++ lit " " ++ text) in
  negb (existsb (has lower)
          ["critical"; "major hole"; "biggest"; "high"; "significant"; "dangerous";
           "low"; "minor"; "small"]).

(** The line starts with a bullet, or with digits and a dot. *)
Definition startsWithMarker (line : jsstring) : bool :=
  match line with
  | [] => false
  | c :: _ => listMarker c || test (cat [Bol; plus digit; one "."]) line
  end.

(** [extractDecisionTree(parseReportSections(markdown))] *)
Definition parseDecisionTree {H : Host} (markdown : jsstring)
    : result (list DecisionNode.t) :=
  sections <- parseReportSections markdown ;;
  extractDecisionTree sections.

(** ** Inputs of the scenarios *)

Definition decisionTreeInput : jsstring :=
  lit "## DECISION TREE" ++ newline ++
  lit "- IF **jabs lazily** THEN **slip outside** [0:12]" ++ newline.

Definition unsortedStrengths : list ReportSection.t :=
  [ReportSection.mk (lit "strengths") (lit "Strengths")
     (lit "- Sharp counter jab off the back foot [0:50]" ++ newline ++
      lit "- Heavy leg kicks to the lead leg [0:10]") []].

(** 1500 letters and then a full stop, at offset 1500. *)
Definition longAssessment : list ReportSection.t :=
  [ReportSection.mk (lit "overall-assessment") (lit "Overall Assessment")
     (repeat (char "a") 1500 ++ lit ".") []].

(** A list with blank lines between its items. *)
Definition spacedWeaknesses : ReportSection.t :=
  ReportSection.mk (lit "weaknesses") (lit "Weaknesses")
    (lit "- Drops the left hand after every jab [0:50]" ++ newline ++ newline ++
     lit "- Reaches with the cross when tired [0:10]" ++ newline ++ newline ++
     lit "- Stands square after each exchange [0:30]") [].

(** A sentence that is not a list item. *)
Definition proseWeaknesses : ReportSection.t :=
  ReportSection.mk (lit "weaknesses") (lit "Weaknesses")
    (lit "Opponent landed 12. Then he circled away") [].

Definition sampleMarkdown : jsstring :=
  lit "Scouting notes" ++ newline ++
  lit "## Weaknesses" ++ newline ++
  lit "- Drops the left hand after every jab [0:45]" ++ newline ++
  lit "### Strengths" ++ newline ++
  lit "- Sharp counter jab off the back foot [1:10]".

(** ** Invariants of what the parser returns *)

(** ** Invariants of the extracted items *)

(** What every finding or strength is built with: the count of instances
    is the number of timestamps, one at least; the description is longer
    than ten characters and its timestamps are the ones kept; the title is
    there and no longer than 63 characters. *)
Definition wellBuilt {H : Host} (f : Finding.t) : Prop :=
  Finding.instanceCount f = Nat.max 1 (List.length (Finding.timestamps f)) /\
  10 < length (Finding.description f) /\
  1 <= length (Finding.title f) <= 63 /\
  extractTimestamps (Finding.description f) = Ok (Finding.timestamps f).

(** The confidence of a finding is backed by its timestamps. *)
Definition evidenced (f : Finding.t) : Prop :=
  (Finding.confidence f = Confidence.high -> 3 <= List.length (Finding.timestamps f)) /\
  (Finding.confidence f = Confidence.medium -> 1 <= List.length (Finding.timestamps f)).

(** A strength, beside being well built. *)
Definition strengthShaped (f : Finding.t) : Prop :=
  Finding.severity f = Severity.low /\
  Finding.confidence f = Confidence.high /\
  Finding.counterEvidence f = None.

(** The four severity counters of a list of findings. *)
Definition severityCounts (findings : list Finding.t) : nat :=
  countWhere (hasSeverity Severity.critical) findings +
  countWhere (hasSeverity Severity.high) findings +
  countWhere (hasSeverity Severity.medium) findings +
  countWhere (hasSeverity Severity.low) findings.

(** Timestamps in ascending order of their seconds. *)
Definition bySecondsAscending (a b : Timestamp.t) : Prop :=
  Timestamp.seconds a <= Timestamp.seconds b.

(** The priorities handed out so far are 1, 2, 3, ... and the counter is
    one ahead. *)
Definition ranked (st : list PriorityImprovement.t * nat) : Prop :=
  map PriorityImprovement.priority (fst st) = seq 1 (List.length (fst st)) /\
  snd st = S (List.length (fst st)).

(** No timestamp of the finding is at second 0. *)
Definition afterTheStart (f : Finding.t) : Prop :=
  Forall (fun t => Timestamp.seconds t <> 0) (Finding.timestamps f).

(** A finding with one timestamp, at the given second, for the scenario of
    the display. *)
Definition findingAt (seconds : nat) : Finding.t :=
  Finding.mk (lit "id") (lit "Drops the left hand") (lit "Drops the left hand")
    Severity.high striking 1 Confidence.medium
    [Timestamp.mk
       (toString (seconds / 60) ++ lit ":" ++
        padStart (toString (seconds mod 60)) 2 (char "0"))
       seconds (lit "Drops") striking] None.

(** The invariants of a timestamp built by [extractTimestamps]. *)
Definition wellTimed (t : Timestamp.t) : Prop :=
  Timestamp.seconds t <= 99 * 60 + 99 /\
  timestampToSeconds (Timestamp.time t) = Ok (Timestamp.seconds t) /\
  length (Timestamp.label t) <= 43 /\
  In (Timestamp.category t) [striking; grappling; defensive; pattern; other].

(** The two characters a time reference can open with. *)
Definition opensTimestamp (c : codeunit) : bool := oneOf (lit "[(") c.

(** The characters of a section id: [a-z], [0-9] and the hyphen. *)
Definition isSlugChar (c : codeunit) : bool :=
  isLower c || isDigit c || N.eqb c (char "-").

(** The identifier of a section is a slug of at most 50 characters and its
    timestamps are well formed. *)
Definition wellIdentified (s : ReportSection.t) : Prop :=
  length (ReportSection.id s) <= 50 /\
  Forall (fun c => isSlugChar c = true) (ReportSection.id s) /\
  Forall wellTimed (ReportSection.timestamps s).

(** [w] is [phrase] up to the case of its letters. *)
Definition sameLetters (phrase : string) (w : jsstring) : Prop :=
  Forall2 (fun c d => ignoreCase c d = true) (lit phrase) w.

(** The text holds [phrase] somewhere, in any case. *)
Definition mentions (text : jsstring) (phrase : string) : Prop :=
  exists before w after, text = before ++ w ++ after /\ sameLetters phrase w.

(** A report with a game plan under its heading. *)
Definition gamePlanInput : jsstring :=
  lit "## If I were your opponent" ++ newline ++
  lit "I would jab and circle away." ++ newline ++
  lit "---".

(** The number of lines of the sections that [keep] selects. *)
Definition linesOf (keep : ReportSection.t -> bool) (sections : list ReportSection.t)
    : nat :=
  list_sum (map (fun s => List.length (split 10%N (ReportSection.content s)))
                (filter keep sections)).

(** The timestamp of the node, when it has one, is well timed. *)
Definition timedNode (node : DecisionNode.t) : Prop :=
  match DecisionNode.timestamp node with
  | Some t => wellTimed t
  | None => True
  end.

(** The two characters a time reference can close with. *)
Definition closesTimestamp (c : codeunit) : bool := oneOf (lit "])") c.

(** [lo] to [hi] decimal digits. *)
Definition digits (lo hi : nat) (s : jsstring) : Prop :=
  Forall (fun c => isDigit c = true) s /\ lo <= List.length s <= hi.

(** The end of a range, [-M:SS], or nothing. *)
Definition rangeEnd (range : option (jsstring * jsstring)) : jsstring :=
  match range with
  | Some (m2, s2) => char "-" :: m2 ++ char ":" :: s2
  | None => []
  end.

(** The end of the range, when there is one, is a time as well. *)
Definition rangeOk (range : option (jsstring * jsstring)) : Prop :=
  match range with
  | Some (m2, s2) => digits 1 2 m2 /\ digits 2 2 s2
  | None => True
  end.

(** A time reference in any of the accepted forms: round or square
    brackets (they need not agree), with or without the end of a range. *)
Definition stamp (opening : codeunit) (m s : jsstring)
    (range : option (jsstring * jsstring)) (closing : codeunit) : jsstring :=
  opening :: m ++ char ":" :: s ++ rangeEnd range ++ [closing].

(** The text ends with a full stop, a question mark or an exclamation
    mark. *)
Definition endsSentence (text : jsstring) : Prop :=
  exists body c, text = body ++ [c] /\ In c (lit ".?!").

(** The categories [inferCategory] can give. *)
Definition inferred (c : Category) : Prop :=
  In c [striking; grappling; movement; cardio; mental; pattern].

(** A list of items with time references and no heading above it. *)
Definition listWithoutHeading : jsstring :=
  lit "- Drops the left hand after every jab [0:45]" ++ newline ++
  lit "- Reaches with the cross when tired [0:10]".

(** The identifiers of the items are distinct, and each is one the host
    gave out between the calls number [lo] and [hi] of [randomUUID]. *)
Definition drawn {H : Host} (lo hi : nat) (items : list Finding.t) : Prop :=
  NoDup (map Finding.id items) /\
  Forall (fun f => exists j, lo <= j < hi /\ Finding.id f = uuid j) items.

(** The timestamp is not at second 0. *)
Definition pastTheStart (t : Timestamp.t) : bool :=
  negb (Nat.eqb (Timestamp.seconds t) 0).

Ltac split5 := split; [|split; [|split; [|split]]].
Ltac nospine := intros ? ? Hsp; simpl in Hsp; contradiction.

(** [Nat.eqb (S ... i) i] once [cbn] has opened it. *)
Ltac stuckEqb i :=
  repeat match goal with
  | |- context [match i with 0 => false | S m' => @?f m' end] =>
      let t := constr:(match i with 0 => false | S m' => f m' end) in
      replace t with false
        by (destruct i; [reflexivity | symmetry; apply Nat.eqb_neq; lia])
  end.

(* ====================================================================== *)
(** * The matcher: soundness and termination *)
(* ====================================================================== *)

Module RegexFacts.

(** ** Soundness *)

Lemma nodupb_NoDup l : nodupb l = true -> NoDup l.
Proof.
  induction l as [|a l IH]; simpl; intros Hn; constructor.
  - apply andb_prop in Hn as [Hn _]. intros Hin.
    apply negb_true_iff in Hn.
    assert (existsb (Nat.eqb a) l = true) as He.
    { apply existsb_exists. exists a. split; [exact Hin | apply Nat.eqb_refl]. }
    congruence.
  - apply andb_prop in Hn as [_ Hn]. auto.
Qed.

Lemma spine_groups i g r : spine i g r -> In i (groups r).
Proof.
  induction r; simpl; try contradiction.
  - intros [Hs | Hs]; apply in_or_app; auto.
  - intros [[-> _] | Hs]; auto.
Qed.

Lemma extends_refl x : extends x x [].
Proof. split; simpl; auto. Qed.

Lemma extends_trans x y z u v :
  extends x y u -> extends y z v -> extends x z (u ++ v).
Proof.
  intros [Hr1 Hp1] [Hr2 Hp2]. split.
  - rewrite Hr1, Hr2, app_assoc. reflexivity.
  - rewrite Hp2, Hp1, length_app. lia.
Qed.

Lemma capture_clear gs i cs :
  ~ In i gs ->
  capture i (filter (fun e => negb (existsb (Nat.eqb (fst e)) gs)) cs) = capture i cs.
Proof.
  intros Hni. induction cs as [|[j v] cs IH]; simpl; auto.
  destruct (existsb (Nat.eqb j) gs) eqn:He; simpl.
  - destruct (Nat.eqb_spec i j) as [->|Hne]; auto.
    apply existsb_exists in He as [k [Hk Hjk]].
    apply Nat.eqb_eq in Hjk. subst k. contradiction.
  - rewrite IH. reflexivity.
Qed.

Lemma firstn_extends x y w : extends x y w -> firstn (pos y - pos x) (rest x) = w.
Proof.
  intros [Hr Hp]. rewrite Hr, Hp.
  replace (pos x + List.length w - pos x) with (List.length w + 0) by lia.
  rewrite firstn_app_2. simpl. apply app_nil_r.
Qed.

Section Repeat.
Variable a : regex.
Hypothesis sound_a : sound a.

Lemma repeatMatcher_sound fuel : forall min max greedy x c z,
    boundsOk min max = true ->
    repeatMatcher (matcher a) (groups a) fuel min max greedy x c = Some z ->
    exists y ws, c y = Some z /\ extends x y (List.concat ws) /\ Forall (lang a) ws /\
      min <= List.length ws /\
      match max with Some m => List.length ws <= m | None => True end /\
      keeps (groups a) x y.
  Proof.
    induction fuel as [|fuel IH]; intros min max greedy x c z Hb Hm;
      simpl in Hm; [discriminate|].
    assert (Hstop : c x = Some z ->  min = 0 ->
      exists y ws, c y = Some z /\ extends x y (List.concat ws) /\ Forall (lang a) ws /\
      min <= List.length ws /\
      match max with Some m => List.length ws <= m | None => True end /\
      keeps (groups a) x y).
    { intros Hc Hz. exists x, []. simpl. repeat split; auto; try lia.
      destruct max; auto; lia. }
    assert (Hiter : isZero max = false ->
      matcher a (clearCaptures (groups a) x)
        (fun y => if Nat.eqb min 0 && Nat.eqb (pos y) (pos x) then None
                  else repeatMatcher (matcher a) (groups a) fuel (Nat.pred min)
                         (decr max) greedy y c) = Some z ->
      exists y ws, c y = Some z /\ extends x y (List.concat ws) /\ Forall (lang a) ws /\
      min <= List.length ws /\
      match max with Some m => List.length ws <= m | None => True end /\
      keeps (groups a) x y).
    { intros Hnz Hr. apply sound_a in Hr as (y1 & w1 & Hd & He1 & Hl1 & Hk1 & _).
      destruct (Nat.eqb min 0 && Nat.eqb (pos y1) (pos x)); [discriminate|].
      apply IH in Hd as (y & ws & Hc & He & Hf & Hmin & Hmax & Hk).
      - exists y, (w1 :: ws). simpl. repeat split; auto.
        + destruct He1 as [Hr1 Hp1], He as [Hr2 Hp2]. simpl in Hr1.
          rewrite Hr1, Hr2, app_assoc. reflexivity.
        + destruct He1 as [Hr1 Hp1], He as [Hr2 Hp2]. simpl in Hp1.
          rewrite Hp2, Hp1, length_app. lia.
        + lia.
        + destruct max as [m|]; simpl in *; auto.
          destruct m; [discriminate|]. simpl in Hmax. lia.
        + intros i Hi. rewrite (Hk i Hi), (Hk1 i Hi). simpl.
          apply capture_clear. exact Hi.
      - destruct max as [m|]; simpl in *; auto.
        destruct m; [discriminate|]. simpl.
        apply Nat.leb_le in Hb. apply Nat.leb_le. lia. }
    destruct (isZero max) eqn:Hz.
    - destruct max as [[|m]|]; try discriminate. simpl in Hb.
      apply Nat.leb_le in Hb. apply Hstop; auto. lia.
    - destruct (Nat.eqb_spec min 0) as [Hmin|Hmin]; simpl in Hm.
      + destruct greedy.
        * destruct (matcher a (clearCaptures (groups a) x) _) eqn:Hr.
          -- apply Hiter; auto.
          -- apply Hstop; auto.
        * destruct (c x) eqn:Hc.
          -- apply Hstop; auto.
          -- apply Hiter; auto.
      + apply Hiter; auto.
  Qed.
End Repeat.

Lemma NoDup_app_disjoint (l1 l2 : list nat) i :
  NoDup (l1 ++ l2) -> In i l1 -> In i l2 -> False.
Proof.
  induction l1 as [|a l1 IH]; simpl; intros Hn H1 H2; [contradiction|].
  inversion Hn as [|? ? Hni Hn']; subst. destruct H1 as [->|H1].
  - apply Hni, in_or_app. auto.
  - auto.
Qed.

Lemma matcher_sound r : wellFormed r = true -> sound r.
Proof.
  unfold wellFormed. intros Hwf. apply andb_prop in Hwf as [Hb Hn].
  apply nodupb_NoDup in Hn. revert Hb Hn.
  induction r; simpl; intros Hb Hn x c z Hm; simpl in Hm.
  - (* Eps *)
    exists x, []. split5; auto using extends_refl; try nospine; try (red; auto).
  - (* Chr *)
    simpl in Hm. destruct (rest x) as [|ch tl] eqn:Hr; [discriminate|].
    destruct (p ch) eqn:Hp; [|discriminate].
    exists (MState (S (pos x)) tl (caps x)), [ch]. split5; simpl; auto; try nospine.
    + split; simpl; auto. lia.
    + exists ch. auto.
    + red; auto.
  - (* Seq *)
    simpl in Hm. apply andb_prop in Hb as [Hb1 Hb2].
    pose proof (NoDup_app_remove_r _ _ Hn) as Hn1.
    pose proof (NoDup_app_remove_l _ _ Hn) as Hn2.
    apply (IHr1 Hb1 Hn1) in Hm as (y1 & w1 & Hm & He1 & Hl1 & Hk1 & Hs1).
    apply (IHr2 Hb2 Hn2) in Hm as (y2 & w2 & Hm & He2 & Hl2 & Hk2 & Hs2).
    exists y2, (w1 ++ w2). split5; eauto using extends_trans.
    + exists w1, w2. auto.
    + intros i Hi. rewrite Hk2, Hk1; auto; intros Hin; apply Hi, in_or_app; auto.
    + intros i g [Hs | Hs].
      * destruct (Hs1 i g Hs) as (v & Hv & Hlv). exists v. split; auto.
        rewrite Hk2; auto. intros Hin.
        apply spine_groups in Hs. eapply NoDup_app_disjoint; eauto.
      * apply Hs2. exact Hs.
  - (* Alt *)
    simpl in Hm. apply andb_prop in Hb as [Hb1 Hb2].
    pose proof (NoDup_app_remove_r _ _ Hn) as Hn1.
    pose proof (NoDup_app_remove_l _ _ Hn) as Hn2.
    destruct (matcher r1 x c) eqn:H1.
    + apply (IHr1 Hb1 Hn1) in H1 as (y & w & Hc & He & Hl & Hk & _).
      exists y, w. split5; auto; try congruence; try nospine.
      * simpl. auto.
      * intros i Hi. apply Hk. intros Hin. apply Hi, in_or_app; auto.
    + apply (IHr2 Hb2 Hn2) in Hm as (y & w & Hc & He & Hl & Hk & _).
      exists y, w. split5; auto; try nospine.
      * simpl. auto.
      * intros i Hi. apply Hk. intros Hin. apply Hi, in_or_app; auto.
  - (* Rep *)
    simpl in Hm. apply andb_prop in Hb as [Hb1 Hb2].
    apply (@repeatMatcher_sound r (IHr Hb2 Hn)) in Hm; auto.
    destruct Hm as (y & ws & Hc & He & Hf & Hmin & Hmax & Hk).
    exists y, (List.concat ws). split5; auto; try nospine.
    exists ws. auto.
  - (* Grp *)
    simpl in Hm. inversion Hn as [|? ? Hni Hn']; subst.
    apply (IHr Hb Hn') in Hm as (y & w & Hc & He & Hl & Hk & Hs).
    exists (setCapture i (firstn (pos y - pos x) (rest x)) y), w.
    split5; auto.
    + intros j Hj. simpl. destruct (Nat.eqb_spec j i) as [->|Hne].
      * exfalso. apply Hj. simpl. auto.
      * apply Hk. intros Hin. apply Hj. simpl. auto.
    + intros j g [[-> ->] | Hsp]; simpl.
      * rewrite Nat.eqb_refl. exists w. split; auto.
        rewrite (@firstn_extends x y w He). reflexivity.
      * destruct (Nat.eqb_spec j i) as [->|Hne].
        -- exfalso. apply Hni. eapply spine_groups; eauto.
        -- apply Hs. exact Hsp.
  - (* Bol *)
    simpl in Hm. destruct (Nat.eqb (pos x) 0); [|discriminate].
    exists x, []. split5; auto using extends_refl; try nospine; try (red; auto).
  - (* Eol *)
    simpl in Hm. destruct (rest x) eqn:Hr; [|discriminate].
    exists x, []. split5; auto using extends_refl; try nospine; try (red; auto).
  - (* Ahead *)
    simpl in Hm. destruct (matcher r x Some) as [y1|] eqn:H1; [|discriminate].
    apply (IHr Hb Hn) in H1 as (y & w & Hc & He & Hl & Hk & _).
    inversion Hc; subst y1.
    exists (MState (pos x) (rest x) (caps y)), []. split5; simpl; auto; try nospine.
    split; simpl; auto.
Qed.

(** ** The fuel of the quantifier *)

Lemma extends_length x y w :
  extends x y w -> List.length (rest x) = List.length w + List.length (rest y).
Proof. intros [Hr _]. rewrite Hr, length_app. reflexivity. Qed.

Lemma extends_same_pos x y w : extends x y w -> pos y = pos x -> w = [].
Proof. intros [_ Hp] He. destruct w; [reflexivity|]. simpl in Hp. lia. Qed.

Lemma extends_clear gs x y w :
  extends (clearCaptures gs x) y w <-> extends x y w.
Proof. unfold extends. simpl. tauto. Qed.

Section RepeatFuel.
Variable m : mstate -> cont -> option mstate.
Hypothesis m_ext : extensional m.
Variable gs : list nat.

Lemma repeatMatcher_ext fuel : forall min max greedy x c c',
  agreeFrom x c c' ->
  repeatMatcher m gs fuel min max greedy x c =
  repeatMatcher m gs fuel min max greedy x c'.
Proof.
  induction fuel as [|fuel IH]; intros min max greedy x c c' Hc; simpl; auto.
  assert (Hx : c x = c' x) by (apply (Hc x []), extends_refl).
  assert (Hd : m (clearCaptures gs x)
                 (fun y => if Nat.eqb min 0 && Nat.eqb (pos y) (pos x) then None
                           else repeatMatcher m gs fuel (Nat.pred min) (decr max) greedy y c) =
               m (clearCaptures gs x)
                 (fun y => if Nat.eqb min 0 && Nat.eqb (pos y) (pos x) then None
                           else repeatMatcher m gs fuel (Nat.pred min) (decr max) greedy y c')).
  { apply m_ext. intros y w Hy. apply extends_clear in Hy.
    destruct (Nat.eqb min 0 && Nat.eqb (pos y) (pos x)); auto.
    apply IH. intros z v Hz. apply (Hc z (w ++ v)). eapply extends_trans; eauto. }
  rewrite Hd, Hx. reflexivity.
Qed.

(** More fuel than [min + length rest + 1] changes nothing: the branch of
    [repeatMatcher] for exhausted fuel is not reached. *)
Lemma repeatMatcher_fuel fuel1 : forall fuel2 min max greedy x c,
  min + List.length (rest x) + 1 <= fuel1 ->
  min + List.length (rest x) + 1 <= fuel2 ->
  repeatMatcher m gs fuel1 min max greedy x c =
  repeatMatcher m gs fuel2 min max greedy x c.
Proof.
  induction fuel1 as [|fuel1 IH]; intros fuel2 min max greedy x c H1 H2; [lia|].
  destruct fuel2 as [|fuel2]; [lia|]. simpl.
  assert (Hd : m (clearCaptures gs x)
                 (fun y => if Nat.eqb min 0 && Nat.eqb (pos y) (pos x) then None
                           else repeatMatcher m gs fuel1 (Nat.pred min) (decr max) greedy y c) =
               m (clearCaptures gs x)
                 (fun y => if Nat.eqb min 0 && Nat.eqb (pos y) (pos x) then None
                           else repeatMatcher m gs fuel2 (Nat.pred min) (decr max) greedy y c)).
  { apply m_ext. intros y w Hy. apply extends_clear in Hy.
    destruct (Nat.eqb_spec min 0) as [Hmin|Hmin]; simpl.
    - destruct (Nat.eqb_spec (pos y) (pos x)) as [Hp|Hp]; auto.
      pose proof (extends_length _ _ _ Hy) as Hl.
      assert (w <> []) as Hw.
      { intros ->. destruct Hy as [_ Hy]. simpl in Hy. lia. }
      destruct w as [|a w]; [congruence|]. simpl in Hl.
      apply IH; subst min; simpl; lia.
    - pose proof (extends_length _ _ _ Hy) as Hl.
      apply IH; destruct min; simpl; try congruence; lia. }
  rewrite Hd. reflexivity.
Qed.

End RepeatFuel.

Lemma matcher_extensional r : extensional (matcher r).
Proof.
  induction r; intros x c c' Hc; simpl.
  - apply (Hc x []), extends_refl.
  - destruct (rest x) as [|a tl] eqn:Hr; auto.
    destruct (p a); auto. apply (Hc _ [a]). split; simpl; auto. lia.
  - apply IHr1. intros y w Hy. apply IHr2. intros z v Hz.
    apply (Hc z (w ++ v)). eapply extends_trans; eauto.
  - rewrite (IHr1 x c c' Hc), (IHr2 x c c' Hc). reflexivity.
  - apply repeatMatcher_ext; auto.
  - apply IHr. intros y w Hy. apply (Hc _ w). exact Hy.
  - destruct (Nat.eqb (pos x) 0); auto. apply (Hc x []), extends_refl.
  - destruct (rest x); auto. apply (Hc x []), extends_refl.
  - destruct (matcher r x Some); auto. apply (Hc _ []). split; simpl; auto.
Qed.

(** The quantifier with the fuel [matcher] gives it behaves as with any
    larger amount. *)
Theorem quantifier_fuel_suffices r min max greedy x c fuel :
  min + List.length (rest x) + 1 <= fuel ->
  matcher (Rep min max greedy r) x c =
  repeatMatcher (matcher r) (groups r) fuel min max greedy x c.
Proof.
  intros Hf. simpl. apply repeatMatcher_fuel; auto using matcher_extensional.
Qed.

(** ** Searches *)

Lemma matchAt_sound r i suffix m :
  wellFormed r = true -> matchAt r i suffix = Some m ->
  index m = i /\ (exists tl, suffix = matched m ++ tl) /\ goodMatch r m.
Proof.
  intros Hwf. unfold matchAt.
  destruct (matcher r (MState i suffix []) Some) as [y|] eqn:Hm; [|discriminate].
  intros Heq. inversion Heq; subst m; clear Heq.
  apply (matcher_sound r Hwf) in Hm as (y' & w & Hc & He & Hl & Hk & Hs).
  inversion Hc; subst y'.
  pose proof (firstn_extends _ _ _ He) as Hf. simpl in Hf.
  unfold goodMatch. simpl. rewrite Hf.
  destruct He as [Hr Hp]. simpl in *.
  repeat split; auto. exists (rest y). exact Hr.
Qed.

Lemma searchFrom_sound r : wellFormed r = true ->
  forall suffix i m, searchFrom r i suffix = Some m -> goodMatch r m.
Proof.
  intros Hwf. induction suffix as [|c tl IH]; intros i m; simpl.
  - destruct (matchAt r i []) eqn:Hm; [|discriminate].
    intros Heq; inversion Heq; subst. eapply matchAt_sound; eauto.
  - destruct (matchAt r i (c :: tl)) eqn:Hm.
    + intros Heq; inversion Heq; subst. eapply matchAt_sound; eauto.
    + apply IH.
Qed.

Lemma exec_sound r s m :
  wellFormed r = true -> exec r s = Some m -> goodMatch r m.
Proof. intros Hwf. apply searchFrom_sound. exact Hwf. Qed.

Lemma exec_group r s m j g :
  wellFormed r = true -> spine j g r -> exec r s = Some m ->
  exists v, group m j = Some v /\ lang g v.
Proof.
  intros Hwf Hsp He. destruct (exec_sound _ _ _ Hwf He) as (_ & _ & Hg). auto.
Qed.

Lemma execAll_sound r : wellFormed r = true ->
  forall suffix skip i, Forall (goodMatch r) (execAll r skip i suffix).
Proof.
  intros Hwf. induction suffix as [|c tl IH]; intros skip i; simpl.
  - destruct skip; [|constructor].
    destruct (matchAt r i []) eqn:Hm; constructor; auto.
    eapply matchAt_sound; eauto.
  - destruct skip; [|apply IH].
    destruct (matchAt r i (c :: tl)) eqn:Hm; [constructor|]; auto.
    eapply matchAt_sound; eauto.
Qed.

(** ** Words of simple patterns *)

Lemma lang_rep_chr min max greedy p w :
  lang (Rep min max greedy (Chr p)) w ->
  Forall (fun c => p c = true) w /\ min <= List.length w /\
  match max with Some m => List.length w <= m | None => True end.
Proof.
  simpl. intros (ws & -> & Hf & Hmin & Hmax).
  assert (Forall (fun c => p c = true) (List.concat ws) /\
          List.length (List.concat ws) = List.length ws) as [H1 H2].
  { clear Hmin Hmax. induction Hf as [|w ws (c & -> & Hc) _ [IH1 IH2]]; simpl; auto. }
  rewrite H2. auto.
Qed.

Lemma lang_chr p w : lang (Chr p) w -> exists c, w = [c] /\ p c = true.
Proof. auto. Qed.

Lemma lang_letters r : forall w, lang r w -> Forall (fun c => letters r c = true) w.
Proof.
  induction r; simpl; intros w Hl; subst; auto.
  - destruct Hl as (c & -> & Hc). auto.
  - destruct Hl as (u & v & -> & Hu & Hv). apply Forall_app. split.
    + eapply Forall_impl; [|apply IHr1, Hu]. simpl. intros c ->. reflexivity.
    + eapply Forall_impl; [|apply IHr2, Hv]. simpl. intros c ->. apply orb_true_r.
  - destruct Hl as [Hl | Hl].
    + eapply Forall_impl; [|apply IHr1, Hl]. simpl. intros c ->. reflexivity.
    + eapply Forall_impl; [|apply IHr2, Hl]. simpl. intros c ->. apply orb_true_r.
  - destruct Hl as (ws & -> & Hf & _). induction Hf; simpl; auto.
    apply Forall_app. auto.
Qed.

End RegexFacts.

Import RegexFacts.

(* ====================================================================== *)
(** * The parser *)
(* ====================================================================== *)

(** ** Timestamp extraction *)

Lemma lang_clockTime v :
  lang clockTime v ->
  exists m s, v = m ++ char ":" :: s /\
    Forall (fun c => isDigit c = true) m /\ Forall (fun c => isDigit c = true) s /\
    1 <= List.length m <= 2 /\ List.length s = 2.
Proof.
  unfold clockTime, cat. cbn [fold_right].
  intros (m & v1 & -> & Hm & c & v2 & -> & Hc & s & e & -> & Hs & He).
  apply lang_rep_chr in Hm as (Hm1 & Hm2 & Hm3).
  apply lang_rep_chr in Hs as (Hs1 & Hs2 & Hs3).
  destruct Hc as (c0 & -> & Hc). apply N.eqb_eq in Hc. subst c0.
  simpl in He. subst e. rewrite app_nil_r.
  exists m, s. simpl. repeat split; auto; lia.
Qed.

Lemma isDigit_not_colon c : isDigit c = true -> N.eqb (char ":") c = false.
Proof.
  unfold isDigit. intros H. apply andb_prop in H as [H1 H2].
  apply N.leb_le in H1, H2. apply N.eqb_neq. cbn. lia.
Qed.

Lemma splitBy_none p s :
  Forall (fun c => p c = false) s -> splitBy p s = [s].
Proof.
  induction 1 as [|c s Hc _ IH]; simpl; auto. rewrite Hc, IH. reflexivity.
Qed.

Lemma splitBy_app p m c s :
  Forall (fun c => p c = false) m -> p c = true ->
  splitBy p (m ++ c :: s) = m :: splitBy p s.
Proof.
  induction 1 as [|d m Hd _ IH]; simpl; intros Hc.
  - rewrite Hc. reflexivity.
  - rewrite Hd, IH; auto.
Qed.

Lemma decimal_digits s : Forall (fun c => isDigit c = true) s ->
  forall acc, exists n, decimal s acc = Some n.
Proof.
  induction 1 as [|c s Hc _ IH]; simpl; intros acc; eauto.
  rewrite Hc. apply IH.
Qed.

Lemma split_clock m s :
  Forall (fun c => isDigit c = true) m -> Forall (fun c => isDigit c = true) s ->
  split (char ":") (m ++ char ":" :: s) = [m; s].
Proof.
  intros Hm Hs. unfold split. rewrite splitBy_app.
  - rewrite splitBy_none; auto.
    eapply Forall_impl; [|exact Hs]. apply isDigit_not_colon.
  - eapply Forall_impl; [|exact Hm]. apply isDigit_not_colon.
  - apply N.eqb_refl.
Qed.

Lemma wellFormed_timestampRegex : wellFormed timestampRegex = true.
Proof. reflexivity. Qed.

Lemma spine_timestampRegex : spine 1 clockTime timestampRegex.
Proof. simpl. auto. Qed.

Section Timestamps.
Context {H : Host}.

(** The fields of the timestamp built from a match whose first group is
    [m:s]. *)
Lemma timestampOfMatch_fields text mr m s mins secs :
  group mr 1 = Some (m ++ char ":" :: s) ->
  Forall (fun c => isDigit c = true) m -> Forall (fun c => isDigit c = true) s ->
  Number m = Some mins -> Number s = Some secs ->
  exists t, timestampOfMatch text mr = Ok t /\
    Timestamp.seconds t = mins * 60 + secs /\
    Timestamp.time t =
      toString mins ++ lit ":" ++ padStart (toString secs) 2 (char "0").
Proof.
  intros Hg Hm Hs Hnm Hns. unfold timestampOfMatch.
  rewrite Hg. cbn [defined bind]. rewrite split_clock by assumption.
  cbn [map nth_error nth defined bind]. rewrite Hnm, Hns. cbn [numeric bind].
  eexists. split; [reflexivity|]. simpl. auto.
Qed.

Lemma timestampOfMatch_total text mr :
  goodMatch timestampRegex mr -> exists t, timestampOfMatch text mr = Ok t.
Proof.
  intros (_ & _ & Hg).
  destruct (Hg 1 clockTime spine_timestampRegex) as (v & Hv & Hl).
  apply lang_clockTime in Hl as (m & s & -> & Hm & Hs & _).
  destruct (decimal_digits _ Hm 0) as [mins Hmins].
  destruct (decimal_digits _ Hs 0) as [secs Hsecs].
  destruct (timestampOfMatch_fields text mr _ _ _ _ Hv Hm Hs Hmins Hsecs) as (t & Ht & _).
  eauto.
Qed.

Lemma mapM_total {A B : Type} (f : A -> result B) (xs : list A) :
  Forall (fun x => exists y, f x = Ok y) xs -> exists ys, mapM f xs = Ok ys.
Proof.
  induction 1 as [|x xs [y Hy] _ [ys IH]]; simpl; eauto.
  rewrite Hy, IH. simpl. eauto.
Qed.

Lemma extractTimestamps_total text : exists ts, extractTimestamps text = Ok ts.
Proof.
  unfold extractTimestamps. destruct (isEmpty text); eauto.
  apply mapM_total.
  eapply Forall_impl; [|apply execAll_sound, wellFormed_timestampRegex].
  intros mr. apply timestampOfMatch_total.
Qed.

End Timestamps.

Lemma timestamp_word w :
  lang timestampRegex w ->
  exists c v, w = c :: v /\ Forall (fun d => d <> char "[") v.
Proof.
  unfold timestampRegex, cat. cbn [fold_right].
  intros (u & v & -> & (c & -> & _) & Hv).
  exists c, v. split; [reflexivity|].
  apply lang_letters in Hv.
  eapply Forall_impl; [|exact Hv]. intros d Hd ->. vm_compute in Hd. discriminate.
Qed.

Lemma matchAt_token i m s post :
  Forall (fun c => isDigit c = true) m -> Forall (fun c => isDigit c = true) s ->
  1 <= List.length m <= 2 -> List.length s = 2 ->
  matchAt timestampRegex i (token m s ++ post) =
  Some (MatchRes i (i + List.length (token m s)) (token m s)
                 [(1, m ++ char ":" :: s)]).
Proof.
  intros Hm Hs Hlm Hls.
  destruct s as [|s1 [|s2 [|? ?]]]; try discriminate.
  inversion Hs as [|? ? Hs1 Hs']; subst. inversion Hs' as [|? ? Hs2 _]; subst.
  destruct m as [|m1 [|m2 [|? ?]]]; simpl in Hlm; try lia.
  - inversion Hm as [|? ? Hm1 _]; subst.
    unfold matchAt, token. cbn -[Nat.sub firstn].
    rewrite Hm1. cbn -[Nat.sub firstn]. rewrite Hs1. cbn -[Nat.sub firstn].
    rewrite Hs2. cbn -[Nat.sub firstn].
    replace (S (S (S (S (S (S i))))) - i) with 6 by lia.
    replace (S (S (S (S (S i)))) - S i) with 4 by lia.
    replace (i + 6) with (S (S (S (S (S (S i)))))) by lia.
    reflexivity.
  - inversion Hm as [|? ? Hm1 Hm']; subst. inversion Hm' as [|? ? Hm2 _]; subst.
    unfold matchAt, token. cbn -[Nat.sub firstn].
    rewrite Hm1. cbn -[Nat.sub firstn]. rewrite Hm2. cbn -[Nat.sub firstn].
    rewrite Hs1. cbn -[Nat.sub firstn].
    rewrite Hs2. cbn -[Nat.sub firstn].
    replace (match i with 0 => false | S m' => Nat.eqb i m' end) with false
      by (symmetry; change (Nat.eqb (S i) i = false); apply Nat.eqb_neq; lia).
    cbn -[Nat.sub firstn].
    replace (S (S (S (S (S (S (S i)))))) - i) with 7 by lia.
    replace (S (S (S (S (S (S i))))) - S i) with 5 by lia.
    replace (i + 7) with (S (S (S (S (S (S (S i))))))) by lia.
    reflexivity.
Qed.

Lemma prefix_before_marker (x : codeunit) pre r v tl :
  pre ++ x :: r = v ++ tl -> Forall (fun d => d <> x) v ->
  List.length v <= List.length pre.
Proof.
  revert v. induction pre as [|p pre IH]; intros v Heq Hv.
  - destruct v as [|d v]; simpl; auto.
    simpl in Heq. inversion Heq; subst. inversion Hv; subst. congruence.
  - destruct v as [|d v]; simpl; [lia|].
    simpl in Heq. inversion Heq; subst. inversion Hv; subst.
    apply le_n_S. eapply IH; eauto.
Qed.

(** The scan of [execAll] cannot jump over an opening bracket, so it
    attempts a match at every bracketed token. *)
Lemma execAll_reaches tok post m0 :
  forall pre skip i,
  skip <= List.length pre ->
  matchAt timestampRegex (i + List.length pre) (char "[" :: tok ++ post) = Some m0 ->
  exists k, nth_error (execAll timestampRegex skip i (pre ++ char "[" :: tok ++ post)) k
            = Some m0.
Proof.
  induction pre as [|c pre IH]; intros skip i Hskip Hm0.
  - simpl in Hskip. assert (skip = 0) by lia. subst skip.
    rewrite Nat.add_0_r in Hm0. exists 0.
    cbn [app execAll]. rewrite Hm0. reflexivity.
  - cbn [app List.length] in *.
    replace (i + S (List.length pre)) with (S i + List.length pre) in Hm0 by lia.
    destruct skip as [|skip]; cbn [execAll].
    + destruct (matchAt timestampRegex i (c :: pre ++ char "[" :: tok ++ post))
        as [m|] eqn:Hm.
      * destruct (matchAt_sound _ _ _ _ wellFormed_timestampRegex Hm)
          as (Hi & (tl & Htl) & Hend & Hl & _).
        apply timestamp_word in Hl as (c0 & v & Hv & Hnb).
        rewrite Hv in Htl, Hend. simpl in Htl. inversion Htl as [[Hc Hrest]].
        pose proof (prefix_before_marker _ _ _ _ _ Hrest Hnb) as Hlen.
        destruct (IH (endIndex m - i - 1) (S i)) as [k Hk]; auto.
        { rewrite Hend, Hi. simpl. lia. }
        exists (S k). exact Hk.
      * apply IH; auto. lia.
    + apply IH; auto. lia.
Qed.

Lemma mapM_nth {A B : Type} (f : A -> result B) :
  forall xs ys k x, mapM f xs = Ok ys -> nth_error xs k = Some x ->
  exists y, nth_error ys k = Some y /\ f x = Ok y.
Proof.
  induction xs as [|a xs IH]; intros ys k x Hm Hk.
  - destruct k; discriminate.
  - simpl in Hm. destruct (f a) as [b|] eqn:Hfa; [|discriminate]. simpl in Hm.
    destruct (mapM f xs) as [bs|] eqn:Hxs; [|discriminate]. simpl in Hm.
    inversion Hm; subst ys. destruct k as [|k]; simpl in *.
    + inversion Hk; subst. eauto.
    + eapply IH; eauto.
Qed.

Lemma digit_cases c : isDigit c = true ->
  In c [48; 49; 50; 51; 52; 53; 54; 55; 56; 57]%N.
Proof.
  unfold isDigit. intros Hc. apply andb_prop in Hc as [H1 H2].
  apply N.leb_le in H1, H2. simpl.
  assert (c = 48 \/ c = 49 \/ c = 50 \/ c = 51 \/ c = 52 \/ c = 53 \/ c = 54 \/
          c = 55 \/ c = 56 \/ c = 57)%N as Hd by lia.
  intuition auto.
Qed.

Lemma two_digits_padded s secs :
  Forall (fun c => isDigit c = true) s -> List.length s = 2 ->
  Number s = Some secs -> padStart (toString secs) 2 (char "0") = s.
Proof.
  intros Hs Hl. destruct s as [|s1 [|s2 [|? ?]]]; try discriminate.
  inversion Hs as [|? ? H1 Hs']; subst. inversion Hs' as [|? ? H2 _]; subst.
  apply digit_cases in H1, H2. simpl in H1, H2.
  intros Hn.
  repeat (destruct H1 as [H1|H1]; [subst s1|]); try contradiction;
    repeat (destruct H2 as [H2|H2]; [subst s2|]); try contradiction;
    vm_compute in Hn; inversion Hn; subst secs; reflexivity.
Qed.

Section C1.
Context {H : Host}.

(** C1.  Let the text contain the token [[m:s]], where [m] is one or two
    digits with value [mins] and [s] is two digits with value [secs].  Then
    [extractTimestamps] returns, and the match of its loop that starts at
    the token gives a timestamp with [seconds = mins * 60 + secs] and
    [time] the decimal form of [mins] (no padding), a colon, and [secs]
    padded with zeros to two digits, which is [s] again. *)
Theorem C1_extractTimestamps_bracket_token (pre m s post : jsstring) :
  Forall (fun c => isDigit c = true) m -> 1 <= List.length m <= 2 ->
  Forall (fun c => isDigit c = true) s -> List.length s = 2 ->
  let text := pre ++ token m s ++ post in
  exists mins secs ts k occurrence t,
    Number m = Some mins /\ Number s = Some secs /\
    extractTimestamps text = Ok ts /\
    nth_error (execAll timestampRegex 0 0 text) k = Some occurrence /\
    index occurrence = List.length pre /\ matched occurrence = token m s /\
    nth_error ts k = Some t /\
    Timestamp.seconds t = mins * 60 + secs /\
    Timestamp.time t = toString mins ++ lit ":" ++ padStart (toString secs) 2 (char "0") /\
    padStart (toString secs) 2 (char "0") = s.
Proof.
  intros Hm Hlm Hs Hls text.
  destruct (decimal_digits _ Hm 0) as [mins Hmins].
  destruct (decimal_digits _ Hs 0) as [secs Hsecs].
  destruct (extractTimestamps_total text) as [ts Hts].
  pose proof (matchAt_token (List.length pre) m s post Hm Hs Hlm Hls) as Hat.
  set (occ := MatchRes (List.length pre) (List.length pre + List.length (token m s))
                       (token m s) [(1, m ++ char ":" :: s)]) in *.
  assert (exists k, nth_error (execAll timestampRegex 0 0 text) k = Some occ) as [k Hk].
  { unfold text.
    change (token m s ++ post)
      with (char "[" :: (m ++ char ":" :: s ++ [char "]"]) ++ post) in *.
    apply execAll_reaches; [lia|]. exact Hat. }
  assert (Hne : isEmpty text = false).
  { unfold text, token. destruct pre; reflexivity. }
  unfold extractTimestamps in Hts. rewrite Hne in Hts.
  destruct (mapM_nth _ _ _ _ _ Hts Hk) as (t & Hnt & Ht).
  destruct (timestampOfMatch_fields text occ m s mins secs eq_refl Hm Hs Hmins Hsecs)
    as (t' & Ht' & Hsec & Htime).
  rewrite Ht in Ht'. inversion Ht'; subst t'.
  exists mins, secs, ts, k, occ, t.
  unfold extractTimestamps. rewrite Hne.
  repeat split; auto.
  apply two_digits_padded; auto.
Qed.

End C1.

(** ** Section parsing *)

Lemma isEmpty_nil s : isEmpty s = true -> s = [].
Proof. destruct s; [reflexivity | discriminate]. Qed.

Lemma wellFormed_hashHeader : wellFormed hashHeader = true.
Proof. reflexivity. Qed.

Lemma spine_hashHeader : spine 2 (plus dot) hashHeader.
Proof. simpl. auto 10. Qed.

Lemma hashHeader_anchored i suffix : matchAt hashHeader (S i) suffix = None.
Proof. reflexivity. Qed.

Lemma searchFrom_anchored suffix : forall i, searchFrom hashHeader (S i) suffix = None.
Proof.
  induction suffix as [|c tl IH]; intros i; cbn [searchFrom];
    rewrite hashHeader_anchored; auto.
Qed.

(** What the lines counted as hash headings look like: one to three hash
    signs, white space, and text up to the end of the line. *)
Lemma hashHeading_form line :
  hashHeading line = true ->
  exists hashes spaces text rest,
    trim line = hashes ++ spaces ++ text ++ rest /\
    1 <= List.length hashes <= 3 /\
    Forall (fun c => c = char "#") hashes /\
    1 <= List.length spaces /\
    Forall (fun c => isWhiteSpace c = true) spaces /\
    1 <= List.length text /\
    Forall (fun c => isLineTerminator c = false) text.
Proof.
  unfold hashHeading, test, exec. intros Ht.
  destruct (trim line) as [|c tl] eqn:Hl; cbn [searchFrom] in Ht.
  - discriminate.
  - destruct (matchAt hashHeader 0 (c :: tl)) as [m|] eqn:Hm.
    + destruct (matchAt_sound _ _ _ _ wellFormed_hashHeader Hm)
        as (_ & (rest & Hrest) & _ & Hlang & _).
      unfold hashHeader, cat in Hlang. cbn [fold_right lang] in Hlang.
      destruct Hlang as (e0 & w0 & Hw & -> & hashes & w1 & -> & Hh & spaces & w2 & ->
                         & Hs & text & e1 & -> & Htx & ->).
      pose proof (@lang_rep_chr 1 (Some 3) true (exactly "#") hashes Hh) as (Hh1 & Hh2 & Hh3).
      pose proof (@lang_rep_chr 1 None true isWhiteSpace spaces Hs) as (Hs1 & Hs2 & _).
      pose proof (@lang_rep_chr 1 None true (fun c => negb (isLineTerminator c)) text Htx)
        as (Ht1 & Ht2 & _).
      exists hashes, spaces, text, rest. rewrite Hrest, Hw. simpl.
      rewrite app_nil_r, <- !app_assoc.
      repeat split; auto.
      * eapply Forall_impl; [|exact Hh1]. intros a Ha.
        apply N.eqb_eq in Ha. auto.
      * eapply Forall_impl; [|exact Ht1]. intros a Ha.
        apply negb_true_iff in Ha. exact Ha.
    + rewrite searchFrom_anchored in Ht. discriminate.
Qed.

Lemma headerTitle_total t : exists o, headerTitle t = Ok o.
Proof.
  unfold headerTitle. destruct (exec hashHeader t) as [m|] eqn:Hm.
  - destruct (exec_group _ _ _ _ _ wellFormed_hashHeader spine_hashHeader Hm)
      as (v & Hv & _).
    rewrite Hv. simpl. eauto.
  - destruct (exec boldHeader t); eauto.
Qed.

Lemma headerTitle_recognized l :
  recognized l = true <-> exists t, headerTitle (trim l) = Ok (Some t).
Proof.
  unfold recognized, test, headerTitle.
  destruct (exec hashHeader (trim l)) as [m|] eqn:Hm.
  - destruct (exec_group _ _ _ _ _ wellFormed_hashHeader spine_hashHeader Hm)
      as (v & Hv & _).
    rewrite Hv. simpl. split; eauto.
  - destruct (exec boldHeader (trim l)); simpl; split; eauto; try discriminate.
    intros [t Ht]. discriminate.
Qed.

Lemma headerTitle_not_recognized l :
  recognized l = false -> headerTitle (trim l) = Ok None.
Proof.
  intros Hr. destruct (headerTitle_total (trim l)) as [[t|] Ho]; auto.
  assert (recognized l = true) by (apply headerTitle_recognized; eauto). congruence.
Qed.

Lemma blank_not_recognized l : blank l = true -> recognized l = false.
Proof.
  unfold blank, recognized. intros Hb. apply isEmpty_nil in Hb. rewrite Hb. reflexivity.
Qed.

Lemma titleOfLine_length l :
  List.length (titleOfLine l) = if recognized l then 1 else 0.
Proof.
  unfold titleOfLine. destruct (recognized l) eqn:Hr.
  - apply headerTitle_recognized in Hr as [t ->]. reflexivity.
  - rewrite headerTitle_not_recognized; auto.
Qed.

Lemma headingTitles_length lines :
  Forall (fun l => recognized l = true -> hashHeading l = true) lines ->
  List.length (headingTitles lines) = count_occ Bool.bool_dec (map hashHeading lines) true.
Proof.
  induction 1 as [|l ls Hl _ IH]; simpl; auto.
  unfold headingTitles in *. simpl. rewrite length_app, IH, titleOfLine_length.
  destruct (recognized l) eqn:Hr.
  - rewrite Hl by reflexivity. destruct (bool_dec true true); [reflexivity|congruence].
  - assert (hashHeading l = false) as ->.
    { unfold recognized, hashHeading in *. apply orb_false_elim in Hr. tauto. }
    destruct (bool_dec false true); [discriminate|reflexivity].
Qed.

Lemma preambleb_spec lines : preambleb lines = true <-> preamble lines.
Proof.
  induction lines as [|l ls IH]; simpl.
  - split; [discriminate|]. intros (b & x & a & He & _). destruct b; discriminate.
  - destruct (blank l) eqn:Hb.
    + rewrite IH. split.
      * intros (b & x & a & -> & Hf & Hx & Hr). exists (l :: b), x, a.
        repeat split; auto. constructor; auto using blank_not_recognized.
      * intros (b & x & a & He & Hf & Hx & Hr). destruct b as [|b0 b].
        -- simpl in He. inversion He; subst. congruence.
        -- simpl in He. inversion He; subst. inversion Hf; subst.
           exists b, x, a. auto.
    + destruct (recognized l) eqn:Hr.
      * split; [discriminate|]. intros (b & x & a & He & Hf & Hx & Hrx).
        destruct b as [|b0 b]; simpl in He; inversion He; subst.
        -- congruence.
        -- inversion Hf; subst. congruence.
      * split; auto. intros _. exists [], l, ls. repeat split; auto.
Qed.

Section Sections.
Context {H : Host}.

Lemma finalizeSection_ok s :
  exists s', finalizeSection s = Ok s' /\ finalized s' /\
             ReportSection.id s' = ReportSection.id s /\
             ReportSection.title s' = ReportSection.title s.
Proof.
  unfold finalizeSection.
  destruct (extractTimestamps_total (trim (ReportSection.content s))) as [ts Hts].
  rewrite Hts. simpl. eexists. split; [reflexivity|].
  unfold finalized. simpl. repeat split; eauto.
Qed.

Lemma heads_app a b : heads (a ++ b) = heads a ++ heads b.
Proof. apply map_app. Qed.

Lemma parseLines_spec lines : forall secs cur,
  Forall finalized secs ->
  exists secs' cur',
    foldM parseLine lines (secs, cur) = Ok (secs', cur') /\
    Forall finalized secs' /\
    heads secs' ++ optHead cur' =
      heads secs ++ optHead cur ++
      (match cur with
       | None => if preambleb lines then [introHead] else []
       | Some _ => []
       end) ++ map headOfTitle (headingTitles lines).
Proof.
  induction lines as [|l ls IH]; intros secs cur Hfin.
  - exists secs, cur. simpl. repeat split; auto.
    destruct cur; simpl; rewrite ?app_nil_r; reflexivity.
  - cbn [foldM]. unfold parseLine at 1. fold (blank l).
    unfold headingTitles. cbn [flat_map preambleb]. fold (headingTitles ls).
    destruct (blank l) eqn:Hb.
    + (* blank line *)
      cbn [bind].
      unfold titleOfLine. rewrite (headerTitle_not_recognized l (blank_not_recognized l Hb)).
      cbn [app].
      destruct (IH secs (option_map (fun s => appendContent s newline) cur) Hfin)
        as (secs' & cur' & Hf & Hfin' & Hh).
      exists secs', cur'. repeat split; auto.
      rewrite Hh. destruct cur; reflexivity.
    + destruct (recognized l) eqn:Hr.
      * (* heading *)
        pose proof Hr as Hr'.
        apply headerTitle_recognized in Hr' as [t Ht].
        unfold titleOfLine. rewrite Ht. cbn [bind app map].
        destruct cur as [s|].
        -- destruct (finalizeSection_ok s) as (s' & Hs' & Hfs' & Hid & Htt).
           rewrite Hs'. cbn [bind].
           destruct (IH (secs ++ [s'])
                       (Some (ReportSection.mk (generateSectionId t) t [] [])))
             as (secs' & cur' & Hf & Hfin' & Hh).
           { apply Forall_app. auto. }
           exists secs', cur'. repeat split; auto.
           rewrite Hh, heads_app. simpl. rewrite Hid, Htt, <- app_assoc. reflexivity.
        -- cbn [bind].
           destruct (IH secs (Some (ReportSection.mk (generateSectionId t) t [] [])) Hfin)
             as (secs' & cur' & Hf & Hfin' & Hh).
           exists secs', cur'. repeat split; auto.
      * (* content *)
        unfold titleOfLine. rewrite (headerTitle_not_recognized l Hr). cbn [bind app].
        destruct cur as [s|].
        -- destruct (IH secs (Some (appendContent s (l ++ newline))) Hfin)
             as (secs' & cur' & Hf & Hfin' & Hh).
           exists secs', cur'. repeat split; auto.
        -- destruct (IH secs
                       (Some (ReportSection.mk (lit "intro") (lit "Introduction")
                                               (l ++ newline) [])) Hfin)
             as (secs' & cur' & Hf & Hfin' & Hh).
           exists secs', cur'. repeat split; auto.
Qed.

End Sections.

(** ** The hash form and the pattern of the parser *)

Lemma filter_all {A : Type} (l : list A) : filter (fun _ => true) l = l.
Proof. induction l; simpl; congruence. Qed.

Lemma takeWhile_dropWhile p s : s = takeWhile p s ++ dropWhile p s.
Proof. induction s as [|c s IH]; simpl; auto. destruct (p c); simpl; congruence. Qed.

Lemma takeWhile_Forall p s : Forall (fun c => p c = true) (takeWhile p s).
Proof.
  induction s as [|c s IH]; simpl; auto. destruct (p c) eqn:Hc; auto.
Qed.

Lemma dropWhile_head p s :
  match dropWhile p s with c :: _ => p c = false | [] => True end.
Proof.
  induction s as [|c s IH]; simpl; auto. destruct (p c) eqn:Hc; auto.
Qed.

Lemma takeWhile_app p h tl :
  Forall (fun c => p c = true) h ->
  match tl with c :: _ => p c = false | [] => True end ->
  takeWhile p (h ++ tl) = h /\ dropWhile p (h ++ tl) = tl.
Proof.
  intros Hh Htl. induction Hh as [|c h Hc _ [IH1 IH2]]; simpl.
  - destruct tl as [|c tl]; simpl; auto. rewrite Htl. auto.
  - rewrite Hc, IH1, IH2. auto.
Qed.

Lemma dropWhile_nil p s : dropWhile p s = [] -> Forall (fun c => p c = true) s.
Proof.
  induction s as [|c s IH]; simpl; auto. destruct (p c) eqn:Hc; [auto|discriminate].
Qed.

Lemma trimStart_dropWhile s : trimStart s = dropWhile isWhiteSpace s.
Proof. induction s as [|c s IH]; simpl; auto. rewrite IH. reflexivity. Qed.

(** A trimmed text does not end with white space. *)
Lemma trim_last s u c : trim s = u ++ [c] -> isWhiteSpace c = false.
Proof.
  unfold trim, trimEnd. intros Heq.
  apply (f_equal (@rev _)) in Heq. rewrite rev_involutive, rev_app_distr in Heq.
  simpl in Heq. rewrite trimStart_dropWhile in Heq.
  pose proof (dropWhile_head isWhiteSpace (rev (trimStart s))) as Hh.
  rewrite Heq in Hh. exact Hh.
Qed.

Lemma lineTerminator_whiteSpace c : isLineTerminator c = true -> isWhiteSpace c = true.
Proof.
  unfold isLineTerminator, mem. cbn [existsb]. intros Hc.
  rewrite !orb_true_iff, !N.eqb_eq in Hc.
  decompose [or] Hc; subst; try discriminate; reflexivity.
Qed.

Lemma whiteSpace_not_hash c : isWhiteSpace c = true -> exactly "#" c = false.
Proof.
  intros Hc. unfold exactly. destruct (N.eqb_spec (char "#") c) as [Heq|]; [|reflexivity].
  subst c. vm_compute in Hc. discriminate.
Qed.

(** A greedy repetition of one character class takes the whole run of
    such characters when the rest of the pattern matches after it. *)
Lemma repeat_chr_greedy p w : forall fuel min max i tl cs (c : cont) z,
  Forall (fun a => p a = true) w ->
  match tl with a :: _ => p a = false | [] => True end ->
  min <= List.length w ->
  match max with Some M => List.length w <= M | None => True end ->
  List.length w < fuel ->
  c (MState (i + List.length w) tl cs) = Some z ->
  repeatMatcher (matcher (Chr p)) [] fuel min max true (MState i (w ++ tl) cs) c
  = Some z.
Proof.
  induction w as [|a w IH]; intros fuel min max i tl cs c z Hw Htl Hmin Hmax Hfuel Hc.
  - simpl in Hmin. assert (min = 0) by lia. subst min.
    destruct fuel as [|fuel]; [simpl in Hfuel; lia|].
    simpl List.length in Hc. rewrite Nat.add_0_r in Hc.
    cbn [repeatMatcher]. destruct (isZero max); [exact Hc|].
    cbn [Nat.eqb negb clearCaptures existsb filter app matcher rest pos caps].
    rewrite filter_all.
    destruct tl as [|b tl]; [exact Hc|]. rewrite Htl. exact Hc.
  - destruct fuel as [|fuel]; [simpl in Hfuel; lia|].
    inversion Hw as [|? ? Ha Hw']; subst.
    simpl List.length in *.
    assert (Hz : isZero max = false).
    { destruct max as [[|M]|]; simpl; auto. lia. }
    cbn [repeatMatcher]. rewrite Hz.
    cbn [clearCaptures existsb negb app matcher rest pos caps].
    rewrite filter_all, Ha.
    replace (Nat.eqb (S i) i) with false by (symmetry; apply Nat.eqb_neq; lia).
    rewrite andb_false_r.
    assert (Hrec : repeatMatcher (matcher (Chr p)) [] fuel (Nat.pred min) (decr max) true
                     (MState (S i) (w ++ tl) cs) c = Some z).
    { apply IH; auto.
      - lia.
      - destruct max as [M|]; simpl; auto. lia.
      - lia.
      - replace (S i + List.length w) with (i + S (List.length w)) by lia. exact Hc. }
    cbn [matcher] in Hrec. rewrite Hrec. destruct (negb (Nat.eqb min 0)); reflexivity.
Qed.

Lemma firstn_length_app {A : Type} (l1 l2 : list A) n :
  n = List.length l1 -> firstn n (l1 ++ l2) = l1.
Proof.
  intros ->. rewrite firstn_app, Nat.sub_diag, firstn_all. simpl. apply app_nil_r.
Qed.

Lemma matcher_rep_chr_greedy p min max i w tl cs (c : cont) z :
  Forall (fun a => p a = true) w ->
  match tl with a :: _ => p a = false | [] => True end ->
  min <= List.length w ->
  match max with Some M => List.length w <= M | None => True end ->
  c (MState (i + List.length w) tl cs) = Some z ->
  matcher (Rep min max true (Chr p)) (MState i (w ++ tl) cs) c = Some z.
Proof.
  intros Hw Htl Hmin Hmax Hc.
  change (repeatMatcher (matcher (Chr p)) []
            (min + List.length (w ++ tl) + 1) min max true (MState i (w ++ tl) cs) c
          = Some z).
  apply repeat_chr_greedy; auto. rewrite length_app. lia.
Qed.

Lemma matcher_seq a b x c :
  matcher (Seq a b) x c = matcher a x (fun y => matcher b y c).
Proof. reflexivity. Qed.

Lemma matcher_grp j a x c :
  matcher (Grp j a) x c =
  matcher a x (fun y => c (setCapture j (firstn (pos y - pos x) (rest x)) y)).
Proof. reflexivity. Qed.

Lemma matcher_bol s cs c : matcher Bol (MState 0 s cs) c = c (MState 0 s cs).
Proof. reflexivity. Qed.

(** The parser's pattern on a line of the hash form: the second group is
    the text of the heading. *)
Lemma matchAt_hashHeader h w v r :
  Forall (fun c => exactly "#" c = true) h -> 1 <= List.length h <= 3 ->
  Forall (fun c => isWhiteSpace c = true) w -> w <> [] ->
  Forall (fun c => isLineTerminator c = false) v ->
  (exists c v', v = c :: v' /\ isWhiteSpace c = false) ->
  match r with c :: _ => isLineTerminator c = true | [] => True end ->
  exists m, matchAt hashHeader 0 (h ++ w ++ v ++ r) = Some m /\ group m 2 = Some v.
Proof.
  intros Hh Hhl Hw Hwne Hv (c0 & v' & Hv0 & Hc0) Hr.
  set (final := MState (List.length h + List.length w + List.length v) r [(2, v); (1, h)]).
  assert (Hrun : matcher hashHeader (MState 0 (h ++ w ++ v ++ r) []) Some = Some final).
  { unfold hashHeader, cat, times, plus, space, dot, one. cbn [fold_right].
    rewrite matcher_seq, matcher_bol, matcher_seq, matcher_grp.
    apply matcher_rep_chr_greedy; auto; try lia.
    { destruct w as [|a w]; [congruence|]. simpl.
      inversion Hw; subst. apply whiteSpace_not_hash. assumption. }
    unfold setCapture. cbn [pos rest caps].
    rewrite (firstn_length_app h (w ++ v ++ r)) by lia.
    rewrite matcher_seq.
    apply matcher_rep_chr_greedy; auto.
    { rewrite Hv0. simpl. exact Hc0. }
    { destruct w; [congruence|simpl; lia]. }
    rewrite matcher_seq, matcher_grp.
    apply matcher_rep_chr_greedy; auto.
    { eapply Forall_impl; [|exact Hv]. intros a Ha. rewrite Ha. reflexivity. }
    { destruct r as [|b r]; auto. rewrite Hr. reflexivity. }
    { rewrite Hv0. simpl. lia. }
    unfold setCapture. cbn [pos rest caps].
    rewrite (firstn_length_app v r) by lia. cbn [matcher].
    unfold final. reflexivity. }
  unfold matchAt. rewrite Hrun. eexists. split; [reflexivity|]. reflexivity.
Qed.

(** The parts of a line of the hash form. *)
Lemma atxHeading_parts line :
  atxHeading line = true ->
  exists h w r,
    trim line = h ++ w ++ headingText line ++ r /\
    Forall (fun c => exactly "#" c = true) h /\ 1 <= List.length h <= 3 /\
    Forall (fun c => isWhiteSpace c = true) w /\ w <> [] /\
    Forall (fun c => isLineTerminator c = false) (headingText line) /\
    (exists c v', headingText line = c :: v' /\ isWhiteSpace c = false) /\
    match r with c :: _ => isLineTerminator c = true | [] => True end.
Proof.
  unfold atxHeading, headingText, headingMarks, afterMarks.
  set (t := trim line). set (a := dropWhile isHash t).
  set (b := dropWhile isWhiteSpace a).
  intros Hatx. apply andb_prop in Hatx as [Hatx Hb].
  apply andb_prop in Hatx as [Hatx Ha]. apply andb_prop in Hatx as [H1 H3].
  apply Nat.leb_le in H1, H3.
  exists (takeWhile isHash t), (takeWhile isWhiteSpace a),
         (dropWhile (fun c => negb (isLineTerminator c)) b).
  split; [|split; [|split; [|split; [|split; [|split; [|split]]]]]].
  - rewrite <- (takeWhile_dropWhile (fun c => negb (isLineTerminator c)) b).
    unfold b. rewrite <- (takeWhile_dropWhile isWhiteSpace a).
    unfold a. apply takeWhile_dropWhile.
  - eapply Forall_impl; [|apply takeWhile_Forall]. intros c Hc.
    unfold isHash in Hc. unfold exactly. rewrite N.eqb_sym. exact Hc.
  - lia.
  - apply takeWhile_Forall.
  - destruct a as [|c a']; [discriminate|]. simpl. rewrite Ha. discriminate.
  - eapply Forall_impl; [|apply takeWhile_Forall]. intros c Hc.
    apply negb_true_iff in Hc. exact Hc.
  - pose proof (dropWhile_head isWhiteSpace a) as Hh. fold b in Hh.
    destruct b as [|c b']; [discriminate|]. simpl.
    assert (Hlt : isLineTerminator c = false).
    { destruct (isLineTerminator c) eqn:Hl; auto.
      apply lineTerminator_whiteSpace in Hl. congruence. }
    rewrite Hlt. simpl. eauto.
  - pose proof (dropWhile_head (fun c => negb (isLineTerminator c)) b) as Hh.
    destruct (dropWhile _ b) as [|c r]; auto. apply negb_false_iff in Hh. exact Hh.
Qed.

Lemma exec_hashHeader_atx line :
  atxHeading line = true ->
  exists m, exec hashHeader (trim line) = Some m /\ group m 2 = Some (headingText line).
Proof.
  intros Hatx.
  destruct (atxHeading_parts line Hatx) as (h & w & r & Ht & Hh & Hhl & Hw & Hwne & Hv & Hv0 & Hr).
  destruct (matchAt_hashHeader h w (headingText line) r Hh Hhl Hw Hwne Hv Hv0 Hr)
    as (m & Hm & Hg).
  exists m. split; [|exact Hg].
  rewrite Ht. unfold exec.
  destruct (h ++ w ++ headingText line ++ r); cbn [searchFrom]; rewrite Hm; reflexivity.
Qed.

(** The pattern of the parser takes a line for a hash heading exactly when
    the line has the hash form. *)
Lemma hashHeading_atx line : hashHeading line = atxHeading line.
Proof.
  destruct (atxHeading line) eqn:Hatx.
  - destruct (exec_hashHeader_atx line Hatx) as (m & Hm & _).
    unfold hashHeading, test. rewrite Hm. reflexivity.
  - destruct (hashHeading line) eqn:Hh; [|reflexivity].
    destruct (hashHeading_form line Hh)
      as (hashes & spaces & text & rest & Ht & Hl & Hhs & Hsl & Hsp & Htl & Htx).
    destruct spaces as [|c sp]; [simpl in Hsl; lia|].
    assert (Hc : isWhiteSpace c = true) by (inversion Hsp; assumption).
    assert (Hsplit : takeWhile isHash (trim line) = hashes /\
                     dropWhile isHash (trim line) = (c :: sp) ++ text ++ rest).
    { rewrite Ht. apply takeWhile_app.
      - eapply Forall_impl; [|exact Hhs]. intros d ->. reflexivity.
      - simpl. pose proof (whiteSpace_not_hash c Hc) as Hn.
        unfold exactly in Hn. unfold isHash. rewrite N.eqb_sym. exact Hn. }
    destruct Hsplit as [Htake Hdrop].
    unfold atxHeading, headingMarks, afterMarks in Hatx.
    rewrite Htake, Hdrop in Hatx.
    assert (H1 : (1 <=? List.length hashes) = true) by (apply Nat.leb_le; lia).
    assert (H3 : (List.length hashes <=? 3) = true) by (apply Nat.leb_le; lia).
    rewrite H1, H3 in Hatx. cbn [andb app] in Hatx. rewrite Hc in Hatx.
    cbn [andb] in Hatx. apply negb_false_iff in Hatx.
    destruct (dropWhile isWhiteSpace (c :: sp ++ text ++ rest)) eqn:Hd; [|discriminate].
    apply dropWhile_nil in Hd.
    (* the trimmed line would end with white space *)
    exfalso.
    assert (Hne : sp ++ text ++ rest <> []).
    { destruct text; [simpl in Htl; lia|]. destruct sp; discriminate. }
    destruct (exists_last Hne) as (u & z & Hu).
    assert (Hz : isWhiteSpace z = true).
    { inversion Hd as [|d ds _ Hd' Heq]. rewrite Hu in Hd'.
      apply Forall_app in Hd' as [_ Hz]. inversion Hz. assumption. }
    assert (Hlast : trim line = (hashes ++ c :: u) ++ [z]).
    { rewrite Ht. cbn [app]. rewrite Hu, <- !app_assoc. reflexivity. }
    apply trim_last in Hlast. congruence.
Qed.

Lemma headerTitle_atx line :
  atxHeading line = true -> headerTitle (trim line) = Ok (Some (atxTitle line)).
Proof.
  intros Hatx. destruct (exec_hashHeader_atx line Hatx) as (m & Hm & Hg).
  unfold headerTitle. rewrite Hm, Hg. reflexivity.
Qed.

Section HashHeadings.
Variable lines : list jsstring.
Hypothesis only_hash : Forall (fun l => recognized l = true -> atxHeading l = true) lines.

Lemma recognized_atx : Forall (fun l => recognized l = atxHeading l) lines.
Proof.
  eapply Forall_impl; [|exact only_hash]. intros l Hl.
  destruct (atxHeading l) eqn:Hatx.
  - unfold recognized. change (test hashHeader (trim l)) with (hashHeading l).
    rewrite hashHeading_atx, Hatx. reflexivity.
  - destruct (recognized l) eqn:Hr; [|reflexivity].
    rewrite (Hl Hr) in Hatx. discriminate.
Qed.

Lemma only_hashHeading : Forall (fun l => recognized l = true -> hashHeading l = true) lines.
Proof.
  eapply Forall_impl; [|exact only_hash]. intros l Hl Hr.
  rewrite hashHeading_atx. auto.
Qed.

Lemma count_atx :
  count_occ Bool.bool_dec (map hashHeading lines) true =
  List.length (filter atxHeading lines).
Proof.
  clear only_hash. induction lines as [|l ls IH]; simpl; auto.
  rewrite hashHeading_atx. destruct (atxHeading l); simpl.
  - destruct (bool_dec true true); [|congruence]. rewrite IH. reflexivity.
  - destruct (bool_dec false true); [discriminate|]. exact IH.
Qed.

Lemma headingTitles_atx : headingTitles lines = map atxTitle (filter atxHeading lines).
Proof.
  pose proof recognized_atx as Hr. clear only_hash.
  unfold headingTitles. induction Hr as [|l ls Hl _ IH]; simpl; auto.
  rewrite IH. unfold titleOfLine. destruct (atxHeading l) eqn:Hatx.
  - rewrite (headerTitle_atx l Hatx). reflexivity.
  - rewrite (headerTitle_not_recognized l) by congruence. reflexivity.
Qed.

Lemma preamble_contentFirst : preamble lines <-> contentFirst lines.
Proof.
  pose proof recognized_atx as Hr. rewrite Forall_forall in Hr.
  unfold preamble, contentFirst.
  split; intros (before & line & after & Heq & Hb & Hbl & Hl);
    exists before, line, after; (split; [exact Heq|]);
    (assert (Hin : forall l, In l before \/ l = line -> In l lines)
       by (intros l [Hi| ->]; rewrite Heq; apply in_or_app; [left|right; left]; auto));
    (split; [|split; [exact Hbl|]]).
  - rewrite Forall_forall in *. intros l Hi. rewrite <- Hr by auto. auto.
  - rewrite <- Hr by auto. exact Hl.
  - rewrite Forall_forall in *. intros l Hi. rewrite Hr by auto. auto.
  - rewrite Hr by auto. exact Hl.
Qed.

End HashHeadings.

Section C2.
Context {H : Host}.

Lemma heads_intro ss hs :
  heads ss = introHead :: hs ->
  exists intro rest, ss = intro :: rest /\
    ReportSection.id intro = lit "intro" /\
    ReportSection.title intro = lit "Introduction" /\ heads rest = hs.
Proof.
  destruct ss as [|s ss]; simpl; [discriminate|].
  intros Heq. inversion Heq. exists s, ss. auto.
Qed.

Lemma heads_titles ss ts :
  heads ss = map headOfTitle ts -> map ReportSection.title ss = ts.
Proof.
  revert ts. induction ss as [|s ss IH]; intros [|t ts]; simpl; try discriminate; auto.
  intros Heq. inversion Heq. f_equal. auto.
Qed.

(** The sections, counted with the pattern of the parser: one for each
    line that the pattern takes for a hash heading, when no line is taken
    for a heading of the other convention. *)
Lemma sections_of_hash_headings (markdown : jsstring) :
  let lines := split 10%N markdown in
  let N := count_occ Bool.bool_dec (map hashHeading lines) true in
  Forall (fun l => recognized l = true -> hashHeading l = true) lines ->
  exists sections,
    parseReportSections markdown = Ok sections /\
    Forall finalized sections /\
    ((preamble lines /\
      exists intro rest,
        sections = intro :: rest /\
        ReportSection.id intro = lit "intro" /\
        ReportSection.title intro = lit "Introduction" /\
        List.length rest = N /\
        map ReportSection.title rest = headingTitles lines)
     \/
     (~ preamble lines /\
      List.length sections = N /\
      map ReportSection.title sections = headingTitles lines)).
Proof.
  intros lines N Hhash.
  pose proof (headingTitles_length lines Hhash) as HN. fold N in HN.
  unfold parseReportSections. destruct (isEmpty markdown) eqn:He.
  - apply isEmpty_nil in He. subst markdown.
    exists []. split; [reflexivity|]. split; [constructor|]. right.
    split; [|split; reflexivity].
    rewrite <- preambleb_spec. discriminate.
  - fold lines.
    destruct (parseLines_spec lines [] None (Forall_nil _))
      as (secs' & cur' & Hf & Hfin & Hh).
    rewrite Hf. cbn [bind fst snd].
    assert (exists sections,
      (match cur' with
       | Some s => done <- finalizeSection s;; Ok (secs' ++ [done])
       | None => Ok secs'
       end = Ok sections)%js /\ Forall finalized sections /\
      heads sections = heads secs' ++ optHead cur') as (sections & Hs & Hfs & Hhs).
    { destruct cur' as [s|].
      - destruct (finalizeSection_ok s) as (s' & Hs' & Hfs' & Hid & Htt).
        rewrite Hs'. exists (secs' ++ [s']). split; [reflexivity|].
        split; [apply Forall_app; auto|].
        rewrite heads_app. simpl. rewrite Hid, Htt. reflexivity.
      - exists secs'. simpl. rewrite app_nil_r. auto. }
    exists sections. split; [exact Hs|]. split; [exact Hfs|].
    rewrite Hh in Hhs. cbn [heads map optHead app] in Hhs.
    destruct (preambleb lines) eqn:Hp.
    + left. split; [apply preambleb_spec; exact Hp|].
      apply heads_intro in Hhs as (intro & rest & -> & Hid & Htt & Hrest).
      exists intro, rest. repeat split; auto.
      * rewrite <- HN, <- (length_map ReportSection.title rest).
        rewrite (heads_titles _ _ Hrest). reflexivity.
      * apply heads_titles. exact Hrest.
    + right. split.
      * rewrite <- preambleb_spec. congruence.
      * split.
        -- rewrite <- HN, <- (length_map ReportSection.title sections).
           rewrite (heads_titles _ _ Hhs). reflexivity.
        -- apply heads_titles. exact Hhs.
Qed.


End C2.

(** ** Findings and strengths *)

Lemma wellFormed_boldRun : wellFormed boldRun = true.
Proof. reflexivity. Qed.

Lemma spine_boldRun : spine 1 (plus (Chr (noneOf (lit "*")))) boldRun.
Proof. simpl. auto 10. Qed.

Lemma extractTitle_total text : exists t, extractTitle text = Ok t.
Proof.
  unfold extractTitle. destruct (exec boldRun text) as [m|] eqn:Hm.
  - destruct (exec_group _ _ _ _ _ wellFormed_boldRun spine_boldRun Hm) as (v & Hv & _).
    rewrite Hv. simpl. eauto.
  - destruct (isEmpty _ || _); eauto.
Qed.

Lemma eqb_spec s t : reflect (s = t) (JsString.eqb s t).
Proof.
  revert t. induction s as [|a s IH]; intros [|b t]; simpl; try (constructor; congruence).
  destruct (N.eqb_spec a b) as [->|Hne]; simpl.
  - destruct (IH t) as [->|Hne]; constructor; congruence.
  - constructor. congruence.
Qed.

(** ** Sorting *)

Section Sorting.
Variable A : Type.
Variable cmp : A -> A -> number.
Variable le : A -> A -> Prop.
Hypothesis le_cmp : forall a b, positive (cmp a b) = false -> le a b.
Hypothesis cmp_le : forall a b, positive (cmp a b) = true -> le b a.
Hypothesis le_trans : forall a b c, le a b -> le b c -> le a c.

Lemma insertSorted_In x l y : In y (insertSorted cmp x l) -> y = x \/ In y l.
Proof.
  induction l as [|z l IH]; simpl.
  - intuition auto.
  - destruct (positive (cmp x z)); simpl; intuition auto.
Qed.

Lemma insertSorted_sorted x l :
  StronglySorted le l -> StronglySorted le (insertSorted cmp x l).
Proof.
  induction 1 as [|y l Hs IH Hy]; simpl.
  - repeat constructor.
  - destruct (positive (cmp x y)) eqn:Hp.
    + constructor; auto. apply Forall_forall. intros z Hz.
      apply insertSorted_In in Hz as [->|Hz]; auto.
      rewrite Forall_forall in Hy. auto.
    + constructor; [constructor; auto|].
      constructor; auto. eapply Forall_impl; [|exact Hy].
      intros z Hz. eapply le_trans; eauto.
Qed.

Lemma sort_sorted l : StronglySorted le (sort cmp l).
Proof.
  induction l as [|x l IH]; simpl; [constructor|].
  apply insertSorted_sorted. exact IH.
Qed.

End Sorting.

Lemma earliest_firstSeconds f :
  earliest (Finding.timestamps f) =
  match firstSeconds f with Some s => Fin (Z.of_nat s) | None => PosInf end.
Proof.
  unfold earliest, firstSeconds. destruct (map Timestamp.seconds _); reflexivity.
Qed.

Lemma byEarliest_le a b : positive (byEarliest a b) = false -> chronological a b.
Proof.
  unfold byEarliest, chronological. rewrite !earliest_firstSeconds.
  destruct (firstSeconds a), (firstSeconds b); simpl; auto; try discriminate.
  intros Hp. apply Z.ltb_ge in Hp. lia.
Qed.

Lemma byEarliest_ge a b : positive (byEarliest a b) = true -> chronological b a.
Proof.
  unfold byEarliest, chronological. rewrite !earliest_firstSeconds.
  destruct (firstSeconds a), (firstSeconds b); simpl; auto; try discriminate.
  intros Hp. apply Z.ltb_lt in Hp. lia.
Qed.

Lemma chronological_trans a b c :
  chronological a b -> chronological b c -> chronological a c.
Proof.
  unfold chronological.
  destruct (firstSeconds a), (firstSeconds b), (firstSeconds c); try tauto; lia.
Qed.

Lemma sort_byEarliest_sorted l : StronglySorted chronological (sort byEarliest l).
Proof.
  apply sort_sorted with (le := chronological);
    eauto using byEarliest_le, byEarliest_ge, chronological_trans.
Qed.

(** Sorting and deduplication do not look at identifiers. *)
Lemma insertSorted_eraseId x l :
  map eraseId (insertSorted byEarliest x l) =
  insertSorted byEarliest (eraseId x) (map eraseId l).
Proof.
  induction l as [|y l IH]; simpl; auto.
  change (byEarliest (eraseId x) (eraseId y)) with (byEarliest x y).
  destruct (positive (byEarliest x y)); simpl; congruence.
Qed.

Lemma sort_eraseId l :
  map eraseId (sort byEarliest l) = sort byEarliest (map eraseId l).
Proof.
  induction l as [|x l IH]; simpl; auto.
  rewrite insertSorted_eraseId, IH. reflexivity.
Qed.

Lemma existsb_pointwise {A : Type} (p q : A -> bool) l :
  (forall x, p x = q x) -> existsb p l = existsb q l.
Proof. intros Hpq. induction l as [|x l IH]; simpl; auto. rewrite Hpq, IH. reflexivity. Qed.

Section Findings.
Context {H : Host}.

Lemma dedupFrom_eraseId seen l :
  map eraseId (dedupFrom seen l) = dedupFrom seen (map eraseId l).
Proof.
  revert seen. induction l as [|f l IH]; intros seen; simpl; auto.
  change (dedupKey (eraseId f)) with (dedupKey f).
  destruct (existsb _ seen); simpl; rewrite IH; reflexivity.
Qed.

(** ** Deduplication *)

Lemma dedupKey_titleKey f : dedupKey f = titleKey f.
Proof.
  unfold dedupKey, titleKey, substring.
  rewrite Nat.min_0_l, Nat.max_0_l, Nat.sub_0_r. reflexivity.
Qed.

Lemma sameKey_spec f g : reflect (titleKey f = titleKey g) (sameKey f g).
Proof.
  unfold sameKey. destruct (list_eq_dec N.eq_dec (titleKey f) (titleKey g));
    constructor; assumption.
Qed.

Lemma sameKey_dedupKey f g : JsString.eqb (dedupKey g) (dedupKey f) = sameKey g f.
Proof.
  rewrite (dedupKey_titleKey g), (dedupKey_titleKey f).
  destruct (eqb_spec (titleKey g) (titleKey f)) as [E|E], (sameKey_spec g f) as [E'|E'];
    try reflexivity; contradiction.
Qed.

Lemma dedupFrom_keepFirst earlier seen items :
  (forall k, existsb (JsString.eqb k) seen =
             existsb (fun g => JsString.eqb (dedupKey g) k) earlier) ->
  dedupFrom seen items = keepFirstOfEachKey earlier items.
Proof.
  revert earlier seen. induction items as [|f rest IH]; intros earlier seen Hs; simpl; auto.
  rewrite Hs.
  replace (existsb (fun g => sameKey g f) earlier)
    with (existsb (fun g => JsString.eqb (dedupKey g) (dedupKey f)) earlier)
    by (apply existsb_pointwise; intros g; apply sameKey_dedupKey).
  destruct (existsb (fun g => JsString.eqb (dedupKey g) (dedupKey f)) earlier) eqn:He.
  - apply IH. intros k. rewrite Hs, existsb_app. simpl.
    destruct (eqb_spec (dedupKey f) k) as [<-|Hne]; simpl.
    + rewrite He. reflexivity.
    + rewrite orb_false_r. reflexivity.
  - f_equal. apply IH. intros k. rewrite existsb_app. simpl.
    rewrite Hs, orb_false_r.
    destruct (eqb_spec k (dedupKey f)) as [->|Hne].
    + destruct (eqb_spec (dedupKey f) (dedupKey f)); [|congruence].
      rewrite orb_true_r. reflexivity.
    + destruct (eqb_spec (dedupKey f) k); [congruence|].
      rewrite orb_false_r. reflexivity.
Qed.

Lemma keepFirst_In items : forall earlier f,
  In f (keepFirstOfEachKey earlier items) <->
  exists before after,
    items = before ++ f :: after /\
    Forall (fun g => titleKey g <> titleKey f) (earlier ++ before).
Proof.
  induction items as [|a rest IH]; intros earlier f; simpl.
  - split; [intros []|]. intros (before & after & Heq & _). destruct before; discriminate.
  - assert (Hrest : In f (keepFirstOfEachKey (earlier ++ [a]) rest) <->
              exists before after, a :: rest = (a :: before) ++ f :: after /\
                Forall (fun g => titleKey g <> titleKey f) (earlier ++ a :: before)).
    { rewrite IH. split; intros (before & after & Heq & Hall); exists before, after.
      - rewrite <- app_assoc in Hall. simpl. split; [congruence|exact Hall].
      - rewrite <- app_assoc. simpl in *. split; [congruence|exact Hall]. }
    assert (Hhead : existsb (fun g => sameKey g a) earlier = false <->
                    Forall (fun g => titleKey g <> titleKey a) earlier).
    { rewrite Forall_forall. split.
      - intros He g Hg Heq.
        assert (existsb (fun g => sameKey g a) earlier = true) as Ht; [|congruence].
        apply existsb_exists. exists g. split; auto.
        destruct (sameKey_spec g a); congruence.
      - intros Hall. destruct (existsb _ earlier) eqn:He; auto.
        apply existsb_exists in He as (g & Hg & Hs).
        destruct (sameKey_spec g a); [|discriminate]. exfalso. eapply Hall; eauto. }
    split.
    + intros Hin.
      destruct (existsb (fun g => sameKey g a) earlier) eqn:He.
      * apply Hrest in Hin as (before & after & Heq & Hall).
        exists (a :: before), after. auto.
      * destruct Hin as [<- | Hin].
        -- exists [], rest. rewrite app_nil_r. split; [reflexivity|].
           apply Hhead. reflexivity.
        -- apply Hrest in Hin as (before & after & Heq & Hall).
           exists (a :: before), after. auto.
    + intros (before & after & Heq & Hall).
      destruct before as [|b before]; simpl in Heq.
      * inversion Heq; subst. rewrite app_nil_r in Hall.
        apply Hhead in Hall. rewrite Hall. left. reflexivity.
      * inversion Heq; subst b rest.
        assert (In f (keepFirstOfEachKey (earlier ++ [a]) (before ++ f :: after))) as Hin.
        { apply Hrest. exists before, after. auto. }
        destruct (existsb _ earlier); [exact Hin|right; exact Hin].
Qed.

End Findings.

Lemma sameData_app a1 a2 b1 b2 :
  sameData a1 a2 -> sameData b1 b2 -> sameData (a1 ++ b1) (a2 ++ b2).
Proof. unfold sameData. intros Ha Hb. rewrite !map_app. congruence. Qed.

Lemma agree_ret fs1 fs2 : sameData fs1 fs2 -> agree (ret fs1) (ret fs2).
Proof. intros Hs n1 n2. exists fs1, fs2, n1, n2. auto. Qed.

Lemma agree_bind (g1 g2 : gen (list Finding.t)) (f1 f2 : list Finding.t -> gen (list Finding.t)) :
  agree g1 g2 ->
  (forall fs1 fs2, sameData fs1 fs2 -> agree (f1 fs1) (f2 fs2)) ->
  agree (genBind g1 f1) (genBind g2 f2).
Proof.
  intros Hg Hf n1 n2.
  destruct (Hg n1 n2) as (fs1 & fs2 & k1 & k2 & H1 & H2 & Hs).
  destruct (Hf fs1 fs2 Hs k1 k2) as (r1 & r2 & j1 & j2 & Hr1 & Hr2 & Hrs).
  exists r1, r2, j1, j2. unfold genBind. rewrite H1, H2. simpl. auto.
Qed.

Lemma foldG_agree {A : Type} (f : list Finding.t -> A -> gen (list Finding.t)) :
  (forall x fs1 fs2, sameData fs1 fs2 -> agree (f fs1 x) (f fs2 x)) ->
  forall xs fs1 fs2, sameData fs1 fs2 -> agree (foldG f xs fs1) (foldG f xs fs2).
Proof.
  intros Hf. induction xs as [|x xs IH]; intros fs1 fs2 Hs; simpl.
  - apply agree_ret. exact Hs.
  - apply agree_bind; auto.
Qed.

Section Extractors.
Context {H : Host}.

Lemma findingOfLine_agree section entry fs1 fs2 :
  sameData fs1 fs2 ->
  agree (findingOfLine section fs1 entry) (findingOfLine section fs2 entry).
Proof.
  intros Hs. unfold findingOfLine. destruct entry as [index line].
  destruct (test findingItem (trim line) && (15 <? length (trim line)));
    [|apply agree_ret; exact Hs].
  set (text := trim (replace itemPrefix [] (trim line))).
  destruct (10 <? length text); [|apply agree_ret; exact Hs].
  destruct (extractTimestamps_total text) as [ts Hts].
  destruct (extractTitle_total text) as [t Ht].
  intros n1 n2. unfold genBind, lift, randomUUID, ret. rewrite Hts, Ht. simpl.
  do 4 eexists. split; [reflexivity|]. split; [reflexivity|].
  apply sameData_app; auto. reflexivity.
Qed.

Lemma strengthOfLine_agree line fs1 fs2 :
  sameData fs1 fs2 ->
  agree (strengthOfLine fs1 line) (strengthOfLine fs2 line).
Proof.
  intros Hs. unfold strengthOfLine.
  destruct (test listItem (trim line) && (15 <? length (trim line)));
    [|apply agree_ret; exact Hs].
  set (text := trim (replace itemPrefix [] (trim line))).
  destruct (10 <? length text); [|apply agree_ret; exact Hs].
  destruct (extractTimestamps_total text) as [ts Hts].
  destruct (extractTitle_total text) as [t Ht].
  intros n1 n2. unfold genBind, lift, randomUUID, ret. rewrite Hts, Ht. simpl.
  do 4 eexists. split; [reflexivity|]. split; [reflexivity|].
  apply sameData_app; auto. reflexivity.
Qed.

Lemma collectFindings_agree section fs1 fs2 :
  sameData fs1 fs2 ->
  agree (collectFindings fs1 section) (collectFindings fs2 section).
Proof.
  intros Hs. unfold collectFindings. apply agree_bind.
  - unfold extractFindingsFromSection. apply foldG_agree; [|reflexivity].
    intros x a b Hab. apply findingOfLine_agree. exact Hab.
  - intros a b Hab. apply agree_ret. apply sameData_app; auto.
Qed.

Lemma collectStrengths_agree section fs1 fs2 :
  sameData fs1 fs2 ->
  agree (collectStrengths fs1 section) (collectStrengths fs2 section).
Proof.
  intros Hs. unfold collectStrengths. apply foldG_agree; auto.
  intros x a b Hab. apply strengthOfLine_agree. exact Hab.
Qed.

Lemma sameData_dedup fs1 fs2 :
  sameData fs1 fs2 -> sameData (deduplicateFindings fs1) (deduplicateFindings fs2).
Proof.
  unfold sameData, deduplicateFindings. intros Hs.
  rewrite !dedupFrom_eraseId. congruence.
Qed.

Lemma sameData_sort fs1 fs2 :
  sameData fs1 fs2 -> sameData (sort byEarliest fs1) (sort byEarliest fs2).
Proof. unfold sameData. intros Hs. rewrite !sort_eraseId. congruence. Qed.

Lemma extractFindings_agree sections raw1 raw2 :
  agree (extractFindings sections raw1) (extractFindings sections raw2).
Proof.
  unfold extractFindings. apply agree_bind.
  - apply foldG_agree; [|reflexivity].
    intros x a b Hab. apply collectFindings_agree. exact Hab.
  - intros a b Hab. apply agree_ret. apply sameData_sort, sameData_dedup. exact Hab.
Qed.

Lemma extractStrengths_agree sections raw1 raw2 :
  agree (extractStrengths sections raw1) (extractStrengths sections raw2).
Proof.
  unfold extractStrengths. apply agree_bind.
  - apply foldG_agree; [|reflexivity].
    intros x a b Hab. apply collectStrengths_agree. exact Hab.
  - intros a b Hab. apply agree_ret. apply sameData_dedup. exact Hab.
Qed.

(** The findings collected from the sections, in source order, before
    deduplication. *)
Lemma collected_findings_total sections n :
  exists collected k,
    foldG collectFindings (filter (titleHas findingSectionKeywords) sections) [] n
    = Ok (collected, k).
Proof.
  destruct (foldG_agree collectFindings
              (fun x a b Hab => collectFindings_agree x a b Hab)
              (filter (titleHas findingSectionKeywords) sections) [] [] eq_refl n n)
    as (c & _ & k & _ & Hc & _).
  eauto.
Qed.

Lemma collected_strengths_total sections n :
  exists collected k,
    foldG collectStrengths (filter (titleHas strengthKeywords) sections) [] n
    = Ok (collected, k).
Proof.
  destruct (foldG_agree collectStrengths
              (fun x a b Hab => collectStrengths_agree x a b Hab)
              (filter (titleHas strengthKeywords) sections) [] [] eq_refl n n)
    as (c & _ & k & _ & Hc & _).
  eauto.
Qed.

(** C10.  For the same sections and any two [rawContent] arguments,
    [extractFindings] returns in both runs, whatever identifiers the two
    runs draw, and the two results are the same once the identifiers are
    erased; run from the same identifier counter they are equal.  The same
    holds of [extractStrengths]. *)
Theorem C10_rawContent_has_no_influence (sections : list ReportSection.t)
    (rawContent1 rawContent2 : jsstring) (n1 n2 : nat) :
  (exists fs1 fs2 k1 k2,
     extractFindings sections rawContent1 n1 = Ok (fs1, k1) /\
     extractFindings sections rawContent2 n2 = Ok (fs2, k2) /\
     map eraseId fs1 = map eraseId fs2) /\
  (exists ss1 ss2 k1 k2,
     extractStrengths sections rawContent1 n1 = Ok (ss1, k1) /\
     extractStrengths sections rawContent2 n2 = Ok (ss2, k2) /\
     map eraseId ss1 = map eraseId ss2) /\
  extractFindings sections rawContent1 n1 = extractFindings sections rawContent2 n1 /\
  extractStrengths sections rawContent1 n1 = extractStrengths sections rawContent2 n1.
Proof.
  split; [apply extractFindings_agree|].
  split; [apply extractStrengths_agree|].
  split; reflexivity.
Qed.



End Extractors.

(** ** The assembled report, and the scenarios *)

Section C3.
Context {H : Host}.

(** C3.  On the empty string [parseSelfScoutReport] returns a report (it
    does not throw) with no sections, findings or strengths, the default
    assessment, and the warning that no strengths were identified. *)
Theorem C3_empty_input (analysisType : AnalysisType) (n : nat) :
  exists report,
    parseSelfScoutReport [] analysisType n = Ok (report, S n) /\
    SelfScoutReport.sections report = [] /\
    SelfScoutReport.findings report = [] /\
    SelfScoutReport.strengths report = [] /\
    SelfScoutReport.overallAssessment report =
      OverallAssessment.mk (lit "Unknown") (lit "Unknown")
                           (lit "No assessment available.") /\
    In (lit "No strengths were identified in this analysis.")
       (ReportMetadata.validationWarnings (SelfScoutReport.metadata report)).
Proof.
  remember (parseSelfScoutReport [] analysisType n) as run eqn:Hrun.
  vm_compute in Hrun. subst run.
  eexists. split; [reflexivity|]. simpl. repeat split; auto.
Qed.

End C3.


Lemma lastIndexOf_aux_le c s : forall i from best,
  (best <= Z.of_nat from)%Z ->
  (lastIndexOf_aux c s i from best <= Z.of_nat from)%Z.
Proof.
  induction s as [|d s IH]; intros i from best Hb; simpl; auto.
  destruct (Nat.ltb_spec from i); auto.
  apply IH. destruct (N.eqb d c); auto. lia.
Qed.

Lemma lastIndexOf_le s c from : (lastIndexOf s c from <= Z.of_nat from)%Z.
Proof. apply lastIndexOf_aux_le. lia. Qed.

Lemma substring_length s n : length (substring s 0 n) <= n.
Proof.
  unfold substring, length. rewrite Nat.min_0_l, Nat.max_0_l, Nat.sub_0_r. simpl.
  rewrite length_firstn. lia.
Qed.

(** The summary is never longer than 1501 characters. *)
Lemma truncateSummary_length s : length (truncateSummary s) <= 1501.
Proof.
  unfold truncateSummary.
  destruct (Nat.ltb_spec 1500 (length s)) as [Hlong|Hshort]; [|lia].
  cbv zeta.
  pose proof (lastIndexOf_le s (char ".") 1500) as H1.
  pose proof (lastIndexOf_le s (char "?") 1500) as H2.
  pose proof (lastIndexOf_le s (char "!") 1500) as H3.
  destruct (Z.ltb_spec 500 (Z.max (Z.max (lastIndexOf s (char ".") 1500)
                                         (lastIndexOf s (char "?") 1500))
                                  (lastIndexOf s (char "!") 1500))) as [Hb|Hb].
  - etransitivity; [apply substring_length|]. lia.
  - etransitivity; [apply substring_length|]. lia.
Qed.

Lemma lastIndexOf_aux_absent c s : forall i from best,
  Forall (fun d => d <> c) s -> lastIndexOf_aux c s i from best = best.
Proof.
  induction s as [|d s IH]; intros i from best Hs; simpl; auto.
  inversion Hs as [|? ? Hd Hs']; subst.
  destruct (from <? i); auto. rewrite IH by assumption.
  destruct (N.eqb_spec d c); congruence.
Qed.

(** A long summary without sentence punctuation is cut to 1500 characters
    exactly. *)
Lemma truncateSummary_no_punctuation s :
  1500 < length s ->
  Forall (fun d => d <> char "." /\ d <> char "?" /\ d <> char "!") s ->
  truncateSummary s = substring s 0 1500 /\ length (truncateSummary s) = 1500.
Proof.
  intros Hlong Hs. unfold truncateSummary.
  destruct (Nat.ltb_spec 1500 (length s)); [|lia]. cbv zeta.
  unfold lastIndexOf.
  rewrite !lastIndexOf_aux_absent
    by (eapply Forall_impl; [|exact Hs]; cbv beta; intros d (Ha & Hb & Hc);
        assumption).
  change (500 <? Z.max (Z.max (-1) (-1)) (-1))%Z with false. cbv iota.
  split; [reflexivity|].
  unfold substring, length in *. rewrite Nat.min_0_l, Nat.max_0_l, Nat.sub_0_r.
  simpl skipn. rewrite length_firstn. lia.
Qed.

(** C6.  A summary whose first sentence ends at offset 1500 is cut behind
    that full stop, at 1501 characters. *)
Theorem C6_summary_of_1501_characters :
  exists assessment,
    extractOverallAssessment (H := asciiHost) longAssessment [] = Ok assessment /\
    length (OverallAssessment.summary assessment) = 1501.
Proof.
  eexists. split; vm_compute; reflexivity.
Qed.

(** C7.  In a list with blank lines between the items, the third item
    extracted stands on the fifth line of the section; no severity keyword
    occurs, and its severity is medium. *)
Theorem C7_severity_follows_line_index :
  exists items k third findings,
    extractFindingsFromSection (H := asciiHost) spacedWeaknesses 0 = Ok (items, k) /\
    nth_error items 2 = Some third /\
    noSeverityKeyword (H := asciiHost) (ReportSection.title spacedWeaknesses)
                      (Finding.description third) = true /\
    Finding.severity third = Severity.medium /\
    extractFindings (H := asciiHost) [spacedWeaknesses] [] 0 = Ok (findings, k) /\
    In third findings.
Proof.
  do 4 eexists. split; [vm_compute; reflexivity|].
  split; [reflexivity|]. split; [vm_compute; reflexivity|].
  split; [vm_compute; reflexivity|]. split; [vm_compute; reflexivity|].
  simpl. auto.
Qed.

(** C8.  A line that starts with neither a bullet nor a number, and has
    a number and a full stop further on, becomes a finding. *)
Theorem C8_prose_line_becomes_a_finding :
  startsWithMarker (trim (ReportSection.content proseWeaknesses)) = false /\
  exists finding k,
    extractFindingsFromSection (H := asciiHost) proseWeaknesses 0 = Ok ([finding], k) /\
    Finding.description finding = lit "Opponent landed Then he circled away".
Proof.
  split; [vm_compute; reflexivity|].
  do 2 eexists. split; vm_compute; reflexivity.
Qed.

(** C9 as stated fails: the response of the node is not [slip outside]. *)
Lemma C9_counterexample :
  exists nodes,
    parseDecisionTree (H := asciiHost) decisionTreeInput = Ok nodes /\
    ~ exists node,
        nodes = [node] /\
        DecisionNode.trigger node = lit "jabs lazily" /\
        DecisionNode.response node = lit "slip outside" /\
        option_map Timestamp.seconds (DecisionNode.timestamp node) = Some 12.
Proof.
  eexists. split; [vm_compute; reflexivity|].
  intros (node & Hnodes & _ & Hresp & _).
  inversion Hnodes; subst node. vm_compute in Hresp. discriminate.
Qed.

(** C9, as amended.  The scenario yields one node, with trigger
    [jabs lazily], the whole text behind THEN as response, bold markers
    and timestamp included, and a timestamp of 12 seconds. *)
Theorem C9_decision_node_keeps_response_verbatim :
  exists node,
    parseDecisionTree (H := asciiHost) decisionTreeInput = Ok [node] /\
    DecisionNode.trigger node = lit "jabs lazily" /\
    DecisionNode.response node = lit "**slip outside** [0:12]" /\
    option_map Timestamp.seconds (DecisionNode.timestamp node) = Some 12.
Proof.
  eexists. split; [vm_compute; reflexivity|]. repeat split.
Qed.

(** C1 at the text [jab [1:05] lands]. *)
Lemma C1_witness :
  let text := lit "jab " ++ token (lit "1") (lit "05") ++ lit " lands" in
  exists mins secs ts k occurrence t,
    Number (lit "1") = Some mins /\ Number (lit "05") = Some secs /\
    extractTimestamps (H := asciiHost) text = Ok ts /\
    nth_error (execAll timestampRegex 0 0 text) k = Some occurrence /\
    index occurrence = List.length (lit "jab ") /\
    matched occurrence = token (lit "1") (lit "05") /\
    nth_error ts k = Some t /\
    Timestamp.seconds t = mins * 60 + secs /\
    Timestamp.time t = toString mins ++ lit ":" ++ padStart (toString secs) 2 (char "0") /\
    padStart (toString secs) 2 (char "0") = lit "05".
Proof.
  apply (C1_extractTimestamps_bracket_token (H := asciiHost)
           (lit "jab ") (lit "1") (lit "05") (lit " lands")).
  - repeat constructor.
  - simpl. lia.
  - repeat constructor.
  - reflexivity.
Defined.


(* ====================================================================== *)
(** * What the parser returns on every input *)
(* ====================================================================== *)

(** ** Lists: sorting and deduplication keep what is there *)

Lemma insertSorted_perm {A : Type} (cmp : A -> A -> number) x l :
  Permutation (x :: l) (insertSorted cmp x l).
Proof.
  induction l as [|y l IH]; simpl; auto.
  destruct (positive (cmp x y)); auto.
  eapply perm_trans; [apply perm_swap|]. apply perm_skip. exact IH.
Qed.

Lemma sort_perm {A : Type} (cmp : A -> A -> number) l :
  Permutation l (sort cmp l).
Proof.
  induction l as [|x l IH]; simpl; auto.
  eapply perm_trans; [apply perm_skip, IH|]. apply insertSorted_perm.
Qed.

Lemma sort_Forall {A : Type} (P : A -> Prop) cmp l :
  Forall P l -> Forall P (sort cmp l).
Proof.
  intros Hl. eapply Permutation_Forall; [apply sort_perm|]. exact Hl.
Qed.

(** A sorted list is left as it is. *)
Lemma insertSorted_head {A : Type} (cmp : A -> A -> number) x l :
  Forall (fun y => positive (cmp x y) = false) l -> insertSorted cmp x l = x :: l.
Proof.
  intros Hl. destruct l as [|y l]; simpl; auto.
  inversion Hl as [|? ? Hy _]; subst. rewrite Hy. reflexivity.
Qed.

Lemma sort_sorted_id {A : Type} (cmp : A -> A -> number) l :
  StronglySorted (fun a b => positive (cmp a b) = false) l -> sort cmp l = l.
Proof.
  induction 1 as [|x l Hs IH Hx]; simpl; auto.
  rewrite IH. apply insertSorted_head. exact Hx.
Qed.

Section Dedup.
Context {H : Host}.

Lemma dedupFrom_incl seen l : incl (dedupFrom seen l) l.
Proof.
  revert seen. induction l as [|f l IH]; intros seen; simpl.
  - apply incl_refl.
  - destruct (existsb _ seen).
    + apply incl_tl, IH.
    + apply incl_cons; [left; reflexivity|]. apply incl_tl, IH.
Qed.

Lemma dedupFrom_Forall (P : Finding.t -> Prop) seen l :
  Forall P l -> Forall P (dedupFrom seen l).
Proof.
  intros Hl. rewrite Forall_forall in *. intros f Hf.
  apply Hl. eapply dedupFrom_incl; eauto.
Qed.

Lemma dedupFrom_fresh seen l f :
  In f (dedupFrom seen l) -> existsb (JsString.eqb (dedupKey f)) seen = false.
Proof.
  revert seen. induction l as [|g l IH]; intros seen; simpl; [contradiction|].
  destruct (existsb (JsString.eqb (dedupKey g)) seen) eqn:Hg.
  - apply IH.
  - intros [<-|Hin]; auto.
    apply IH in Hin. simpl in Hin. apply orb_false_elim in Hin. tauto.
Qed.

Lemma dedupFrom_NoDup seen l : NoDup (map dedupKey (dedupFrom seen l)).
Proof.
  revert seen. induction l as [|g l IH]; intros seen; simpl; [constructor|].
  destruct (existsb (JsString.eqb (dedupKey g)) seen) eqn:Hg; auto.
  simpl. constructor; auto.
  intros Hin. apply in_map_iff in Hin as (f & Hk & Hf).
  apply dedupFrom_fresh in Hf. simpl in Hf. apply orb_false_elim in Hf as [Hf _].
  rewrite Hk in Hf. destruct (eqb_spec (dedupKey g) (dedupKey g)); congruence.
Qed.

(** Keys that are all different already: nothing is dropped. *)
Lemma dedupFrom_NoDup_id seen l :
  NoDup (map dedupKey l) ->
  Forall (fun f => existsb (JsString.eqb (dedupKey f)) seen = false) l ->
  dedupFrom seen l = l.
Proof.
  revert seen. induction l as [|g l IH]; intros seen Hn Hs; simpl; auto.
  inversion Hn as [|? ? Hni Hn']; subst. inversion Hs as [|? ? Hg Hs']; subst.
  rewrite Hg. f_equal. apply IH; auto.
  rewrite Forall_forall in *. intros f Hf. simpl.
  rewrite (Hs' f Hf), orb_false_r.
  destruct (eqb_spec (dedupKey f) (dedupKey g)) as [He|]; auto.
  exfalso. apply Hni. rewrite <- He. apply in_map. exact Hf.
Qed.

End Dedup.

(** ** Running a fold that draws identifiers *)

Lemma foldG_invariant {A S : Type} (P : S -> Prop) (f : S -> A -> gen S) :
  (forall s x n s' n', P s -> f s x n = Ok (s', n') -> P s') ->
  forall xs s n s' n', P s -> foldG f xs s n = Ok (s', n') -> P s'.
Proof.
  intros Hf. induction xs as [|x xs IH]; intros s n s' n' Hs Hr; simpl in Hr.
  - inversion Hr; subst. exact Hs.
  - unfold genBind in Hr. destruct (f s x n) as [[s1 n1]|] eqn:Hfx; [|discriminate].
    simpl in Hr. eapply IH; [|exact Hr]. eapply Hf; eauto.
Qed.

Lemma substring_0_length s n : length (substring s 0 n) = Nat.min n (length s).
Proof.
  unfold substring, length. rewrite Nat.min_0_l, Nat.max_0_l, Nat.sub_0_r. simpl.
  apply length_firstn.
Qed.

Lemma orElse_cases a b : (a = [] /\ orElse a b = b) \/ (a <> [] /\ orElse a b = a).
Proof. destruct a; simpl; [left|right]; split; auto; discriminate. Qed.

Lemma extractTitle_length text t :
  extractTitle text = Ok t -> 1 <= length t <= 63.
Proof.
  unfold extractTitle. destruct (exec boldRun text) as [m|].
  - destruct (group m 1) as [g|]; simpl; [|discriminate].
    intros Heq. inversion Heq; subst t; clear Heq.
    destruct (orElse_cases (substring (stripTimestamps g) 0 60) untitled)
      as [[_ ->]|[Hne ->]].
    + change (length untitled) with 16. lia.
    + rewrite substring_0_length.
      assert (length (substring (stripTimestamps g) 0 60) <> 0).
      { intros Hz. apply Hne. destruct (substring _ 0 60); [reflexivity|discriminate]. }
      rewrite substring_0_length in H. lia.
  - set (cleanText := stripTimestamps _).
    destruct (isEmpty cleanText || (length cleanText <? 3)) eqn:Hc.
    + intros Heq. inversion Heq. change (length untitled) with 16. lia.
    + intros Heq. inversion Heq; subst t; clear Heq.
      apply orb_false_elim in Hc as [_ Hc]. apply Nat.ltb_ge in Hc.
      unfold length in *. rewrite length_app.
      change (List.length (substring cleanText 0 60))
        with (length (substring cleanText 0 60)).
      rewrite substring_0_length. unfold length.
      destruct (60 <? List.length cleanText) eqn:Hl.
      * apply Nat.ltb_lt in Hl. change (List.length (lit "...")) with 3. lia.
      * apply Nat.ltb_ge in Hl. change (List.length (@nil codeunit)) with 0. lia.
Qed.

Section Items.
Context {H : Host}.

Lemma inferConfidence_evidenced text n :
  (inferConfidence text n = Confidence.high -> 3 <= n) /\
  (inferConfidence text n = Confidence.medium -> 1 <= n).
Proof.
  unfold inferConfidence.
  destruct (_ || _); [split; discriminate|].
  destruct (has _ _); [split; discriminate|].
  destruct (Nat.leb_spec 3 n); [split; [auto|discriminate]|].
  destruct (Nat.leb_spec 1 n); split; auto; discriminate.
Qed.

Lemma orOne_max n : orOne n = Nat.max 1 n.
Proof. destruct n as [|[|n]]; reflexivity. Qed.

Lemma findingOfLine_built section entry fs n fs' n' :
  Forall (fun f => wellBuilt f /\ evidenced f) fs ->
  findingOfLine section fs entry n = Ok (fs', n') ->
  Forall (fun f => wellBuilt f /\ evidenced f) fs'.
Proof.
  intros Hfs. unfold findingOfLine. destruct entry as [index line].
  destruct (test findingItem (trim line) && (15 <? length (trim line)));
    [|intros Heq; inversion Heq; subst; exact Hfs].
  set (text := trim (replace itemPrefix [] (trim line))).
  destruct (10 <? length text) eqn:Hlen;
    [|intros Heq; inversion Heq; subst; exact Hfs].
  unfold genBind, lift, randomUUID, ret.
  destruct (extractTimestamps text) as [ts|] eqn:Hts; [|discriminate]. simpl.
  destruct (extractTitle text) as [t|] eqn:Ht; [|discriminate]. simpl.
  intros Heq. inversion Heq; subst; clear Heq.
  apply Forall_app. split; [exact Hfs|]. constructor; [|constructor].
  split.
  - unfold wellBuilt. simpl. repeat split.
    + apply orOne_max.
    + apply Nat.ltb_lt. exact Hlen.
    + apply (extractTitle_length _ _ Ht).
    + apply (extractTitle_length _ _ Ht).
    + exact Hts.
  - unfold evidenced. simpl. apply inferConfidence_evidenced.
Qed.

Lemma strengthOfLine_built line fs n fs' n' :
  Forall (fun f => wellBuilt f /\ strengthShaped f) fs ->
  strengthOfLine fs line n = Ok (fs', n') ->
  Forall (fun f => wellBuilt f /\ strengthShaped f) fs'.
Proof.
  intros Hfs. unfold strengthOfLine.
  destruct (test listItem (trim line) && (15 <? length (trim line)));
    [|intros Heq; inversion Heq; subst; exact Hfs].
  set (text := trim (replace itemPrefix [] (trim line))).
  destruct (10 <? length text) eqn:Hlen;
    [|intros Heq; inversion Heq; subst; exact Hfs].
  unfold genBind, lift, randomUUID, ret.
  destruct (extractTimestamps text) as [ts|] eqn:Hts; [|discriminate]. simpl.
  destruct (extractTitle text) as [t|] eqn:Ht; [|discriminate]. simpl.
  intros Heq. inversion Heq; subst; clear Heq.
  apply Forall_app. split; [exact Hfs|]. constructor; [|constructor].
  split.
  - unfold wellBuilt. simpl. repeat split.
    + apply orOne_max.
    + apply Nat.ltb_lt. exact Hlen.
    + apply (extractTitle_length _ _ Ht).
    + apply (extractTitle_length _ _ Ht).
    + exact Hts.
  - repeat split.
Qed.

Lemma collectFindings_built section fs n fs' n' :
  Forall (fun f => wellBuilt f /\ evidenced f) fs ->
  collectFindings fs section n = Ok (fs', n') ->
  Forall (fun f => wellBuilt f /\ evidenced f) fs'.
Proof.
  intros Hfs. unfold collectFindings, genBind, ret.
  destruct (extractFindingsFromSection section n) as [[sf k]|] eqn:Hs; [|discriminate].
  simpl. intros Heq. inversion Heq; subst; clear Heq.
  apply Forall_app. split; [exact Hfs|].
  unfold extractFindingsFromSection in Hs.
  eapply (foldG_invariant (Forall (fun f => wellBuilt f /\ evidenced f)));
    [|constructor|exact Hs].
  intros s x m s' m'. apply findingOfLine_built.
Qed.

Lemma collectStrengths_built section fs n fs' n' :
  Forall (fun f => wellBuilt f /\ strengthShaped f) fs ->
  collectStrengths fs section n = Ok (fs', n') ->
  Forall (fun f => wellBuilt f /\ strengthShaped f) fs'.
Proof.
  intros Hfs. unfold collectStrengths.
  apply (foldG_invariant (Forall (fun f => wellBuilt f /\ strengthShaped f))); auto.
  intros s x m s' m'. apply strengthOfLine_built.
Qed.

Lemma extractFindings_total sections rawContent n :
  exists findings k, extractFindings sections rawContent n = Ok (findings, k).
Proof.
  destruct (collected_findings_total sections n) as (c & k & Hc).
  exists (sort byEarliest (deduplicateFindings c)), k.
  unfold extractFindings, genBind. rewrite Hc. reflexivity.
Qed.

Lemma extractStrengths_total sections rawContent n :
  exists strengths k, extractStrengths sections rawContent n = Ok (strengths, k).
Proof.
  destruct (collected_strengths_total sections n) as (c & k & Hc).
  exists (deduplicateFindings c), k.
  unfold extractStrengths, genBind. rewrite Hc. reflexivity.
Qed.

(** X1.  For every list of sections, [extractFindings] returns (it never
    throws), and every finding it returns is well built: its instance
    count is the number of its timestamps (1 when there is none), its
    description has more than ten characters and its timestamps are those
    of the description, its title has between 1 and 63 characters; a
    confidence of high is backed by at least three timestamps and one of
    medium by at least one.  No two findings returned share a
    deduplication key. *)
Theorem extractFindings_invariants (sections : list ReportSection.t)
    (rawContent : jsstring) (n : nat) :
  exists findings k,
    extractFindings sections rawContent n = Ok (findings, k) /\
    Forall (fun f => wellBuilt f /\ evidenced f) findings /\
    NoDup (map dedupKey findings).
Proof.
  destruct (collected_findings_total sections n) as (c & k & Hc).
  exists (sort byEarliest (deduplicateFindings c)), k.
  split; [unfold extractFindings, genBind; rewrite Hc; reflexivity|].
  split.
  - apply sort_Forall, dedupFrom_Forall.
    eapply (foldG_invariant (Forall (fun f => wellBuilt f /\ evidenced f)));
      [|constructor|exact Hc].
    intros s x m s' m'. apply collectFindings_built.
  - eapply Permutation_NoDup; [|apply dedupFrom_NoDup].
    apply Permutation_map, sort_perm.
Qed.

(** X2.  For every list of sections, [extractStrengths] returns, and every
    strength it returns is well built (as in X1), has severity low and
    confidence high, and no counter-evidence.  No two strengths returned
    share a deduplication key. *)
Theorem extractStrengths_invariants (sections : list ReportSection.t)
    (rawContent : jsstring) (n : nat) :
  exists strengths k,
    extractStrengths sections rawContent n = Ok (strengths, k) /\
    Forall (fun f => wellBuilt f /\ strengthShaped f) strengths /\
    NoDup (map dedupKey strengths).
Proof.
  destruct (collected_strengths_total sections n) as (c & k & Hc).
  exists (deduplicateFindings c), k.
  split; [unfold extractStrengths, genBind; rewrite Hc; reflexivity|].
  split.
  - apply dedupFrom_Forall.
    eapply (foldG_invariant (Forall (fun f => wellBuilt f /\ strengthShaped f)));
      [|constructor|exact Hc].
    intros s x m s' m'. apply collectStrengths_built.
  - apply dedupFrom_NoDup.
Qed.

(** X3.  [deduplicateFindings] is idempotent: a second pass removes
    nothing. *)
Theorem deduplicateFindings_idempotent (items : list Finding.t) :
  deduplicateFindings (deduplicateFindings items) = deduplicateFindings items.
Proof.
  unfold deduplicateFindings. apply dedupFrom_NoDup_id.
  - apply dedupFrom_NoDup.
  - apply Forall_forall. intros f _. reflexivity.
Qed.

End Items.

(** ** Folds that may throw *)

Lemma foldM_spec {A S : Type} (P : S -> Prop) (f : S -> A -> result S) :
  (forall s x, P s -> exists s', f s x = Ok s' /\ P s') ->
  forall xs s, P s -> exists s', foldM f xs s = Ok s' /\ P s'.
Proof.
  intros Hf. induction xs as [|x xs IH]; intros s Hs; simpl; eauto.
  destruct (Hf s x Hs) as (s1 & Hs1 & HP1). rewrite Hs1. simpl. auto.
Qed.

(** ** Sections, for every input *)

Section AllSections.
Context {H : Host}.

Lemma parseReportSections_spec markdown :
  exists sections,
    parseReportSections markdown = Ok sections /\
    Forall finalized sections /\
    heads sections =
      (if preambleb (split 10%N markdown) then [introHead] else []) ++
      map headOfTitle (headingTitles (split 10%N markdown)).
Proof.
  unfold parseReportSections. destruct (isEmpty markdown) eqn:He.
  - apply isEmpty_nil in He. subst markdown. exists []. repeat split; constructor.
  - destruct (parseLines_spec (split 10%N markdown) [] None (Forall_nil _))
      as (secs' & cur' & Hf & Hfin & Hh).
    rewrite Hf. cbn [bind fst snd]. cbn [heads map optHead app] in Hh.
    destruct cur' as [s|].
    + destruct (finalizeSection_ok s) as (s' & Hs' & Hfs' & Hid & Htt).
      rewrite Hs'. exists (secs' ++ [s']). split; [reflexivity|].
      split; [apply Forall_app; auto|].
      rewrite heads_app. simpl. rewrite Hid, Htt. exact Hh.
    + exists secs'. simpl in Hh. rewrite app_nil_r in Hh. auto.
Qed.

End AllSections.

(** ** The remaining extractors return *)

Lemma wellFormed_fixRegex : wellFormed fixRegex = true.
Proof. reflexivity. Qed.
Lemma spine_fixRegex : spine 1 (plus (Chr (noneOf (lit ".")))) fixRegex.
Proof. simpl. auto 10. Qed.
Lemma wellFormed_drillRegex : wellFormed drillRegex = true.
Proof. reflexivity. Qed.
Lemma spine_drillRegex : spine 1 (plus (Chr (noneOf (lit ".")))) drillRegex.
Proof. simpl. auto 10. Qed.
Lemma wellFormed_archetypeRegex : wellFormed archetypeRegex = true.
Proof. reflexivity. Qed.
Lemma spine_archetypeRegex : spine 1 (plus valueChar) archetypeRegex.
Proof. simpl. auto 20. Qed.
Lemma wellFormed_levelRegex : wellFormed levelRegex = true.
Proof. reflexivity. Qed.
Lemma spine_levelRegex : spine 1 (plus valueChar) levelRegex.
Proof. simpl. auto 20. Qed.
Lemma wellFormed_gamePlanRegex : wellFormed gamePlanRegex = true.
Proof. reflexivity. Qed.
Lemma spine_gamePlanRegex : spine 1 (lazyStar anyChar) gamePlanRegex.
Proof. simpl. auto 20. Qed.
Lemma wellFormed_decisionRegex : wellFormed decisionRegex = true.
Proof. reflexivity. Qed.
Lemma spine_decisionRegex_1 : spine 1 (lazyPlus dot) decisionRegex.
Proof. simpl. auto 20. Qed.
Lemma spine_decisionRegex_2 : spine 2 (plus dot) decisionRegex.
Proof. simpl. auto 20. Qed.

Lemma extractFix_total text : exists f, extractFix text = Ok f.
Proof.
  unfold extractFix. destruct (exec fixRegex text) as [m|] eqn:Hm; eauto.
  destruct (exec_group _ _ _ _ _ wellFormed_fixRegex spine_fixRegex Hm) as (v & Hv & _).
  rewrite Hv. simpl. eauto.
Qed.

Lemma extractDrill_total text : exists d, extractDrill text = Ok d.
Proof.
  unfold extractDrill. destruct (exec drillRegex text) as [m|] eqn:Hm; eauto.
  destruct (exec_group _ _ _ _ _ wellFormed_drillRegex spine_drillRegex Hm) as (v & Hv & _).
  rewrite Hv. simpl. eauto.
Qed.

Lemma firstn_seq_min k : forall s len, firstn k (seq s len) = seq s (Nat.min k len).
Proof.
  induction k as [|k IH]; intros s [|len]; simpl; auto. f_equal. apply IH.
Qed.

Section Rest.
Context {H : Host}.

Lemma improvementOfLine_ranked st line :
  ranked st -> exists st', improvementOfLine st line = Ok st' /\ ranked st'.
Proof.
  destruct st as [imps p]. intros [Hm Hp]. simpl in *. unfold improvementOfLine.
  destruct (test listItem (trim line) && (15 <? length (trim line)));
    [|exists (imps, p); split; [reflexivity|split; assumption]].
  set (text := trim (replace itemPrefix [] (trim line))).
  destruct (extractFix_total text) as [f Hf]. destruct (extractDrill_total text) as [d Hd].
  rewrite Hf, Hd. simpl. eexists. split; [reflexivity|].
  split; simpl.
  - rewrite map_app, length_app, Hm. simpl. rewrite seq_app. simpl.
    rewrite Hp. reflexivity.
  - rewrite length_app. simpl. lia.
Qed.

Lemma collectImprovements_ranked imps section :
  map PriorityImprovement.priority imps = seq 1 (List.length imps) ->
  exists imps', collectImprovements imps section = Ok imps' /\
    map PriorityImprovement.priority imps' = seq 1 (List.length imps').
Proof.
  intros Hm. unfold collectImprovements.
  destruct (foldM_spec ranked improvementOfLine improvementOfLine_ranked
              (split 10%N (ReportSection.content section))
              (imps, List.length imps + 1)) as (st & Hst & Hr & _).
  { split; simpl; auto. lia. }
  rewrite Hst. simpl. eauto.
Qed.

Lemma collected_improvements_ranked sections :
  exists imps,
    foldM collectImprovements
          (filter (titleHas ["priority"; "improvement"; "fix"]) sections) [] = Ok imps /\
    map PriorityImprovement.priority imps = seq 1 (List.length imps).
Proof.
  apply (foldM_spec
           (fun imps => map PriorityImprovement.priority imps = seq 1 (List.length imps))
           collectImprovements
           (fun s x Hs => collectImprovements_ranked s x Hs)
           (filter (titleHas ["priority"; "improvement"; "fix"]) sections) [] eq_refl).
Qed.

Lemma extractImprovements_total sections rawContent :
  exists improvements, extractImprovements sections rawContent = Ok improvements.
Proof.
  unfold extractImprovements.
  destruct (collected_improvements_ranked sections) as (imps & Himps & _).
  rewrite Himps. cbn [bind]. eauto.
Qed.

(** X4.  [extractImprovements] returns for every input, with at most ten
    improvements, and their priorities are 1, 2, 3, ... in the order of
    the list, without a gap. *)
Theorem extractImprovements_ranked (sections : list ReportSection.t)
    (rawContent : jsstring) :
  exists improvements,
    extractImprovements sections rawContent = Ok improvements /\
    List.length improvements <= 10 /\
    map PriorityImprovement.priority improvements = seq 1 (List.length improvements).
Proof.
  unfold extractImprovements.
  destruct (collected_improvements_ranked sections) as (imps & Himps & Hm).
  rewrite Himps. cbn [bind]. eexists. split; [reflexivity|].
  split.
  - rewrite length_firstn. lia.
  - rewrite <- firstn_map, Hm, length_firstn. apply firstn_seq_min.
Qed.

End Rest.

(** ** The assessment and the game plan *)

Lemma fieldValue_ok r s m :
  wellFormed r = true -> spine 1 (plus valueChar) r -> exec r s = Some m ->
  exists v, fieldValue m = Ok v /\ length v <= 100.
Proof.
  intros Hwf Hsp Hm. destruct (exec_group _ _ _ _ _ Hwf Hsp Hm) as (g & Hg & _).
  unfold fieldValue. rewrite Hg. simpl. eexists. split; [reflexivity|].
  rewrite substring_0_length. lia.
Qed.

Lemma orElse_length a b n : length a <= n -> length b <= n -> length (orElse a b) <= n.
Proof. destruct a; simpl; auto. Qed.

Lemma orElse_nonempty a b : b <> [] -> orElse a b <> [].
Proof. destruct a; simpl; auto. discriminate. Qed.

Lemma fieldOrUnknown_ok r content :
  wellFormed r = true -> spine 1 (plus valueChar) r ->
  exists v, match exec r content with
            | Some m => fieldValue m
            | None => Ok (lit "Unknown")
            end = Ok v /\ length v <= 100.
Proof.
  intros Hwf Hsp. destruct (exec r content) as [m|] eqn:Hm.
  - eapply fieldValue_ok; eauto.
  - eexists. split; [reflexivity|]. change (length (lit "Unknown")) with 7. lia.
Qed.

Section Assessment.
Context {H : Host}.

Lemma extractOverallAssessment_total sections rawContent :
  exists assessment, extractOverallAssessment sections rawContent = Ok assessment.
Proof.
  unfold extractOverallAssessment.
  set (section := find (titleHas ["overall"; "assessment"]) sections).
  set (sectionContent := match section with Some s => ReportSection.content s | None => [] end).
  destruct (fieldOrUnknown_ok archetypeRegex (orElse sectionContent rawContent)
              wellFormed_archetypeRegex spine_archetypeRegex) as (a & Ha & _).
  destruct (fieldOrUnknown_ok levelRegex (orElse sectionContent rawContent)
              wellFormed_levelRegex spine_levelRegex) as (l & Hl & _).
  destruct section as [s|]; [|destruct (isEmpty rawContent); [eauto|]];
    rewrite Ha, Hl; cbn [bind]; eauto.
Qed.

(** X5.  [extractOverallAssessment] returns for every input; the level and
    the archetype have at most 100 characters, and the summary is never
    empty and has at most 1501 characters. *)
Theorem extractOverallAssessment_bounds (sections : list ReportSection.t)
    (rawContent : jsstring) :
  exists assessment,
    extractOverallAssessment sections rawContent = Ok assessment /\
    length (OverallAssessment.level assessment) <= 100 /\
    length (OverallAssessment.archetype assessment) <= 100 /\
    1 <= length (OverallAssessment.summary assessment) <= 1501.
Proof.
  unfold extractOverallAssessment.
  set (section := find (titleHas ["overall"; "assessment"]) sections).
  set (sectionContent := match section with Some s => ReportSection.content s | None => [] end).
  assert (Hsummary : forall s : jsstring,
            1 <= length (if isEmpty sectionContent then lit "No assessment available."
                         else orElse (truncateSummary s) (lit "No assessment available."))
              <= 1501).
  { intros s. destruct (isEmpty sectionContent).
    - change (length (lit "No assessment available.")) with 24. lia.
    - split.
      + assert (orElse (truncateSummary s) (lit "No assessment available.") <> [])
          by (apply orElse_nonempty; discriminate).
        destruct (orElse _ _); [congruence|simpl; lia].
      + apply orElse_length; [apply truncateSummary_length|].
        change (length (lit "No assessment available.")) with 24. lia. }
  destruct (fieldOrUnknown_ok archetypeRegex (orElse sectionContent rawContent)
              wellFormed_archetypeRegex spine_archetypeRegex) as (a & Ha & Hla).
  destruct (fieldOrUnknown_ok levelRegex (orElse sectionContent rawContent)
              wellFormed_levelRegex spine_levelRegex) as (l & Hl & Hll).
  destruct section as [s|]; [|destruct (isEmpty rawContent)].
  - rewrite Ha, Hl. cbn [bind]. eexists. split; [reflexivity|].
    cbn [OverallAssessment.level OverallAssessment.archetype OverallAssessment.summary].
    auto.
  - eexists. split; [reflexivity|].
    cbn [OverallAssessment.level OverallAssessment.archetype OverallAssessment.summary].
    change (length (lit "Unknown")) with 7.
    change (length (lit "No assessment available.")) with 24. lia.
  - rewrite Ha, Hl. cbn [bind]. eexists. split; [reflexivity|].
    cbn [OverallAssessment.level OverallAssessment.archetype OverallAssessment.summary].
    auto.
Qed.

End Assessment.

Lemma extractOpponentGamePlan_total rawContent :
  exists plan, extractOpponentGamePlan rawContent = Ok plan.
Proof.
  unfold extractOpponentGamePlan.
  destruct (exec gamePlanRegex rawContent) as [m|] eqn:Hm; eauto.
  destruct (exec_group _ _ _ _ _ wellFormed_gamePlanRegex spine_gamePlanRegex Hm)
    as (g & Hg & _).
  rewrite Hg. cbn [defined bind]. eauto.
Qed.

(** X6.  [extractOpponentGamePlan] returns for every input, and a game
    plan, when there is one, has at most 1500 characters. *)
Theorem extractOpponentGamePlan_bounded (rawContent : jsstring) :
  exists plan,
    extractOpponentGamePlan rawContent = Ok plan /\
    match plan with
    | Some text => length text <= 1500
    | None => True
    end.
Proof.
  unfold extractOpponentGamePlan.
  destruct (exec gamePlanRegex rawContent) as [m|] eqn:Hm.
  - destruct (exec_group _ _ _ _ _ wellFormed_gamePlanRegex spine_gamePlanRegex Hm)
      as (g & Hg & _).
    rewrite Hg. cbn [defined bind]. eexists. split; [reflexivity|].
    cbv beta iota. rewrite substring_0_length. lia.
  - exists None. auto.
Qed.

Section Tree.
Context {H : Host}.

Lemma nodeOfLine_total nodes line :
  exists nodes', nodeOfLine nodes line = Ok nodes' /\
    List.length nodes' <= S (List.length nodes).
Proof.
  unfold nodeOfLine. destruct (exec decisionRegex line) as [m|] eqn:Hm.
  - destruct (exec_group _ _ _ _ _ wellFormed_decisionRegex spine_decisionRegex_1 Hm)
      as (g1 & Hg1 & _).
    destruct (exec_group _ _ _ _ _ wellFormed_decisionRegex spine_decisionRegex_2 Hm)
      as (g2 & Hg2 & _).
    destruct (extractTimestamps_total line) as [ts Hts].
    rewrite Hg1, Hg2, Hts. cbn [defined bind]. eexists. split; [reflexivity|].
    rewrite length_app. simpl. lia.
  - exists nodes. split; auto.
Qed.

Lemma extractDecisionTree_total sections :
  exists nodes, extractDecisionTree sections = Ok nodes.
Proof.
  unfold extractDecisionTree.
  destruct (foldM_spec (fun _ => True)
              (fun nodes section =>
                 foldM nodeOfLine (split 10%N (ReportSection.content section)) nodes))
    with (xs := filter (titleHas ["decision"; "counter logic"; "tree"]) sections)
         (s := @nil DecisionNode.t) as (nodes & Hn & _); eauto.
  intros s x _.
  destruct (foldM_spec (fun _ => True) nodeOfLine)
    with (xs := split 10%N (ReportSection.content x)) (s := s) as (nodes & Hn & _); eauto.
  intros s0 l _. destruct (nodeOfLine_total s0 l) as (n' & Hn' & _). eauto.
Qed.

Lemma techniqueOfLine_total techniques line :
  exists techniques', techniqueOfLine techniques line = Ok techniques'.
Proof.
  unfold techniqueOfLine.
  destruct (test listItem (trim line) && (5 <? length (trim line))); eauto.
  destruct (extractTimestamps_total (trim (replace itemPrefix [] (trim line)))) as [ts Hts].
  rewrite Hts. simpl. eauto.
Qed.

Lemma extractMostUtilizedTechniques_bounded sections :
  exists techniques,
    extractMostUtilizedTechniques sections = Ok techniques /\
    List.length techniques <= 5.
Proof.
  unfold extractMostUtilizedTechniques.
  destruct (foldM_spec (fun _ => True)
              (fun techniques section =>
                 foldM techniqueOfLine (split 10%N (ReportSection.content section))
                       techniques))
    with (xs := filter isTechniqueSection sections)
         (s := @nil Technique.t) as (ts & Hts & _); auto.
  - intros s x _.
    destruct (foldM_spec (fun _ => True) techniqueOfLine)
      with (xs := split 10%N (ReportSection.content x)) (s := s) as (t & Ht & _); eauto.
    intros s0 l _. destruct (techniqueOfLine_total s0 l) as (t' & Ht'). eauto.
  - rewrite Hts. cbn [bind]. eexists. split; [reflexivity|].
    rewrite length_firstn. lia.
Qed.

End Tree.

(** ** Metadata and warnings *)

Lemma severityCounts_length findings : severityCounts findings = List.length findings.
Proof.
  unfold severityCounts, countWhere, hasSeverity.
  induction findings as [|f fs IH]; simpl; auto.
  destruct (Finding.severity f); simpl; lia.
Qed.

Lemma digitsOf_head fuel : forall n acc,
  (exists d tl, acc = d :: tl /\ isDigit d = true) \/ 0 < fuel ->
  exists d tl, digitsOf fuel n acc = d :: tl /\ isDigit d = true.
Proof.
  induction fuel as [|fuel IH]; intros n acc Hacc; simpl.
  - destruct Hacc as [Hacc|Hf]; [exact Hacc|lia].
  - assert (Hd : isDigit (48 + N.of_nat (n mod 10))%N = true).
    { unfold isDigit. pose proof (Nat.mod_upper_bound n 10 ltac:(lia)) as Hb.
      set (r := n mod 10) in *.
      apply andb_true_intro. split; apply N.leb_le; lia. }
    destruct (n <? 10); [eauto|]. apply IH. left. eauto.
Qed.

Lemma toString_head n : exists d tl, toString n = d :: tl /\ isDigit d = true.
Proof. apply digitsOf_head. right. lia. Qed.

(** X7.  [validateReport] gives at most three warnings, and the warning
    that no strengths were identified is among them exactly when the list
    of strengths is empty. *)
Theorem validateReport_warnings (findings strengths : list Finding.t) :
  List.length (validateReport findings strengths) <= 3 /\
  (In noStrengthsWarning (validateReport findings strengths) <-> strengths = []).
Proof.
  unfold validateReport.
  set (low := filter _ findings).
  split.
  - rewrite !length_app.
    destruct (0 <? List.length low), (Nat.eqb (List.length strengths) 0),
             (5 <? countWhere (hasSeverity Severity.critical) findings); simpl; lia.
  - split.
    + intros Hin. apply in_app_or in Hin as [Hin|Hin].
      * destruct (0 <? List.length low); [|contradiction].
        destruct Hin as [Heq|[]].
        destruct (toString_head (List.length low)) as (d & tl & Hd & Hdig).
        rewrite Hd in Heq. apply (f_equal (fun l => hd 0%N l)) in Heq.
        vm_compute in Heq. subst d. discriminate.
      * apply in_app_or in Hin as [Hin|Hin].
        -- destruct (Nat.eqb_spec (List.length strengths) 0) as [Hz|]; [|contradiction].
           destruct strengths; [reflexivity|discriminate].
        -- destruct (5 <? _); [|contradiction].
           destruct Hin as [Heq|[]]. apply (f_equal (fun l => hd 0%N l)) in Heq.
           vm_compute in Heq. discriminate.
    + intros ->. apply in_or_app. right. apply in_or_app. left. simpl. auto.
Qed.

(** ** Timestamps in order *)

Lemma bySeconds_le a b : positive (bySeconds a b) = false -> bySecondsAscending a b.
Proof.
  unfold bySeconds, bySecondsAscending. simpl. intros Hp.
  apply Z.ltb_ge in Hp. lia.
Qed.

Lemma bySeconds_ge a b : positive (bySeconds a b) = true -> bySecondsAscending b a.
Proof.
  unfold bySeconds, bySecondsAscending. simpl. intros Hp.
  apply Z.ltb_lt in Hp. lia.
Qed.

Lemma sort_bySeconds_sorted l : StronglySorted bySecondsAscending (sort bySeconds l).
Proof.
  apply sort_sorted with (le := bySecondsAscending);
    eauto using bySeconds_le, bySeconds_ge.
  unfold bySecondsAscending. intros a b c. lia.
Qed.

Lemma sort_idempotent {A : Type} (cmp : A -> A -> number)
    (cmp_trans : forall a b c, positive (cmp a b) = false -> positive (cmp b c) = false ->
                               positive (cmp a c) = false)
    (cmp_total : forall a b, positive (cmp a b) = true -> positive (cmp b a) = false) l :
  sort cmp (sort cmp l) = sort cmp l.
Proof.
  apply sort_sorted_id.
  apply sort_sorted with (le := fun a b => positive (cmp a b) = false); auto.
Qed.

Section Report.
Context {H : Host}.

(** The report [parseSelfScoutReport] returns, field by field. *)
Lemma parseSelfScoutReport_parts rawContent analysisType n :
  exists sections extracted findings k1 strengths k2 improvements assessment plan,
    parseReportSections rawContent = Ok sections /\
    extractTimestamps rawContent = Ok extracted /\
    extractFindings sections rawContent n = Ok (findings, k1) /\
    extractStrengths sections rawContent k1 = Ok (strengths, k2) /\
    extractImprovements sections rawContent = Ok improvements /\
    extractOverallAssessment sections rawContent = Ok assessment /\
    extractOpponentGamePlan rawContent = Ok plan /\
    parseSelfScoutReport rawContent analysisType n =
      Ok (SelfScoutReport.mk (uuid k2) clock analysisType assessment findings
            strengths improvements plan sections (sort bySeconds extracted)
            (ReportMetadata.mk
               (List.length findings)
               (countWhere (hasSeverity Severity.critical) findings)
               (countWhere (hasSeverity Severity.high) findings)
               (countWhere (hasSeverity Severity.medium) findings)
               (countWhere (hasSeverity Severity.low) findings)
               (validateReport findings strengths))
            rawContent, S k2).
Proof.
  destruct (parseReportSections_spec rawContent) as (sections & Hs & _).
  destruct (extractTimestamps_total rawContent) as (ts & Hts).
  destruct (extractFindings_total sections rawContent n) as (fs & k1 & Hf).
  destruct (extractStrengths_total sections rawContent k1) as (ss & k2 & Hss).
  destruct (extractImprovements_total sections rawContent) as (imps & Hi).
  destruct (extractOverallAssessment_total sections rawContent) as (oa & Hoa).
  destruct (extractOpponentGamePlan_total rawContent) as (gp & Hgp).
  exists sections, ts, fs, k1, ss, k2, imps, oa, gp.
  repeat (split; [assumption|]).
  unfold parseSelfScoutReport, genBind, lift, randomUUID, ret.
  rewrite Hs. cbn [bind fst snd]. rewrite Hts. cbn [bind fst snd].
  rewrite Hf. cbn [bind fst snd]. rewrite Hss. cbn [bind fst snd].
  rewrite Hi. cbn [bind fst snd]. rewrite Hoa. cbn [bind fst snd].
  rewrite Hgp. cbn [bind fst snd]. reflexivity.
Qed.

End Report.

(** ** The report *)

Section ReportTheorems.
Context {H : Host}.

(** X8.  [parseSelfScoutReport] returns a report for every raw content,
    analysis type and state of the identifier source.  The report keeps
    the raw content and the analysis type, its sections are the result of
    [parseReportSections], and its findings, strengths, improvements,
    assessment and game plan are the results of the five extractors on
    those sections, the identifiers being drawn first for the findings and
    then for the strengths. *)
Theorem parseSelfScoutReport_returns (rawContent : jsstring)
    (analysisType : AnalysisType) (n : nat) :
  exists report k k1 k2,
    parseSelfScoutReport rawContent analysisType n = Ok (report, k) /\
    SelfScoutReport.rawContent report = rawContent /\
    SelfScoutReport.analysisType report = analysisType /\
    parseReportSections rawContent = Ok (SelfScoutReport.sections report) /\
    extractFindings (SelfScoutReport.sections report) rawContent n =
      Ok (SelfScoutReport.findings report, k1) /\
    extractStrengths (SelfScoutReport.sections report) rawContent k1 =
      Ok (SelfScoutReport.strengths report, k2) /\
    extractImprovements (SelfScoutReport.sections report) rawContent =
      Ok (SelfScoutReport.priorityImprovements report) /\
    extractOverallAssessment (SelfScoutReport.sections report) rawContent =
      Ok (SelfScoutReport.overallAssessment report) /\
    extractOpponentGamePlan rawContent = Ok (SelfScoutReport.opponentGamePlan report).
Proof.
  destruct (parseSelfScoutReport_parts rawContent analysisType n)
    as (sections & ts & fs & k1 & ss & k2 & imps & oa & gp &
        Hs & Hts & Hf & Hss & Hi & Hoa & Hgp & Hrun).
  eexists. exists (S k2), k1, k2. split; [exact Hrun|]. simpl. auto 10.
Qed.

(** X9.  In the report [parseSelfScoutReport] returns, the metadata agree
    with the data: [totalFindings] is the number of findings, the four
    severity counters add up to it, and the warnings are those of
    [validateReport] on the findings and strengths of the report. *)
Theorem parseSelfScoutReport_metadata (rawContent : jsstring)
    (analysisType : AnalysisType) (n : nat) :
  exists report k,
    parseSelfScoutReport rawContent analysisType n = Ok (report, k) /\
    let metadata := SelfScoutReport.metadata report in
    ReportMetadata.totalFindings metadata =
      List.length (SelfScoutReport.findings report) /\
    ReportMetadata.criticalCount metadata + ReportMetadata.highCount metadata +
    ReportMetadata.mediumCount metadata + ReportMetadata.lowCount metadata =
      ReportMetadata.totalFindings metadata /\
    ReportMetadata.validationWarnings metadata =
      validateReport (SelfScoutReport.findings report) (SelfScoutReport.strengths report).
Proof.
  destruct (parseSelfScoutReport_parts rawContent analysisType n)
    as (sections & ts & fs & k1 & ss & k2 & imps & oa & gp &
        Hs & Hts & Hf & Hss & Hi & Hoa & Hgp & Hrun).
  eexists. exists (S k2). split; [exact Hrun|]. simpl.
  split; [reflexivity|]. split; [apply (severityCounts_length fs)|reflexivity].
Qed.

(** X10.  The timestamps of the report [parseSelfScoutReport] returns are
    the timestamps [extractTimestamps] finds in the raw content, none lost
    and none added, in ascending order of their seconds; the sort of the
    display ([sortedTimestamps]) leaves that list as it is. *)
Theorem parseSelfScoutReport_timestamps (rawContent : jsstring)
    (analysisType : AnalysisType) (n : nat) :
  exists report k extracted,
    parseSelfScoutReport rawContent analysisType n = Ok (report, k) /\
    extractTimestamps rawContent = Ok extracted /\
    Permutation extracted (SelfScoutReport.timestamps report) /\
    StronglySorted bySecondsAscending (SelfScoutReport.timestamps report) /\
    sortedTimestamps (SelfScoutReport.timestamps report) =
      SelfScoutReport.timestamps report.
Proof.
  destruct (parseSelfScoutReport_parts rawContent analysisType n)
    as (sections & ts & fs & k1 & ss & k2 & imps & oa & gp &
        Hs & Hts & Hf & Hss & Hi & Hoa & Hgp & Hrun).
  eexists. exists (S k2), ts. split; [exact Hrun|]. simpl.
  split; [exact Hts|]. split; [apply sort_perm|].
  split; [apply sort_bySeconds_sorted|].
  unfold sortedTimestamps. apply (sort_idempotent bySeconds).
  - intros a b c. unfold bySeconds. simpl. rewrite !Z.ltb_ge. lia.
  - intros a b. unfold bySeconds. simpl. rewrite Z.ltb_ge, Z.ltb_lt. lia.
Qed.

(** X11.  The parse step of the opponent analysis returns a report for
    every markdown text: it keeps the markdown, its sections are the
    result of [parseReportSections], its timestamps are those of the
    sections, section after section, its weaknesses are in chronological
    order, and it lists at most five techniques. *)
Theorem parseOpponentReport_returns (markdown : jsstring)
    (fighterName : option jsstring) (reportType : ReportType.t) (n : nat) :
  exists report k,
    parseOpponentReport markdown fighterName reportType n = Ok (report, k) /\
    OpponentReport.rawContent report = markdown /\
    parseReportSections markdown = Ok (OpponentReport.sections report) /\
    OpponentReport.timestamps report =
      flat_map ReportSection.timestamps (OpponentReport.sections report) /\
    StronglySorted chronological (OpponentReport.weaknesses report) /\
    List.length (OpponentReport.mostUtilizedTechniques report) <= 5.
Proof.
  destruct (parseReportSections_spec markdown) as (sections & Hs & _).
  destruct (extractStrengths_total sections markdown n) as (ss & k1 & Hss).
  destruct (collected_findings_total sections k1) as (c & k2 & Hc).
  destruct (extractDecisionTree_total sections) as (nodes & Hn).
  destruct (extractMostUtilizedTechniques_bounded sections) as (tech & Ht & Hlen).
  eexists. exists (S k2). split.
  - unfold parseOpponentReport, genBind, lift, randomUUID, ret.
    rewrite Hs. cbn [bind fst snd]. rewrite Hss. cbn [bind fst snd].
    unfold extractFindings, genBind, ret. rewrite Hc. cbn [bind fst snd].
    rewrite Hn. cbn [bind fst snd]. rewrite Ht. cbn [bind fst snd]. reflexivity.
  - simpl. repeat split; auto. apply sort_byEarliest_sorted.
Qed.

End ReportTheorems.

(** ** The display *)

Lemma fold_left_min l : forall a, fold_left Nat.min l a = fold_right Nat.min a l.
Proof.
  induction l as [|x l IH]; intros a; simpl; auto.
  rewrite IH. clear IH. revert a x. induction l as [|y l IH]; intros a x; simpl.
  - apply Nat.min_comm.
  - rewrite IH. lia.
Qed.

Lemma getEarliestTimestamp_earliest f :
  afterTheStart f -> getEarliestTimestamp f = earliest (Finding.timestamps f).
Proof.
  unfold afterTheStart, getEarliestTimestamp, earliest.
  destruct (Finding.timestamps f) as [|t ts]; [reflexivity|].
  intros Hall. cbn [map]. rewrite fold_left_min.
  revert t Hall. induction ts as [|u ts IH]; intros t Hall.
  - inversion Hall as [|? ? Ht _]; subst. simpl. unfold secondsOrInfinity.
    destruct (Timestamp.seconds t); [congruence|reflexivity].
  - inversion Hall as [|? ? Ht Hrest]; subst.
    specialize (IH u Hrest). cbn [map fold_right] in *.
    rewrite IH. unfold secondsOrInfinity at 1.
    destruct (Timestamp.seconds t) as [|k] eqn:Hk; [congruence|].
    assert (Hmin : forall a b l, Nat.min a (fold_right Nat.min b l) =
                                 Nat.min b (fold_right Nat.min a l)).
    { clear. intros a b l. induction l; simpl; lia. }
    specialize (Hmin (Timestamp.seconds u) (Timestamp.seconds t) (map Timestamp.seconds ts)).
    rewrite Hk in *. unfold minNumber. f_equal. lia.
Qed.

Lemma chronological_byEarliest a b :
  chronological a b -> positive (byEarliest a b) = false.
Proof.
  unfold byEarliest, chronological. rewrite !earliest_firstSeconds.
  destruct (firstSeconds a), (firstSeconds b); simpl; auto; try contradiction.
  intros Hle. apply Z.ltb_ge. lia.
Qed.

Lemma filter_sorted {A : Type} (R : A -> A -> Prop) (p : A -> bool) l :
  StronglySorted R l -> StronglySorted R (filter p l).
Proof.
  induction 1 as [|x l Hs IH Hx]; simpl; [constructor|].
  destruct (p x); auto. constructor; auto.
  rewrite Forall_forall in *. intros y Hy. apply filter_In in Hy as [Hy _]. auto.
Qed.

(** X12.  When the findings are in chronological order, as the parser
    returns them, and none of their timestamps is at second 0, the sort of
    the display changes nothing: [sortedFindings] is [filteredFindings],
    whatever the two filters are. *)
Theorem sortedFindings_keeps_parser_order (findings : list Finding.t)
    (severityFilter : option Severity.t) (categoryFilter : option Category) :
  StronglySorted chronological findings ->
  Forall afterTheStart findings ->
  sortedFindings findings severityFilter categoryFilter =
  filteredFindings findings severityFilter categoryFilter.
Proof.
  intros Hsorted Hstart. unfold sortedFindings. apply sort_sorted_id.
  unfold filteredFindings. apply filter_sorted.
  induction Hsorted as [|x l Hs IH Hx]; [constructor|].
  inversion Hstart as [|? ? Hx0 Hl]; subst. constructor; auto.
  rewrite Forall_forall in *. intros y Hy.
  rewrite !getEarliestTimestamp_earliest by auto.
  apply (chronological_byEarliest x y (Hx y Hy)).
Qed.

Lemma sortedFindings_keeps_parser_order_witness :
  sortedFindings [findingAt 10; findingAt 30] None None =
  filteredFindings [findingAt 10; findingAt 30] None None.
Proof.
  apply (sortedFindings_keeps_parser_order [findingAt 10; findingAt 30] None None).
  - repeat constructor; vm_compute; lia.
  - repeat constructor; vm_compute; discriminate.
Defined.

(** ** Decimal numerals *)

Lemma digitsOf_app fuel : forall n acc,
  digitsOf fuel n acc = digitsOf fuel n [] ++ acc.
Proof.
  induction fuel as [|fuel IH]; intros n acc; simpl; auto.
  destruct (n <? 10); auto.
  rewrite IH. rewrite (IH _ [_]). rewrite <- app_assoc. reflexivity.
Qed.

Lemma decimal_app l1 : forall l2 a,
  decimal (l1 ++ l2) a =
  match decimal l1 a with Some b => decimal l2 b | None => None end.
Proof.
  induction l1 as [|c l1 IH]; intros l2 a; simpl; auto.
  destruct (isDigit c); auto.
Qed.

Lemma isDigit_of_nat r : r < 10 -> isDigit (48 + N.of_nat r)%N = true.
Proof.
  intros Hr. unfold isDigit. apply andb_true_intro.
  split; apply N.leb_le; lia.
Qed.

Lemma decimal_digitsOf fuel : forall n, n < fuel ->
  decimal (digitsOf fuel n []) 0 = Some n.
Proof.
  induction fuel as [|fuel IH]; intros n Hn; [lia|].
  cbn [digitsOf]. pose proof (Nat.mod_upper_bound n 10 ltac:(lia)) as Hr.
  destruct (n <? 10) eqn:Hlt.
  - apply Nat.ltb_lt in Hlt. rewrite Nat.mod_small by assumption.
    cbn [decimal]. rewrite isDigit_of_nat by assumption. f_equal. lia.
  - apply Nat.ltb_ge in Hlt. rewrite digitsOf_app, decimal_app.
    assert (Hq : n / 10 < fuel).
    { pose proof (Nat.div_lt n 10 ltac:(lia) ltac:(lia)). lia. }
    rewrite (IH _ Hq). cbn [decimal]. rewrite isDigit_of_nat by assumption.
    f_equal. pose proof (Nat.div_mod_eq n 10). lia.
Qed.

Lemma Number_toString n : Number (toString n) = Some n.
Proof. apply decimal_digitsOf. lia. Qed.

Lemma digitsOf_digits fuel : forall n acc,
  Forall (fun c => isDigit c = true) acc ->
  Forall (fun c => isDigit c = true) (digitsOf fuel n acc).
Proof.
  induction fuel as [|fuel IH]; intros n acc Hacc; simpl; auto.
  assert (Hd : Forall (fun c => isDigit c = true) ((48 + N.of_nat (n mod 10))%N :: acc)).
  { constructor; auto. apply isDigit_of_nat. apply Nat.mod_upper_bound. lia. }
  destruct (n <? 10); auto.
Qed.

Lemma toString_digits n : Forall (fun c => isDigit c = true) (toString n).
Proof. apply digitsOf_digits. constructor. Qed.

Lemma padStart_digits s n :
  Forall (fun c => isDigit c = true) s ->
  Forall (fun c => isDigit c = true) (padStart s n (char "0")).
Proof.
  intros Hs. unfold padStart. apply Forall_app. split; auto.
  induction (n - List.length s); simpl; auto.
Qed.

Lemma Number_padStart s n : Number (padStart s n (char "0")) = Number s.
Proof.
  unfold padStart, Number. induction (n - List.length s); simpl; auto.
Qed.

(** White space is no digit, so trimming leaves a numeral as it is. *)
Lemma digit_not_whiteSpace c : isDigit c = true -> isWhiteSpace c = false.
Proof.
  intros Hc. apply digit_cases in Hc. simpl in Hc.
  decompose [or] Hc; subst; try contradiction; reflexivity.
Qed.

Lemma trimStart_digits s : Forall (fun c => isDigit c = true) s -> trimStart s = s.
Proof.
  intros Hs. destruct Hs as [|c s Hc _]; simpl; auto.
  rewrite (digit_not_whiteSpace c Hc). reflexivity.
Qed.

Lemma trim_digits s : Forall (fun c => isDigit c = true) s -> trim s = s.
Proof.
  intros Hs. unfold trim, trimEnd. rewrite (trimStart_digits s Hs).
  rewrite trimStart_digits by (apply Forall_rev; exact Hs).
  apply rev_involutive.
Qed.

Lemma safeInteger_le m n : m <= n -> safeInteger n = true -> safeInteger m = true.
Proof.
  unfold safeInteger. rewrite !N.ltb_lt. lia.
Qed.

Lemma safeInteger_small n : n <= 99 * 60 + 99 -> safeInteger n = true.
Proof.
  unfold safeInteger. rewrite N.ltb_lt. simpl. lia.
Qed.

Lemma toNumber_digits s n :
  Forall (fun c => isDigit c = true) s -> Number s = Some n -> safeInteger n = true ->
  toNumber s = Ok n.
Proof.
  intros Hs Hn Hsafe. unfold toNumber, safely.
  rewrite (trim_digits s Hs), Hn. cbn [numeric bind]. rewrite Hsafe. reflexivity.
Qed.

(** The text written for [mins] minutes and [secs] seconds is read back. *)
Lemma timestampToSeconds_clock m s mins secs :
  Forall (fun c => isDigit c = true) m -> Forall (fun c => isDigit c = true) s ->
  Number m = Some mins -> Number s = Some secs ->
  safeInteger (mins * 60 + secs) = true ->
  timestampToSeconds (m ++ lit ":" ++ s) = Ok (mins * 60 + secs).
Proof.
  intros Hm Hs Hnm Hns Hsafe. unfold timestampToSeconds.
  change (lit ":" ++ s) with (char ":" :: s).
  rewrite (split_clock m s Hm Hs).
  rewrite (toNumber_digits m mins Hm Hnm)
    by (apply (safeInteger_le _ (mins * 60 + secs)); [lia | exact Hsafe]).
  cbn [bind].
  rewrite (toNumber_digits s secs Hs Hns)
    by (apply (safeInteger_le _ (mins * 60 + secs)); [lia | exact Hsafe]).
  cbn [bind]. unfold safely. rewrite Hsafe. reflexivity.
Qed.

(** X13.  [timestampToSeconds] undoes [secondsToTimestamp] on the safe
    integers: for every whole number of seconds below 2^53, the text
    [secondsToTimestamp] writes is read back as that number.  (Above 2^53
    the doubles of the program round, and the round trip can fail.) *)
Theorem timestampToSeconds_secondsToTimestamp (seconds : nat) :
  safeInteger seconds = true ->
  (timestamp <- secondsToTimestamp seconds ;; timestampToSeconds timestamp)
  = Ok seconds.
Proof.
  intros Hsafe. unfold secondsToTimestamp, safely. rewrite Hsafe. cbn [bind].
  pose proof (Nat.div_mod_eq seconds 60) as Hdm.
  assert (Hsum : seconds / 60 * 60 + seconds mod 60 = seconds) by lia.
  rewrite (timestampToSeconds_clock _ _ (seconds / 60) (seconds mod 60)).
  - rewrite Hsum. reflexivity.
  - apply padStart_digits, toString_digits.
  - apply padStart_digits, toString_digits.
  - rewrite Number_padStart. apply Number_toString.
  - rewrite Number_padStart. apply Number_toString.
  - rewrite Hsum. exact Hsafe.
Qed.

(** X13 at one hour, two minutes and five seconds. *)
Lemma timestampToSeconds_secondsToTimestamp_witness :
  (timestamp <- secondsToTimestamp 3725 ;; timestampToSeconds timestamp) = Ok 3725.
Proof.
  apply (timestampToSeconds_secondsToTimestamp 3725). reflexivity.
Defined.

(** ** Every extracted timestamp *)

Lemma decimal_le s : Forall (fun c => isDigit c = true) s ->
  forall a n, decimal s a = Some n -> n < (a + 1) * 10 ^ List.length s.
Proof.
  induction 1 as [|c s Hc _ IH]; intros a n; simpl.
  - intros Hn. inversion Hn. lia.
  - rewrite Hc. intros Hn. apply IH in Hn.
    unfold isDigit in Hc. apply andb_prop in Hc as [H1 H2].
    apply N.leb_le in H1, H2.
    assert (N.to_nat (c - 48) <= 9) by lia. nia.
Qed.

Lemma mapM_Forall {A B : Type} (f : A -> result B) (P : A -> Prop) (Q : B -> Prop) :
  (forall x y, P x -> f x = Ok y -> Q y) ->
  forall xs ys, Forall P xs -> mapM f xs = Ok ys -> Forall Q ys.
Proof.
  intros Hf. induction xs as [|x xs IH]; intros ys Hall Hm; simpl in Hm.
  - inversion Hm. constructor.
  - inversion Hall as [|? ? Hx Hxs]; subst.
    destruct (f x) as [y|] eqn:Hy; [|discriminate]. simpl in Hm.
    destruct (mapM f xs) as [ys'|] eqn:Hys; [|discriminate]. simpl in Hm.
    inversion Hm; subst. constructor; eauto.
Qed.

Section TimestampFields.
Context {H : Host}.

Lemma categorizeTimestampContext_cases context :
  In (categorizeTimestampContext context)
     [striking; grappling; defensive; pattern; other].
Proof.
  unfold categorizeTimestampContext.
  repeat match goal with |- context [if ?b then _ else _] => destruct b end;
    simpl; auto 10.
Qed.

Lemma timestampOfMatch_wellTimed text mr t :
  goodMatch timestampRegex mr -> timestampOfMatch text mr = Ok t -> wellTimed t.
Proof.
  intros (_ & _ & Hg) Ht.
  destruct (Hg 1 clockTime spine_timestampRegex) as (v & Hv & Hl).
  apply lang_clockTime in Hl as (m & s & -> & Hm & Hs & Hlm & Hls).
  destruct (decimal_digits _ Hm 0) as [mins Hmins].
  destruct (decimal_digits _ Hs 0) as [secs Hsecs].
  pose proof (decimal_le _ Hm _ _ Hmins) as Hbm.
  pose proof (decimal_le _ Hs _ _ Hsecs) as Hbs.
  assert (mins <= 99).
  { assert (10 ^ List.length m <= 100).
    { destruct Hlm as [? ?].
      assert (List.length m = 1 \/ List.length m = 2) as [-> | ->] by lia;
        simpl; lia. }
    lia. }
  assert (secs <= 99) by (rewrite Hls in Hbs; simpl in Hbs; lia).
  revert Ht. unfold timestampOfMatch.
  rewrite Hv. cbn [defined bind]. rewrite split_clock by assumption.
  cbn [map nth_error nth defined bind].
  change (decimal m 0) with (Number m) in Hmins.
  change (decimal s 0) with (Number s) in Hsecs.
  rewrite Hmins, Hsecs. cbn [numeric bind].
  intros Ht. inversion Ht; subst t; clear Ht. unfold wellTimed. simpl.
  split; [lia|]. split; [|split].
  - apply timestampToSeconds_clock.
    + apply toString_digits.
    + apply padStart_digits, toString_digits.
    + apply Number_toString.
    + rewrite Number_padStart. apply Number_toString.
    + apply safeInteger_small. lia.
  - unfold length. rewrite length_app.
    pose proof (substring_length
      (trim (replaceAll (Chr (oneOf [10%N; 13%N])) (lit " ")
         (substring text (index mr - 50) (Nat.min (length text) (index mr + 50))))) 40)
      as Hsub.
    unfold length in Hsub.
    destruct (40 <? _); simpl List.length; lia.
  - apply categorizeTimestampContext_cases.
Qed.

Lemma extractTimestamps_all_wellTimed text timestamps :
  extractTimestamps text = Ok timestamps -> Forall wellTimed timestamps.
Proof.
  unfold extractTimestamps. destruct (isEmpty text).
  - intros Hts. inversion Hts. constructor.
  - apply (mapM_Forall _ (goodMatch timestampRegex)).
    + intros mr t. apply timestampOfMatch_wellTimed.
    + apply execAll_sound, wellFormed_timestampRegex.
Qed.

(** X14.  [extractTimestamps] returns for every text, and every timestamp
    it returns is well timed: its seconds are at most 99 * 60 + 99,
    [timestampToSeconds] reads its [time] back as its [seconds], its label
    has at most 43 characters, and its category is striking, grappling,
    defensive, pattern or other. *)
Theorem extractTimestamps_wellTimed (text : jsstring) :
  exists timestamps,
    extractTimestamps text = Ok timestamps /\ Forall wellTimed timestamps.
Proof.
  destruct (extractTimestamps_total text) as [ts Hts]. exists ts. split; auto.
  apply (extractTimestamps_all_wellTimed text ts Hts).
Qed.

Lemma execAll_no_opener text : Forall (fun c => opensTimestamp c = false) text ->
  forall skip i, execAll timestampRegex skip i text = [].
Proof.
  induction 1 as [|c tl Hc _ IH]; intros skip i.
  - destruct skip; reflexivity.
  - cbn [execAll]. destruct skip; [|apply IH].
    assert (Hm : matchAt timestampRegex i (c :: tl) = None).
    { unfold matchAt, timestampRegex, cat. cbn [fold_right matcher].
      unfold opensTimestamp in Hc. cbn -[oneOf lit]. rewrite Hc. reflexivity. }
    rewrite Hm. apply IH.
Qed.

(** X15.  A text with no opening bracket, round or square, holds no
    timestamp: [extractTimestamps] returns the empty list and
    [stripTimestamps] only trims the text. *)
Theorem extractTimestamps_needs_opening_bracket (text : jsstring) :
  Forall (fun c => opensTimestamp c = false) text ->
  extractTimestamps text = Ok [] /\ stripTimestamps text = trim text.
Proof.
  intros Hno. split.
  - unfold extractTimestamps. destruct (isEmpty text); auto.
    rewrite execAll_no_opener by assumption. reflexivity.
  - unfold stripTimestamps. f_equal. unfold replaceAll.
    cut (forall i, replaceLoop timestampPattern [] 0 i text = text); [auto|].
    induction Hno as [|c tl Hc _ IH]; intros i; [reflexivity|].
    cbn [replaceLoop].
    assert (Hm : matchAt timestampPattern i (c :: tl) = None).
    { unfold matchAt, timestampPattern, cat. cbn [fold_right matcher].
      unfold opensTimestamp in Hc. cbn -[oneOf lit]. rewrite Hc. reflexivity. }
    rewrite Hm. f_equal. apply IH.
Qed.

End TimestampFields.

Lemma extractTimestamps_needs_opening_bracket_witness :
  @extractTimestamps asciiHost (lit "Jab at 0:12 then clinch") = Ok [] /\
  stripTimestamps (lit "Jab at 0:12 then clinch") = trim (lit "Jab at 0:12 then clinch").
Proof.
  apply (@extractTimestamps_needs_opening_bracket asciiHost (lit "Jab at 0:12 then clinch")).
  repeat constructor.
Defined.

(** ** Replacing single characters and runs of white space *)

Lemma replaceLoop_chr p : forall s i,
  replaceLoop (Chr p) [] 0 i s = filter (fun c => negb (p c)) s.
Proof.
  induction s as [|ch tl IH]; intros i; [reflexivity|].
  cbn [replaceLoop filter]. unfold matchAt. cbn [matcher rest pos caps].
  destruct (p ch); cbn [negb].
  - cbn [endIndex pos app].
    replace (Nat.eqb (S i) i) with false by (symmetry; apply Nat.eqb_neq; lia).
    replace (S i - i - 1) with 0 by lia. apply IH.
  - f_equal. apply IH.
Qed.

Lemma matchAt_plus_space i ch tl :
  isWhiteSpace ch = true -> matchAt (plus space) i (ch :: tl) <> None.
Proof.
  intros Hws. unfold matchAt, plus, space.
  cbn [matcher rest pos caps].
  replace (1 + List.length (ch :: tl) + 1) with (S (S (List.length tl + 1)))
    by (simpl; lia).
  cbn [repeatMatcher isZero Nat.eqb negb clearCaptures groups filter rest pos caps
       matcher andb Nat.pred decr].
  rewrite Hws. cbn [Nat.eqb andb negb isZero].
  match goal with |- context [match ?m with Some z => Some z | None => _ end] =>
    destruct m end; discriminate.
Qed.

Lemma matchAt_plus_space_advances i suffix m :
  matchAt (plus space) i suffix = Some m -> i < endIndex m.
Proof.
  intros Hm.
  destruct (matchAt_sound (plus space) i suffix m eq_refl Hm)
    as (Hi & _ & Hend & Hl & _).
  apply lang_rep_chr in Hl as (_ & Hmin & _). lia.
Qed.

Lemma replaceLoop_plus_space s :
  Forall (fun c => (isLower c || isDigit c || isWhiteSpace c) = true) s ->
  forall skip i,
  Forall (fun c => isSlugChar c = true) (replaceLoop (plus space) (lit "-") skip i s).
Proof.
  induction 1 as [|ch tl Hch _ IH]; intros skip i.
  - destruct skip; cbn [replaceLoop]; [|constructor].
    destruct (matchAt (plus space) i []); repeat constructor.
  - destruct skip; cbn [replaceLoop]; [|apply IH].
    destruct (matchAt (plus space) i (ch :: tl)) as [m|] eqn:Hm.
    + apply matchAt_plus_space_advances in Hm.
      replace (Nat.eqb (endIndex m) i) with false by (symmetry; apply Nat.eqb_neq; lia).
      constructor; [reflexivity|]. apply IH.
    + constructor; [|apply IH].
      destruct (isWhiteSpace ch) eqn:Hws.
      * exfalso. exact (matchAt_plus_space i ch tl Hws Hm).
      * unfold isSlugChar. rewrite orb_false_r in Hch. rewrite Hch. reflexivity.
Qed.

Lemma Forall_firstn {A : Type} (P : A -> Prop) n : forall l,
  Forall P l -> Forall P (firstn n l).
Proof.
  induction n as [|n IH]; intros l Hl; [constructor|].
  destruct Hl; simpl; constructor; auto.
Qed.

Lemma generateSectionId_chars {H : Host} title :
  Forall (fun c => isSlugChar c = true) (generateSectionId title).
Proof.
  unfold generateSectionId, substring. rewrite Nat.min_0_l. cbn [skipn].
  apply Forall_firstn. unfold replaceAll at 1. apply replaceLoop_plus_space.
  unfold replaceAll. rewrite replaceLoop_chr.
  apply Forall_forall. intros c Hc. apply filter_In in Hc as [_ Hc].
  apply negb_true_iff in Hc. apply negb_false_iff in Hc. exact Hc.
Qed.

(** X16.  A section identifier has at most 50 characters, each of them a
    lowercase letter a-z, a digit or a hyphen, whatever the title and the
    case tables of the host. *)
Theorem generateSectionId_slug {H : Host} (title : jsstring) :
  length (generateSectionId title) <= 50 /\
  Forall (fun c => isSlugChar c = true) (generateSectionId title).
Proof.
  split.
  - unfold generateSectionId. apply substring_length.
  - apply generateSectionId_chars.
Qed.

(** ** The sections of every text *)

Lemma headingTitles_count lines :
  List.length (headingTitles lines) = List.length (filter recognized lines).
Proof.
  unfold headingTitles. induction lines as [|l ls IH]; simpl; auto.
  rewrite length_app, IH, titleOfLine_length.
  destruct (recognized l); reflexivity.
Qed.

Section EverySection.
Context {H : Host}.

(** X17.  [parseReportSections] returns for every markdown text.  The
    sections are, in order, the introduction (exactly when a line that is
    neither blank nor a heading comes before every heading) and one section
    for each line recognized as a heading, of the hash or of the bold
    convention, with the title of that line; every section is finalized,
    has an identifier that is a slug of at most 50 characters, and has
    well-timed timestamps. *)
Theorem parseReportSections_every_heading (markdown : jsstring) :
  let lines := split 10%N markdown in
  exists sections,
    parseReportSections markdown = Ok sections /\
    heads sections =
      (if preambleb lines then [introHead] else []) ++
      map headOfTitle (headingTitles lines) /\
    List.length sections =
      (if preambleb lines then 1 else 0) + List.length (filter recognized lines) /\
    Forall finalized sections /\
    Forall wellIdentified sections.
Proof.
  intros lines.
  destruct (parseReportSections_spec markdown) as (sections & Hs & Hfin & Hh).
  fold lines in Hh. exists sections. split; [exact Hs|]. split; [exact Hh|].
  split; [|split; [exact Hfin|]].
  - apply (f_equal (@List.length _)) in Hh. unfold heads in Hh.
    rewrite length_map, length_app, length_map, headingTitles_count in Hh.
    rewrite Hh. destruct (preambleb lines); reflexivity.
  - assert (Hids : Forall (fun h : jsstring * jsstring =>
                             length (fst h) <= 50 /\
                             Forall (fun c => isSlugChar c = true) (fst h))
                          (heads sections)).
    { rewrite Hh. apply Forall_app. split.
      - destruct (preambleb lines); repeat constructor; vm_compute; lia.
      - apply Forall_forall. intros h Hin. apply in_map_iff in Hin as (t & <- & _).
        split; [apply substring_length | apply generateSectionId_chars]. }
    unfold heads in Hids. rewrite Forall_map in Hids. simpl in Hids.
    rewrite Forall_forall in *. intros s Hin.
    destruct (Hids s Hin) as [Hl Hc]. destruct (Hfin s Hin) as [_ Hts].
    repeat split; auto.
    apply (extractTimestamps_all_wellTimed _ _ Hts).
Qed.

End EverySection.

(** ** The game plan *)

Lemma searchFrom_position r : wellFormed r = true ->
  forall suffix i m, searchFrom r i suffix = Some m ->
  exists before after, suffix = before ++ matched m ++ after.
Proof.
  intros Hwf. induction suffix as [|c tl IH]; intros i m; simpl.
  - destruct (matchAt r i []) eqn:Hm; [|discriminate].
    intros Heq; inversion Heq; subst.
    destruct (matchAt_sound _ _ _ _ Hwf Hm) as (_ & (after & Ha) & _).
    exists [], after. exact Ha.
  - destruct (matchAt r i (c :: tl)) eqn:Hm.
    + intros Heq; inversion Heq; subst.
      destruct (matchAt_sound _ _ _ _ Hwf Hm) as (_ & (after & Ha) & _).
      exists [], after. exact Ha.
    + intros Hs. destruct (IH _ _ Hs) as (before & after & ->).
      exists (c :: before), after. reflexivity.
Qed.

Lemma lang_literal (p : codeunit -> codeunit -> bool) cs : forall w,
  lang (cat (map (fun c => Chr (p c)) cs)) w ->
  Forall2 (fun c d => p c d = true) cs w.
Proof.
  induction cs as [|c cs IH]; intros w; unfold cat; cbn [map fold_right lang].
  - intros ->. constructor.
  - intros (u & v & -> & (d & -> & Hd) & Hv). constructor; auto.
Qed.

(** X18.  [extractOpponentGamePlan] returns a game plan only for a raw
    content that holds the words IF I WERE YOUR OPPONENT, in any case. *)
Theorem extractOpponentGamePlan_needs_heading (rawContent plan : jsstring) :
  extractOpponentGamePlan rawContent = Ok (Some plan) ->
  mentions rawContent "IF I WERE YOUR OPPONENT".
Proof.
  unfold extractOpponentGamePlan.
  destruct (exec gamePlanRegex rawContent) as [m|] eqn:Hm; [|discriminate].
  intros _.
  destruct (searchFrom_position _ wellFormed_gamePlanRegex _ _ _ Hm)
    as (before & after & Hraw).
  destruct (exec_sound _ _ _ wellFormed_gamePlanRegex Hm) as (_ & Hl & _).
  unfold gamePlanRegex, cat in Hl. cbn [fold_right] in Hl.
  destruct Hl as (u1 & v1 & Hw1 & _ & u2 & v2 & -> & _ & u3 & v3 & -> & Hphrase & _).
  apply (lang_literal ignoreCase) in Hphrase.
  exists (before ++ u1 ++ u2), u3, (v3 ++ after). split; [|exact Hphrase].
  rewrite Hraw, Hw1. rewrite <- !app_assoc. reflexivity.
Qed.

Lemma extractOpponentGamePlan_needs_heading_witness :
  mentions gamePlanInput "IF I WERE YOUR OPPONENT".
Proof.
  apply (extractOpponentGamePlan_needs_heading gamePlanInput
           (lit "I would jab and circle away.")).
  vm_compute. reflexivity.
Defined.

(** ** The decision tree *)

(** A fold that appends at most [weight x] items for the element [x], each
    of them with the property [Q]. *)
Lemma foldM_appends {A B : Type} (Q : B -> Prop) (weight : A -> nat)
    (f : list B -> A -> result (list B)) :
  (forall s x, exists s', f s x = Ok s' /\
     List.length s' <= List.length s + weight x /\ (Forall Q s -> Forall Q s')) ->
  forall xs s, exists s', foldM f xs s = Ok s' /\
     List.length s' <= List.length s + list_sum (map weight xs) /\
     (Forall Q s -> Forall Q s').
Proof.
  intros Hf. induction xs as [|x xs IH]; intros s; simpl.
  - exists s. repeat split; auto. lia.
  - destruct (Hf s x) as (s1 & H1 & Hl1 & Hq1). rewrite H1. cbn [bind].
    destruct (IH s1) as (s2 & H2 & Hl2 & Hq2). exists s2. repeat split; auto. lia.
Qed.

Section Nodes.
Context {H : Host}.

Lemma nodeOfLine_appends nodes line :
  exists nodes', nodeOfLine nodes line = Ok nodes' /\
    List.length nodes' <= List.length nodes + 1 /\
    (Forall timedNode nodes -> Forall timedNode nodes').
Proof.
  unfold nodeOfLine. destruct (exec decisionRegex line) as [m|] eqn:Hm.
  - destruct (exec_group _ _ _ _ _ wellFormed_decisionRegex spine_decisionRegex_1 Hm)
      as (g1 & Hg1 & _).
    destruct (exec_group _ _ _ _ _ wellFormed_decisionRegex spine_decisionRegex_2 Hm)
      as (g2 & Hg2 & _).
    destruct (extractTimestamps_total line) as (ts & Hts).
    pose proof (extractTimestamps_all_wellTimed _ _ Hts) as Hw.
    rewrite Hg1, Hg2, Hts. cbn [defined bind]. eexists. split; [reflexivity|].
    rewrite length_app. simpl. split; [lia|].
    intros Hn. apply Forall_app. split; auto. constructor; [|constructor].
    unfold timedNode. simpl. destruct Hw; simpl; auto.
  - exists nodes. repeat split; auto. lia.
Qed.

(** X19.  [extractDecisionTree] returns for every list of sections, with
    at most one node for each line of the sections whose title names a
    decision tree, and the timestamp of a node, when it has one, is well
    timed. *)
Theorem extractDecisionTree_nodes (sections : list ReportSection.t) :
  exists nodes,
    extractDecisionTree sections = Ok nodes /\
    List.length nodes <=
      linesOf (titleHas ["decision"; "counter logic"; "tree"]) sections /\
    Forall timedNode nodes.
Proof.
  unfold extractDecisionTree, linesOf.
  destruct (foldM_appends timedNode
              (fun s => List.length (split 10%N (ReportSection.content s)))
              (fun nodes section =>
                 foldM nodeOfLine (split 10%N (ReportSection.content section)) nodes))
    with (xs := filter (titleHas ["decision"; "counter logic"; "tree"]) sections)
         (s := @nil DecisionNode.t) as (nodes & Hn & Hl & Hq).
  - intros s x.
    destruct (foldM_appends timedNode (fun _ => 1) nodeOfLine nodeOfLine_appends
                (split 10%N (ReportSection.content x)) s) as (s' & Hs' & Hl' & Hq').
    exists s'. repeat split; auto.
    replace (list_sum (map (fun _ => 1) (split 10%N (ReportSection.content x))))
      with (List.length (split 10%N (ReportSection.content x))) in Hl'; auto.
    clear. induction (split 10%N (ReportSection.content x)); simpl; auto.
  - exists nodes. repeat split; auto.
Qed.

End Nodes.

(** ** A time reference in each written form *)

Lemma one_or_two_digits m : digits 1 2 m ->
  (exists a, m = [a] /\ isDigit a = true) \/
  (exists a b, m = [a; b] /\ isDigit a = true /\ isDigit b = true).
Proof.
  intros [Hd Hl]. destruct m as [|a [|b [|? ?]]]; simpl in Hl; try lia.
  - left. exists a. inversion Hd; subst. auto.
  - right. exists a, b. inversion Hd as [|? ? Ha Hd']; subst.
    inversion Hd'; subst. auto.
Qed.

Lemma two_digits s : digits 2 2 s ->
  exists a b, s = [a; b] /\ isDigit a = true /\ isDigit b = true.
Proof.
  intros [Hd Hl]. destruct s as [|a [|b [|? ?]]]; simpl in Hl; try lia.
  exists a, b. inversion Hd as [|? ? Ha Hd']; subst. inversion Hd'; subst. auto.
Qed.

Lemma opening_cases c : opensTimestamp c = true -> c = char "[" \/ c = char "(".
Proof.
  unfold opensTimestamp, oneOf, mem. cbn. rewrite !orb_true_iff, !N.eqb_eq.
  intuition; try discriminate.
Qed.

Lemma closing_cases c : closesTimestamp c = true -> c = char "]" \/ c = char ")".
Proof.
  unfold closesTimestamp, oneOf, mem. cbn. rewrite !orb_true_iff, !N.eqb_eq.
  intuition; try discriminate.
Qed.



Lemma clockTime_matches p m s1 s2 tl cs (c : cont) z :
  digits 1 2 m -> isDigit s1 = true -> isDigit s2 = true ->
  c (MState (p + List.length m + 3) tl cs) = Some z ->
  matcher clockTime (MState p (m ++ char ":" :: s1 :: s2 :: tl) cs) c = Some z.
Proof.
  intros Hm H1 H2 Hc. apply one_or_two_digits in Hm.
  destruct Hm as [(a & -> & Ha) | (a & b & -> & Ha & Hb)];
    unfold clockTime, cat, times, one, digit; cbn -[isDigit].
  - rewrite Ha. change (isDigit 58%N) with false. cbn -[isDigit].
    rewrite H1, H2, !filter_all.
    replace (S (S (S (S p)))) with (p + List.length [a] + 3) by (simpl; lia).
    exact Hc.
  - rewrite Ha, Hb. stuckEqb p. cbn -[isDigit]. rewrite H1, H2, !filter_all.
    replace (S (S (S (S (S p))))) with (p + List.length [a; b] + 3) by (simpl; lia).
    rewrite Hc. reflexivity.
Qed.


Lemma stamp_app opening m s1 s2 range closing post :
  stamp opening m [s1; s2] range closing ++ post =
  opening :: m ++ char ":" :: s1 :: s2 :: rangeEnd range ++ closing :: post.
Proof.
  unfold stamp. simpl. rewrite <- !app_assoc. simpl. rewrite <- !app_assoc. reflexivity.
Qed.

Lemma stamp_length opening m s1 s2 range closing :
  List.length (stamp opening m [s1; s2] range closing) =
  List.length m + List.length (rangeEnd range) + 5.
Proof.
  unfold stamp. simpl. rewrite length_app. simpl. rewrite length_app. simpl. lia.
Qed.

Lemma firstn_clock m s1 s2 tl :
  firstn (List.length m + 3) (m ++ char ":" :: s1 :: s2 :: tl) = m ++ [char ":"; s1; s2].
Proof.
  induction m as [|a m IH]; simpl; [reflexivity|]. f_equal. exact IH.
Qed.

Lemma matcher_stamp i opening m s1 s2 range closing post :
  opensTimestamp opening = true -> closesTimestamp closing = true ->
  digits 1 2 m -> isDigit s1 = true -> isDigit s2 = true -> rangeOk range ->
  matcher timestampRegex (MState i (stamp opening m [s1; s2] range closing ++ post) []) Some =
  Some (MState (i + List.length (stamp opening m [s1; s2] range closing)) post
               [(1, m ++ [char ":"; s1; s2])]).
Proof.
  intros Ho Hc Hm H1 H2 Hr. rewrite stamp_app, stamp_length.
  unfold timestampRegex, cat. cbn [fold_right matcher rest pos caps].
  change (oneOf (lit "[(") opening) with (opensTimestamp opening). rewrite Ho.
  apply clockTime_matches; auto.
  unfold setCapture. cbn [pos rest caps].
  replace (S i + List.length m + 3 - S i) with (List.length m + 3) by lia.
  rewrite firstn_clock.
  destruct range as [[m2 s]|]; cbn [rangeEnd rangeOk] in *.
  - destruct Hr as [Hm2 Hs]. apply two_digits in Hs as (t1 & t2 & -> & Ht1 & Ht2).
    unfold opt. cbn [matcher rest pos caps groups app].
    rewrite <- app_assoc. cbn [app List.length Nat.add].
    replace (List.length (m2 ++ char ":" :: t1 :: t2 :: closing :: post) + 1)
      with (S (List.length (m2 ++ char ":" :: t1 :: t2 :: closing :: post))) by lia.
    cbn [repeatMatcher isZero Nat.eqb negb andb clearCaptures filter existsb fst
         matcher rest pos caps one exactly].
    change (N.eqb (char "-") (char "-")) with true. cbv iota.
    match goal with
    | |- match ?e with Some z => Some z | None => _ end = ?r =>
        replace e with r; [reflexivity | symmetry]
    end.
    apply clockTime_matches; auto.
    change (groups (one "-") ++ groups clockTime ++ []) with (@nil nat).
    cbn [pos rest caps existsb negb decr isZero Nat.pred].
    match goal with
    | |- context [Nat.eqb ?a ?b] =>
        replace (Nat.eqb a b) with false by (symmetry; apply Nat.eqb_neq; lia)
    end.
    change (oneOf (lit "])") closing) with (closesTimestamp closing). rewrite Hc.
    rewrite length_app. simpl List.length. do 2 f_equal. lia.
  - unfold opt. cbn [matcher rest pos caps groups app List.length Nat.add].
    replace (List.length post + 1) with (S (List.length post)) by lia.
    cbn [repeatMatcher isZero Nat.eqb negb andb clearCaptures filter existsb fst
         matcher rest pos caps one exactly].
    change (oneOf (lit "])") closing) with (closesTimestamp closing). rewrite Hc.
    apply closing_cases in Hc. simpl List.length.
    destruct Hc as [-> | ->]; cbn; do 2 f_equal; lia.
Qed.

Lemma timestamp_word_no_opener w :
  lang timestampRegex w ->
  exists c v, w = c :: v /\ Forall (fun d => opensTimestamp d = false) v.
Proof.
  unfold timestampRegex, cat. cbn [fold_right].
  intros (u & v & -> & (c & -> & _) & Hv).
  exists c, v. split; [reflexivity|].
  apply lang_letters in Hv.
  eapply Forall_impl; [|exact Hv]. intros d Hd.
  destruct (opensTimestamp d) eqn:Ho; [|reflexivity].
  apply opening_cases in Ho. destruct Ho as [-> | ->]; vm_compute in Hd; discriminate.
Qed.

(** The scan cannot jump over an opening bracket of either kind. *)
Lemma execAll_reaches_opening x tok m0 :
  opensTimestamp x = true ->
  forall pre skip i,
  skip <= List.length pre ->
  matchAt timestampRegex (i + List.length pre) (x :: tok) = Some m0 ->
  exists k, nth_error (execAll timestampRegex skip i (pre ++ x :: tok)) k = Some m0.
Proof.
  intros Hx. induction pre as [|c pre IH]; intros skip i Hskip Hm0.
  - simpl in Hskip. assert (skip = 0) by lia. subst skip.
    rewrite Nat.add_0_r in Hm0. exists 0.
    cbn [app execAll]. rewrite Hm0. reflexivity.
  - cbn [app List.length] in *.
    replace (i + S (List.length pre)) with (S i + List.length pre) in Hm0 by lia.
    destruct skip as [|skip]; cbn [execAll].
    + destruct (matchAt timestampRegex i (c :: pre ++ x :: tok)) as [m|] eqn:Hm.
      * destruct (matchAt_sound _ _ _ _ wellFormed_timestampRegex Hm)
          as (Hi & (tl & Htl) & Hend & Hl & _).
        apply timestamp_word_no_opener in Hl as (c0 & v & Hv & Hnb).
        rewrite Hv in Htl, Hend. simpl in Htl. inversion Htl as [[Hc Hrest]].
        assert (Hne : Forall (fun d => d <> x) v).
        { eapply Forall_impl; [|exact Hnb]. intros d Hd ->. congruence. }
        pose proof (prefix_before_marker _ _ _ _ _ Hrest Hne) as Hlen.
        destruct (IH (endIndex m - i - 1) (S i)) as [k Hk]; auto.
        { rewrite Hend, Hi. simpl. lia. }
        exists (S k). exact Hk.
      * apply IH; auto. lia.
    + apply IH; auto. lia.
Qed.

Section EveryForm.
Context {H : Host}.

(** X20.  A time reference is found in each of its written forms: with
    round or square brackets (the two need not agree) and with or without
    the end of a range.  For a text that holds such a reference,
    [extractTimestamps] returns a timestamp with [seconds = mins * 60 + secs]
    and [time] the minutes without padding, a colon and the two digits of
    the seconds, all taken from the start of the range. *)
Theorem extractTimestamps_every_form (pre post m s : jsstring)
    (opening closing : codeunit) (range : option (jsstring * jsstring)) :
  opensTimestamp opening = true -> closesTimestamp closing = true ->
  digits 1 2 m -> digits 2 2 s -> rangeOk range ->
  exists mins secs timestamps t,
    Number m = Some mins /\ Number s = Some secs /\
    extractTimestamps (pre ++ stamp opening m s range closing ++ post) = Ok timestamps /\
    In t timestamps /\
    Timestamp.seconds t = mins * 60 + secs /\
    Timestamp.time t = toString mins ++ lit ":" ++ s.
Proof.
  intros Ho Hc Hm Hs Hr.
  pose proof Hs as [Hsd Hsl]. pose proof Hm as [Hmd _].
  destruct (decimal_digits _ Hmd 0) as [mins Hmins].
  destruct (decimal_digits _ Hsd 0) as [secs Hsecs].
  destruct (two_digits s Hs) as (s1 & s2 & -> & H1 & H2).
  set (text := pre ++ stamp opening m [s1; s2] range closing ++ post).
  destruct (extractTimestamps_total text) as [ts Hts].
  pose proof (matcher_stamp (List.length pre) opening m s1 s2 range closing post
                Ho Hc Hm H1 H2 Hr) as Hrun.
  set (y := MState (List.length pre + List.length (stamp opening m [s1; s2] range closing))
                   post [(1, m ++ [char ":"; s1; s2])]) in Hrun.
  set (occ := MatchRes (List.length pre) (pos y)
                (firstn (pos y - List.length pre)
                        (stamp opening m [s1; s2] range closing ++ post))
                (caps y)).
  assert (Hat : matchAt timestampRegex (0 + List.length pre)
                  (stamp opening m [s1; s2] range closing ++ post) = Some occ).
  { unfold matchAt. simpl Nat.add. rewrite Hrun. reflexivity. }
  assert (exists k, nth_error (execAll timestampRegex 0 0 text) k = Some occ) as [k Hk].
  { unfold text. unfold stamp in Hat |- *. cbn [app] in Hat |- *.
    apply execAll_reaches_opening; auto. lia. }
  assert (Hne : isEmpty text = false).
  { unfold text, stamp. destruct pre; reflexivity. }
  unfold extractTimestamps in Hts. rewrite Hne in Hts.
  destruct (mapM_nth _ _ _ _ _ Hts Hk) as (t & Hnt & Ht).
  destruct (timestampOfMatch_fields text occ m [s1; s2] mins secs eq_refl Hmd Hsd
              Hmins Hsecs) as (t' & Ht' & Hsec & Htime).
  rewrite Ht in Ht'. inversion Ht'; subst t'.
  exists mins, secs, ts, t.
  unfold extractTimestamps. fold text. rewrite Hne.
  repeat split; auto.
  - eapply nth_error_In; eauto.
  - rewrite Htime. rewrite (two_digits_padded [s1; s2] secs); auto.
Qed.

End EveryForm.

Lemma extractTimestamps_every_form_witness :
  exists mins secs timestamps t,
    Number (lit "1") = Some mins /\ Number (lit "05") = Some secs /\
    @extractTimestamps asciiHost
      (lit "Clinch " ++
       stamp (char "(") (lit "1") (lit "05") (Some (lit "1", lit "20")) (char ")") ++
       lit " knee") = Ok timestamps /\
    In t timestamps /\
    Timestamp.seconds t = mins * 60 + secs /\
    Timestamp.time t = toString mins ++ lit ":" ++ lit "05".
Proof.
  apply (@extractTimestamps_every_form asciiHost (lit "Clinch ") (lit " knee")
           (lit "1") (lit "05") (char "(") (char ")") (Some (lit "1", lit "20"))).
  - reflexivity.
  - reflexivity.
  - split; [repeat constructor | simpl; lia].
  - split; [repeat constructor | simpl; lia].
  - split; (split; [repeat constructor | simpl; lia]).
Defined.

(** ** The cut of the summary *)

Lemma lastIndexOf_aux_found c : forall s i from best,
  lastIndexOf_aux c s i from best = best \/
  exists k, lastIndexOf_aux c s i from best = Z.of_nat (i + k) /\
            nth_error s k = Some c.
Proof.
  induction s as [|d s IH]; intros i from best; simpl; auto.
  destruct (from <? i); auto.
  destruct (IH (S i) from (if N.eqb d c then Z.of_nat i else best)) as [Hr | (k & Hr & Hk)].
  - destruct (N.eqb d c) eqn:Hd; auto.
    apply N.eqb_eq in Hd. subst d. right. exists 0.
    rewrite Hr, Nat.add_0_r. auto.
  - right. exists (S k). rewrite Hr. split; [f_equal; lia | exact Hk].
Qed.

Lemma lastIndexOf_found s c from :
  lastIndexOf s c from = (-1)%Z \/
  exists k, lastIndexOf s c from = Z.of_nat k /\ nth_error s k = Some c.
Proof.
  unfold lastIndexOf.
  destruct (lastIndexOf_aux_found c s 0 from (-1)%Z) as [Hr | (k & Hr & Hk)]; eauto.
Qed.

Lemma firstn_S_nth {A : Type} (l : list A) k x :
  nth_error l k = Some x -> firstn (S k) l = firstn k l ++ [x].
Proof.
  revert l. induction k as [|k IH]; intros [|a l] Hk; simpl in *; try discriminate.
  - inversion Hk. reflexivity.
  - f_equal. apply IH. exact Hk.
Qed.

Lemma substring_prefix s n : s = substring s 0 n ++ skipn n s.
Proof.
  unfold substring. rewrite Nat.min_0_l, Nat.max_0_l, Nat.sub_0_r. simpl.
  symmetry. apply firstn_skipn.
Qed.

(** X21.  [truncateSummary] returns a prefix of the text.  Either the
    whole text is kept, or the prefix has exactly 1500 characters, or it
    has between 502 and 1501 characters and ends with a full stop, a
    question mark or an exclamation mark. *)
Theorem truncateSummary_cuts_at_sentence (summaryText : jsstring) :
  exists rest,
    summaryText = truncateSummary summaryText ++ rest /\
    (rest = [] \/
     length (truncateSummary summaryText) = 1500 \/
     (501 < length (truncateSummary summaryText) <= 1501 /\
      endsSentence (truncateSummary summaryText))).
Proof.
  unfold truncateSummary.
  destruct (1500 <? length summaryText) eqn:Hlong;
    [|exists []; split; [symmetry; apply app_nil_r | auto]].
  apply Nat.ltb_lt in Hlong.
  set (best := Z.max (Z.max (lastIndexOf summaryText (char ".") 1500)
                            (lastIndexOf summaryText (char "?") 1500))
                     (lastIndexOf summaryText (char "!") 1500)).
  cbv zeta. fold best.
  destruct (500 <? best)%Z eqn:Hbest.
  - apply Z.ltb_lt in Hbest.
    exists (skipn (Z.to_nat (best + 1)) summaryText).
    split; [apply substring_prefix|]. right. right.
    assert (Hfound : exists k c, best = Z.of_nat k /\ nth_error summaryText k = Some c /\
                                 In c (lit ".?!") /\ k <= 1500).
    { pose proof (lastIndexOf_le summaryText (char ".") 1500) as L1.
      pose proof (lastIndexOf_le summaryText (char "?") 1500) as L2.
      pose proof (lastIndexOf_le summaryText (char "!") 1500) as L3.
      destruct (lastIndexOf_found summaryText (char ".") 1500) as [H1 | (k1 & H1 & N1)];
      destruct (lastIndexOf_found summaryText (char "?") 1500) as [H2 | (k2 & H2 & N2)];
      destruct (lastIndexOf_found summaryText (char "!") 1500) as [H3 | (k3 & H3 & N3)];
      unfold best in *; rewrite ?H1, ?H2, ?H3 in *;
      match goal with
      | |- exists k c, Z.max (Z.max ?a ?b) ?d = _ /\ _ =>
          destruct (Z.max_spec a b) as [[_ E1] | [_ E1]];
          destruct (Z.max_spec (Z.max a b) d) as [[_ E2] | [_ E2]];
          rewrite E2 in *; rewrite ?E1 in *
      end;
      try lia;
      first [ exists k1, (char "."); repeat split; simpl; auto; lia
            | exists k2, (char "?"); repeat split; simpl; auto; lia
            | exists k3, (char "!"); repeat split; simpl; auto; lia ]. }
    destruct Hfound as (k & c & Hk & Hnth & Hc & Hle).
    rewrite Hk in *. replace (Z.to_nat (Z.of_nat k + 1)) with (S k) by lia.
    assert (Hlen : k < List.length summaryText) by (apply nth_error_Some; congruence).
    unfold substring. rewrite Nat.min_0_l, Nat.max_0_l, Nat.sub_0_r. cbn [skipn].
    split.
    + unfold length. rewrite length_firstn. lia.
    + exists (firstn k summaryText), c. split; [apply firstn_S_nth|]; assumption.
  - exists (skipn 1500 summaryText). split; [apply substring_prefix|].
    right. left. rewrite substring_0_length. unfold length in *. lia.
Qed.

(** ** Categories of the findings *)

Lemma filter_none {A : Type} (p : A -> bool) l :
  Forall (fun x => p x = false) l -> filter p l = [].
Proof. induction 1 as [|x l Hx _ IH]; simpl; auto. rewrite Hx. exact IH. Qed.

Section Categories.
Context {H : Host}.

Lemma inferCategory_inferred text : inferred (inferCategory text).
Proof.
  unfold inferCategory, inferred.
  repeat match goal with |- context [if ?b then _ else _] => destruct b end;
    simpl; auto 10.
Qed.

Lemma findingOfLine_category section entry fs n fs' n' :
  Forall (fun f => inferred (Finding.category f)) fs ->
  findingOfLine section fs entry n = Ok (fs', n') ->
  Forall (fun f => inferred (Finding.category f)) fs'.
Proof.
  intros Hfs. unfold findingOfLine. destruct entry as [index line].
  destruct (test findingItem (trim line) && (15 <? length (trim line)));
    [|intros Heq; inversion Heq; subst; exact Hfs].
  set (text := trim (replace itemPrefix [] (trim line))).
  destruct (10 <? length text);
    [|intros Heq; inversion Heq; subst; exact Hfs].
  unfold genBind, lift, randomUUID, ret.
  destruct (extractTimestamps text) as [ts|]; [|discriminate]. simpl.
  destruct (extractTitle text) as [t|]; [|discriminate]. simpl.
  intros Heq. inversion Heq; subst; clear Heq.
  apply Forall_app. split; [exact Hfs|]. constructor; [|constructor].
  apply inferCategory_inferred.
Qed.

Lemma collectFindings_category section fs n fs' n' :
  Forall (fun f => inferred (Finding.category f)) fs ->
  collectFindings fs section n = Ok (fs', n') ->
  Forall (fun f => inferred (Finding.category f)) fs'.
Proof.
  intros Hfs. unfold collectFindings, genBind, ret.
  destruct (extractFindingsFromSection section n) as [[sf k]|] eqn:Hs; [|discriminate].
  simpl. intros Heq. inversion Heq; subst; clear Heq.
  apply Forall_app. split; [exact Hfs|].
  unfold extractFindingsFromSection in Hs.
  eapply (foldG_invariant (Forall (fun f => inferred (Finding.category f))));
    [|constructor|exact Hs].
  intros s x m s' m'. apply findingOfLine_category.
Qed.

(** X22.  [extractFindings] gives every finding one of the categories
    striking, grappling, movement, cardio, mental and pattern, never
    defensive or other; so the category filters Defensive and Other of the
    display show none of the findings the parser returns, whatever the
    severity filter is. *)
Theorem extractFindings_categories (sections : list ReportSection.t)
    (rawContent : jsstring) (n : nat) :
  exists findings k,
    extractFindings sections rawContent n = Ok (findings, k) /\
    Forall (fun f => inferred (Finding.category f)) findings /\
    forall severityFilter,
      filteredFindings findings severityFilter (Some defensive) = [] /\
      filteredFindings findings severityFilter (Some other) = [].
Proof.
  destruct (collected_findings_total sections n) as (c & k & Hc).
  exists (sort byEarliest (deduplicateFindings c)), k.
  split; [unfold extractFindings, genBind; rewrite Hc; reflexivity|].
  assert (Hall : Forall (fun f => inferred (Finding.category f))
                        (sort byEarliest (deduplicateFindings c))).
  { apply sort_Forall, dedupFrom_Forall.
    eapply (foldG_invariant (Forall (fun f => inferred (Finding.category f))));
      [|constructor|exact Hc].
    intros s x m s' m'. apply collectFindings_category. }
  split; [exact Hall|].
  intros severityFilter. unfold filteredFindings.
  split; apply filter_none; (eapply Forall_impl; [|exact Hall]);
    intros f Hf; unfold inferred in Hf; simpl in Hf;
    destruct (Finding.category f); simpl;
    try apply andb_false_r;
    decompose [or] Hf; try discriminate; try contradiction.
Qed.

End Categories.

(** ** A text without headings *)

Section NoHeadings.
Context {H : Host}.

Lemma headingTitles_none lines :
  Forall (fun line => recognized line = false) lines -> headingTitles lines = [].
Proof.
  intros Hno. apply length_zero_iff_nil. rewrite headingTitles_count.
  rewrite (filter_none recognized lines Hno). reflexivity.
Qed.

Lemma introduction_only sections :
  toLowerCase (lit "Introduction") = lit "introduction" ->
  Forall (fun h => h = introHead) (heads sections) ->
  filter (titleHas findingSectionKeywords) sections = [] /\
  filter (titleHas strengthKeywords) sections = [] /\
  filter (titleHas ["priority"; "improvement"; "fix"]) sections = [].
Proof.
  intros Hlower Hheads.
  assert (Htitles : Forall (fun s => ReportSection.title s = lit "Introduction") sections).
  { unfold heads in Hheads. rewrite Forall_map in Hheads.
    eapply Forall_impl; [|exact Hheads]. intros s Hs. unfold introHead in Hs.
    inversion Hs. reflexivity. }
  repeat split; apply filter_none; (eapply Forall_impl; [|exact Htitles]);
    intros s Hs; unfold titleHas; rewrite Hs, Hlower; reflexivity.
Qed.

(** X23.  A raw content without a heading line, of the hash or of the
    bold convention, gives a report with at most one section (the
    introduction) and with no findings, no strengths and no priority
    improvements, list items or not.  The host is asked to lowercase the
    title Introduction as such. *)
Theorem report_without_headings (rawContent : jsstring)
    (analysisType : AnalysisType) (n : nat) :
  toLowerCase (lit "Introduction") = lit "introduction" ->
  Forall (fun line => recognized line = false) (split 10%N rawContent) ->
  exists report k,
    parseSelfScoutReport rawContent analysisType n = Ok (report, k) /\
    List.length (SelfScoutReport.sections report) <= 1 /\
    SelfScoutReport.findings report = [] /\
    SelfScoutReport.strengths report = [] /\
    SelfScoutReport.priorityImprovements report = [].
Proof.
  intros Hlower Hno.
  destruct (parseSelfScoutReport_parts rawContent analysisType n)
    as (sections & ts & fs & k1 & ss & k2 & imps & oa & gp &
        Hs & Hts & Hf & Hss & Hi & Hoa & Hgp & Hrun).
  destruct (parseReportSections_spec rawContent) as (sections' & Hs' & _ & Hh).
  rewrite Hs in Hs'. inversion Hs'; subst sections'; clear Hs'.
  rewrite (headingTitles_none _ Hno), app_nil_r in Hh.
  assert (Hintro : Forall (fun h => h = introHead) (heads sections)).
  { rewrite Hh. destruct (preambleb _); repeat constructor. }
  destruct (introduction_only sections Hlower Hintro) as (Ff & Fs & Fi).
  unfold extractFindings, genBind in Hf. rewrite Ff in Hf.
  cbn in Hf. inversion Hf; subst fs k1; clear Hf.
  unfold extractStrengths, genBind in Hss. rewrite Fs in Hss.
  cbn in Hss. inversion Hss; subst ss k2; clear Hss.
  unfold extractImprovements in Hi. rewrite Fi in Hi.
  cbn in Hi. inversion Hi; subst imps; clear Hi.
  eexists. exists (S n). split; [exact Hrun|]. simpl.
  repeat split; auto.
  apply (f_equal (@List.length _)) in Hh. unfold heads in Hh.
  rewrite length_map in Hh. rewrite Hh. destruct (preambleb _); simpl; lia.
Qed.

End NoHeadings.

Lemma report_without_headings_witness :
  exists report k,
    @parseSelfScoutReport asciiHost listWithoutHeading quick 0 = Ok (report, k) /\
    List.length (SelfScoutReport.sections report) <= 1 /\
    SelfScoutReport.findings report = [] /\
    SelfScoutReport.strengths report = [] /\
    SelfScoutReport.priorityImprovements report = [].
Proof.
  apply (@report_without_headings asciiHost listWithoutHeading quick 0).
  - reflexivity.
  - set (lines := split 10%N listWithoutHeading). vm_compute in lines. subst lines.
    repeat (apply Forall_cons; [vm_compute; reflexivity|]). apply Forall_nil.
Defined.

(** ** Identifiers *)

Lemma foldG_counted {A S : Type} (P : S -> nat -> Prop) (f : S -> A -> gen S) :
  (forall s x n s' n', P s n -> f s x n = Ok (s', n') -> P s' n') ->
  forall xs s n s' n', P s n -> foldG f xs s n = Ok (s', n') -> P s' n'.
Proof.
  intros Hf. induction xs as [|x xs IH]; intros s n s' n' Hs Hr; simpl in Hr.
  - inversion Hr; subst. exact Hs.
  - unfold genBind in Hr. destruct (f s x n) as [[s1 n1]|] eqn:Hfx; [|discriminate].
    simpl in Hr. eapply IH; [|exact Hr]. eapply Hf; eauto.
Qed.

Section Identifiers.
Context {H : Host}.
Hypothesis uuid_fresh : forall i j, uuid i = uuid j -> i = j.

Lemma drawn_nil lo hi : drawn lo hi [].
Proof. split; constructor. Qed.

Lemma drawn_wider lo hi lo' hi' items :
  lo' <= lo -> hi <= hi' -> drawn lo hi items -> drawn lo' hi' items.
Proof.
  intros Hlo Hhi [Hn Hf]. split; auto.
  eapply Forall_impl; [|exact Hf]. intros f (j & Hj & Hid). exists j. split; [lia|auto].
Qed.

Lemma drawn_app lo mid hi items items' :
  drawn lo mid items -> drawn mid hi items' -> lo <= mid <= hi ->
  drawn lo hi (items ++ items').
Proof.
  intros [Hn Hf] [Hn' Hf'] Hle. split.
  - rewrite map_app. revert Hn Hf. induction items as [|f items IH]; simpl; auto.
    intros Hnd Hall. inversion Hnd as [|? ? Hnotin Hnd']; subst.
    inversion Hall as [|? ? (j & Hj & Hid) Hall']; subst.
    constructor; auto. intros Hin. apply in_app_or in Hin as [Hin|Hin]; auto.
    apply in_map_iff in Hin as (f' & Hid' & Hin').
    rewrite Forall_forall in Hf'. destruct (Hf' f' Hin') as (j' & Hj' & Hid'').
    rewrite Hid, Hid'' in Hid'. apply uuid_fresh in Hid'. lia.
  - apply Forall_app. split.
    + eapply Forall_impl; [|exact Hf]. intros f (j & Hj & Hid). exists j. split; [lia|auto].
    + eapply Forall_impl; [|exact Hf']. intros f (j & Hj & Hid). exists j. split; [lia|auto].
Qed.

Lemma drawn_one n f : Finding.id f = uuid n -> drawn n (S n) [f].
Proof.
  intros Hid. split; simpl.
  - constructor; [intros []|constructor].
  - constructor; [|constructor]. exists n. split; [lia|exact Hid].
Qed.

(** A step that leaves the list as it is or appends one item with the
    next identifier. *)
Lemma drawn_step lo items n items' n' :
  drawn lo n items /\ lo <= n ->
  (items' = items /\ n' = n) \/
  (exists f, items' = items ++ [f] /\ Finding.id f = uuid n /\ n' = S n) ->
  drawn lo n' items' /\ lo <= n'.
Proof.
  intros [Hd Hle] Hstep.
  destruct Hstep as [[H1 H2] | (f & H1 & Hid & H2)]; subst; [auto|].
  split; [|lia]. apply (drawn_app lo n (S n)); auto using drawn_one.
Qed.

Lemma findingOfLine_id section entry fs n fs' n' :
  findingOfLine section fs entry n = Ok (fs', n') ->
  (fs' = fs /\ n' = n) \/
  (exists f, fs' = fs ++ [f] /\ Finding.id f = uuid n /\ n' = S n).
Proof.
  unfold findingOfLine. destruct entry as [index line].
  destruct (test findingItem (trim line) && (15 <? length (trim line)));
    [|intros Heq; inversion Heq; auto].
  set (text := trim (replace itemPrefix [] (trim line))).
  destruct (10 <? length text); [|intros Heq; inversion Heq; auto].
  unfold genBind, lift, randomUUID, ret.
  destruct (extractTimestamps text) as [ts|]; [|discriminate]. simpl.
  destruct (extractTitle text) as [t|]; [|discriminate]. simpl.
  intros Heq. inversion Heq; subst; clear Heq. right. eauto.
Qed.

Lemma strengthOfLine_id line fs n fs' n' :
  strengthOfLine fs line n = Ok (fs', n') ->
  (fs' = fs /\ n' = n) \/
  (exists f, fs' = fs ++ [f] /\ Finding.id f = uuid n /\ n' = S n).
Proof.
  unfold strengthOfLine.
  destruct (test listItem (trim line) && (15 <? length (trim line)));
    [|intros Heq; inversion Heq; auto].
  set (text := trim (replace itemPrefix [] (trim line))).
  destruct (10 <? length text); [|intros Heq; inversion Heq; auto].
  unfold genBind, lift, randomUUID, ret.
  destruct (extractTimestamps text) as [ts|]; [|discriminate]. simpl.
  destruct (extractTitle text) as [t|]; [|discriminate]. simpl.
  intros Heq. inversion Heq; subst; clear Heq. right. eauto.
Qed.

Lemma collectFindings_drawn lo section fs n fs' n' :
  drawn lo n fs /\ lo <= n ->
  collectFindings fs section n = Ok (fs', n') ->
  drawn lo n' fs' /\ lo <= n'.
Proof.
  intros [Hd Hle]. unfold collectFindings, genBind, ret.
  destruct (extractFindingsFromSection section n) as [[sf k]|] eqn:Hs; [|discriminate].
  simpl. intros Heq. inversion Heq; subst; clear Heq.
  unfold extractFindingsFromSection in Hs.
  assert (Hsf : drawn n n' sf /\ n <= n').
  { apply (foldG_counted (fun s m => drawn n m s /\ n <= m) (findingOfLine section))
      with (xs := indexed (split 10%N (ReportSection.content section)))
           (s := @nil Finding.t) (n := n); auto using drawn_nil.
    intros s x m s' m' Hp Hr. apply (drawn_step n s m); auto.
    apply (findingOfLine_id _ _ _ _ _ _ Hr). }
  destruct Hsf as [Hsf Hn]. split; [|lia].
  apply (drawn_app lo n n'); auto.
Qed.

Lemma collectStrengths_drawn lo section fs n fs' n' :
  drawn lo n fs /\ lo <= n ->
  collectStrengths fs section n = Ok (fs', n') ->
  drawn lo n' fs' /\ lo <= n'.
Proof.
  unfold collectStrengths.
  apply (foldG_counted (fun s m => drawn lo m s /\ lo <= m) strengthOfLine).
  intros s x m s' m' Hp Hr. apply (drawn_step lo s m); auto.
  apply (strengthOfLine_id _ _ _ _ _ Hr).
Qed.

Lemma dedupFrom_drawn lo hi items : forall seen,
  drawn lo hi items -> drawn lo hi (dedupFrom seen items).
Proof.
  intros seen [Hn Hf]. split; [|apply dedupFrom_Forall; exact Hf].
  clear Hf. revert seen Hn. induction items as [|f items IH]; intros seen Hn; simpl.
  - constructor.
  - simpl in Hn. inversion Hn as [|? ? Hnotin Hn']; subst.
    destruct (existsb _ seen); [apply IH; exact Hn'|].
    simpl. constructor; [|apply IH; exact Hn'].
    intros Hin. apply Hnotin. apply in_map_iff in Hin as (g & Hg & Hin).
    apply in_map_iff. exists g. split; auto.
    eapply dedupFrom_incl; eauto.
Qed.

Lemma sort_drawn lo hi cmp items :
  drawn lo hi items -> drawn lo hi (sort cmp items).
Proof.
  intros [Hn Hf]. split; [|apply sort_Forall; exact Hf].
  eapply Permutation_NoDup; [|exact Hn]. apply Permutation_map, sort_perm.
Qed.

Lemma extractFindings_drawn sections rawContent n findings k :
  extractFindings sections rawContent n = Ok (findings, k) ->
  drawn n k findings /\ n <= k.
Proof.
  unfold extractFindings, genBind, ret.
  destruct (foldG collectFindings _ [] n) as [[c k']|] eqn:Hc; [|discriminate].
  simpl. intros Heq. inversion Heq; subst; clear Heq.
  assert (Hd : drawn n k c /\ n <= k).
  { apply (foldG_counted (fun s m => drawn n m s /\ n <= m) collectFindings)
      with (xs := filter (titleHas findingSectionKeywords) sections)
           (s := @nil Finding.t) (n := n); auto using drawn_nil.
    intros s x m s' m'. apply collectFindings_drawn. }
  destruct Hd as [Hd Hle]. split; [|exact Hle].
  apply sort_drawn, dedupFrom_drawn, Hd.
Qed.

Lemma extractStrengths_drawn sections rawContent n strengths k :
  extractStrengths sections rawContent n = Ok (strengths, k) ->
  drawn n k strengths /\ n <= k.
Proof.
  unfold extractStrengths, genBind, ret.
  destruct (foldG collectStrengths _ [] n) as [[c k']|] eqn:Hc; [|discriminate].
  simpl. intros Heq. inversion Heq; subst; clear Heq.
  assert (Hd : drawn n k c /\ n <= k).
  { apply (foldG_counted (fun s m => drawn n m s /\ n <= m) collectStrengths)
      with (xs := filter (titleHas strengthKeywords) sections)
           (s := @nil Finding.t) (n := n); auto using drawn_nil.
    intros s x m s' m'. apply collectStrengths_drawn. }
  destruct Hd as [Hd Hle]. split; [|exact Hle].
  apply dedupFrom_drawn, Hd.
Qed.

(** X24.  When the host never gives the same identifier twice
    ([uuid_fresh]), the identifier of the report [parseSelfScoutReport]
    returns and the identifiers of its findings and strengths are all
    distinct: deduplication and sorting keep them so. *)
Theorem parseSelfScoutReport_distinct_ids (rawContent : jsstring)
    (analysisType : AnalysisType) (n : nat) :
  exists report k,
    parseSelfScoutReport rawContent analysisType n = Ok (report, k) /\
    NoDup (SelfScoutReport.id report ::
           map Finding.id (SelfScoutReport.findings report) ++
           map Finding.id (SelfScoutReport.strengths report)).
Proof.
  destruct (parseSelfScoutReport_parts rawContent analysisType n)
    as (sections & ts & fs & k1 & ss & k2 & imps & oa & gp &
        Hs & Hts & Hf & Hss & Hi & Hoa & Hgp & Hrun).
  eexists. exists (S k2). split; [exact Hrun|]. simpl.
  destruct (extractFindings_drawn _ _ _ _ _ Hf) as [Hdf Hle1].
  destruct (extractStrengths_drawn _ _ _ _ _ Hss) as [Hds Hle2].
  destruct (drawn_app n k1 k2 fs ss Hdf Hds ltac:(lia)) as [Hnd Hall].
  rewrite <- map_app. constructor; [|exact Hnd].
  intros Hin. apply in_map_iff in Hin as (f & Hid & Hin).
  rewrite Forall_forall in Hall. destruct (Hall f Hin) as (j & Hj & Hidj).
  rewrite Hidj in Hid. apply uuid_fresh in Hid. lia.
Qed.

End Identifiers.

Lemma asciiHost_uuid_fresh i j : @uuid asciiHost i = @uuid asciiHost j -> i = j.
Proof.
  cbn [uuid asciiHost]. intros Heq. apply app_inv_head in Heq.
  apply (f_equal Number) in Heq. rewrite !Number_toString in Heq.
  inversion Heq. reflexivity.
Qed.

Lemma parseSelfScoutReport_distinct_ids_witness :
  exists report k,
    @parseSelfScoutReport asciiHost sampleMarkdown quick 0 = Ok (report, k) /\
    NoDup (SelfScoutReport.id report ::
           map Finding.id (SelfScoutReport.findings report) ++
           map Finding.id (SelfScoutReport.strengths report)).
Proof.
  apply (@parseSelfScoutReport_distinct_ids asciiHost asciiHost_uuid_fresh
           sampleMarkdown quick 0).
Defined.

(** ** The sort key of the display *)

Lemma fold_left_min_cons a b l :
  fold_left Nat.min l (Nat.min a b) = Nat.min a (fold_left Nat.min l b).
Proof.
  rewrite !fold_left_min. induction l as [|x l IH]; simpl; auto. rewrite IH. lia.
Qed.

(** X25.  The sort key of the display is the sort key of the parser once
    the timestamps at second 0 are left out: [getEarliestTimestamp] of a
    finding is the earliest of its timestamps that are past second 0, and
    Infinity when there is none. *)
Theorem getEarliestTimestamp_skips_second_zero (finding : Finding.t) :
  getEarliestTimestamp finding =
  earliest (filter pastTheStart (Finding.timestamps finding)).
Proof.
  unfold getEarliestTimestamp.
  assert (Hfold : forall ts,
            fold_right minNumber PosInf (map secondsOrInfinity ts) =
            earliest (filter pastTheStart ts)).
  { induction ts as [|t ts IH]; [reflexivity|].
    cbn [map fold_right filter]. rewrite IH. clear IH.
    assert (Hp : pastTheStart t = negb (Nat.eqb (Timestamp.seconds t) 0)) by reflexivity.
    unfold secondsOrInfinity.
    destruct (Timestamp.seconds t) as [|k] eqn:Hk; cbn [Nat.eqb negb] in Hp; rewrite Hp.
    - unfold earliest. destruct (map Timestamp.seconds (filter pastTheStart ts));
        reflexivity.
    - unfold earliest. cbn [map]. rewrite Hk.
      destruct (map Timestamp.seconds (filter pastTheStart ts)) as [|u us]; [reflexivity|].
      cbn [fold_left minNumber]. rewrite fold_left_min_cons. f_equal. lia. }
  destruct (Finding.timestamps finding) as [|t ts] eqn:Hts; [reflexivity|].
  apply Hfold.
Qed.
